(** * GBBS Pro message database tool: block-chain recovery engine

    A shallow embedding of [gbbsmsgtool.py] and the properties of its
    packed-text codec, chain follower and scanners.

    Conventions of the embedding:
    - Python integers are [Z]; a [bytes] object is a [list Z] whose
      elements satisfy [byte_ok]; a [str] is a list of code points.
    - Python [set] objects of block numbers are [gset Z].
    - Code that can raise returns an [outcome]; the [while] loops run on
      fuel and report [OutOfFuel] when it is exhausted.  The properties
      show that neither happens on a store of bytes.
    - The dictionary of [read_users_file] is a [gmap Z user_info]; the
      content of a file that cannot be read is [None].
    - The library calls of [parse_date] ([re.search], [strptime]) are the
      members of the class [DateLibrary]; no property depends on what
      they return. *)

From Stdlib Require Import ZArith Lia.
From stdpp Require Import base tactics option list numbers strings gmap sets relations sorting.

Local Open Scope Z_scope.

Module Gbbs.

(** ** Python values and primitives *)

Module Py.

(** Exceptions that the modelled fragment can raise. *)
Inductive exn : Type :=
| IndexError    (* a sequence indexed out of range *)
| ValueError    (* bytes() given an element outside range(256) *)
| StructError.  (* struct.unpack given a buffer of the wrong size *)

Inductive outcome (A : Type) : Type :=
| Ok (a : A)
| Raise (e : exn)
| OutOfFuel.
Arguments Ok {A} a.
Arguments Raise {A} e.
Arguments OutOfFuel {A}.

Definition bind {A B} (m : outcome A) (k : A -> outcome B) : outcome B :=
  match m with
  | Ok a => k a
  | Raise e => Raise e
  | OutOfFuel => OutOfFuel
  end.

(** [str] values: sequences of code points. *)
Definition text : Type := list Z.

Definition byte_ok (b : Z) : Prop := 0 <= b < 256.
Definition is_bytes (d : list Z) : Prop := Forall byte_ok d.

Definition len {A} (l : list A) : Z := Z.of_nat (length l).

(** Python slice bounds: a negative bound counts from the end, and both
    bounds are clamped to the sequence. *)
Definition norm_index (n i : Z) : Z :=
  if i <? 0 then Z.max 0 (i + n) else Z.min i n.

(** [l[a:b]] *)
Definition slice {A} (l : list A) (a b : Z) : list A :=
  let a' := norm_index (len l) a in
  let b' := norm_index (len l) b in
  take (Z.to_nat (b' - a')) (drop (Z.to_nat a') l).

(** [l[i]] for a non-negative literal index. *)
Definition getitem {A} (l : list A) (i : nat) : outcome A :=
  match l !! i with
  | Some x => Ok x
  | None => Raise IndexError
  end.

(** [range(n)] and [range(a, b)] *)
Definition range (n : Z) : list Z := seqZ 0 n.
Definition range2 (a b : Z) : list Z := seqZ a (b - a).

(** [bytes(result)] *)
Definition bytes_of (l : list Z) : outcome (list Z) :=
  if forallb (fun c => (0 <=? c) && (c <? 256)) l then Ok l else Raise ValueError.

(** [.decode('ascii', errors='replace')]: a byte above 0x7F becomes U+FFFD. *)
Definition decode_ascii_replace (b : list Z) : text :=
  map (fun c => if c <? 128 then c else 0xFFFD) b.

(** [.replace(a, b)] for one-character [a] and [b]. *)
Definition replace_char (a b : Z) (t : text) : text :=
  map (fun c => if c =? a then b else c) t.

(** [.replace(a, '')] for a one-character [a]. *)
Definition remove_char (a : Z) (t : text) : text :=
  filter (fun c => c <> a) t.

(** [struct.unpack('<H', buf)[0]] *)
Definition unpack_H (buf : list Z) : outcome Z :=
  match buf with
  | [lo; hi] => Ok (Z.lor lo (Z.shiftl hi 8))
  | _ => Raise StructError
  end.

(** [t.split(sep)] for a one-character separator. *)
Fixpoint split_on (sep : Z) (t : text) : list text :=
  match t with
  | [] => [[]]
  | c :: t' =>
      if c =? sep then [] :: split_on sep t'
      else match split_on sep t' with
           | [] => [[c]]
           | l :: ls => (c :: l) :: ls
           end
  end.

(** [t.find(c)] for a one-character [c]: first index, or -1. *)
Fixpoint find_char (c : Z) (t : text) : Z :=
  match t with
  | [] => -1
  | x :: t' =>
      if x =? c then 0
      else let r := find_char c t' in if r <? 0 then -1 else r + 1
  end.

(** [t.lstrip(c)] for a one-character set. *)
Fixpoint lstrip_char (c : Z) (t : text) : text :=
  match t with
  | x :: t' => if x =? c then lstrip_char c t' else t
  | [] => []
  end.

(** [str.isspace] on one code point: the Unicode white space table. *)
Definition isspace (c : Z) : bool :=
  ((9 <=? c) && (c <=? 13)) || ((28 <=? c) && (c <=? 32))
  || (c =? 0x85) || (c =? 0xA0) || (c =? 0x1680)
  || ((0x2000 <=? c) && (c <=? 0x200A))
  || (c =? 0x2028) || (c =? 0x2029) || (c =? 0x202F) || (c =? 0x205F)
  || (c =? 0x3000).

Fixpoint lstrip (t : text) : text :=
  match t with
  | x :: t' => if isspace x then lstrip t' else t
  | [] => []
  end.

Definition rstrip (t : text) : text := reverse (lstrip (reverse t)).

(** [t.strip()] *)
Definition strip (t : text) : text := rstrip (lstrip t).

(** [pat in t] *)
Fixpoint starts_with (pat t : text) : bool :=
  match pat, t with
  | [], _ => true
  | p :: pat', c :: t' => (p =? c) && starts_with pat' t'
  | _ :: _, [] => false
  end.

Fixpoint contains (pat t : text) : bool :=
  starts_with pat t ||
  match t with
  | [] => false
  | _ :: t' => contains pat t'
  end.

(** The regular expression class [\d].  The texts of this program come
    out of [decode_ascii_replace], so their code points lie in 0..127 or
    are U+FFFD; on those the class is the ASCII digits. *)
Definition isdigit (c : Z) : bool := (48 <=? c) && (c <=? 57).

(** A string literal as a [str] value. *)
Definition str (s : string) : text :=
  map (fun a => Z.of_N (Ascii.N_of_ascii a)) (String.list_ascii_of_string s).

End Py.
Export Py.

#[export] Instance outcome_ret : MRet outcome := @Ok.
#[export] Instance outcome_bind : MBind outcome := fun A B k m => bind m k.

(** ** Packed-text codec: [decode_7bit] *)

(** The body of [for b in bytes_7]: one update of [(char8, chars)]. *)
Definition group_step (acc : Z * list Z) (b : Z) : Z * list Z :=
  let '(char8, chars) := acc in
  (Z.lor (Z.shiftr char8 1) (Z.shiftr (Z.land b 0x80) 0), chars ++ [Z.land b 0x7F]).

(** The list [chars] built from one slice [bytes_7]. *)
Definition group_chars (bytes_7 : list Z) : list Z :=
  let '(char8, chars) := fold_left group_step bytes_7 (0, []) in
  chars ++ [Z.shiftr char8 1].

(** [for c in chars]: appends to [result]; the flag tells that the
    [return] under [stop_at_null] was taken. *)
Fixpoint emit (stop_at_null : bool) (chars result : list Z) : list Z * bool :=
  match chars with
  | [] => (result, false)
  | c :: chars' =>
      if stop_at_null && (c =? 0) then (result, true)
      else emit stop_at_null chars' (result ++ [c])
  end.

(** [bytes(result).decode('ascii', errors='replace').replace('\r', '\n')] *)
Definition finish (result : list Z) : outcome text :=
  b ← bytes_of result; mret (replace_char 13 10 (decode_ascii_replace b)).

Fixpoint decode_loop (fuel : nat) (compressed_data : list Z) (stop_at_null : bool)
    (i : Z) (result : list Z) : outcome text :=
  if i + 6 <? len compressed_data then
    match fuel with
    | O => OutOfFuel
    | S fuel' =>
        let bytes_7 := slice compressed_data i (i + 7) in
        let chars := group_chars bytes_7 in
        match emit stop_at_null chars result with
        | (result', true) => finish result'
        | (result', false) =>
            decode_loop fuel' compressed_data stop_at_null (i + 7) result'
        end
    end
  else finish result.

(** Every iteration advances [i] by 7, so [len(compressed_data)]
    iterations are never used up (see [decode_7bit_total]). *)
Definition decode_7bit (compressed_data : list Z) (stop_at_null : bool) : outcome text :=
  decode_loop (length compressed_data) compressed_data stop_at_null 0 [].

(** *** The codec as the specification words it *)

(** Bit 7 of a byte, as 0 or 1. *)
Definition high_bit (b : Z) : Z := Z.b2z (Z.testbit b 7).

(** The eighth value of a group: bit [k] is the high bit of input byte [k]. *)
Fixpoint assemble_high (g : list Z) : Z :=
  match g with
  | [] => 0
  | b :: g' => high_bit b + 2 * assemble_high g'
  end.

Definition expand_group (g : list Z) : list Z :=
  map (fun b => b `mod` 128) g ++ [assemble_high g].

(** Consecutive full groups of 7; a shorter remainder is dropped. *)
Fixpoint groups_of_7 (d : list Z) : list (list Z) :=
  match d with
  | b0 :: b1 :: b2 :: b3 :: b4 :: b5 :: b6 :: rest =>
      [b0; b1; b2; b3; b4; b5; b6] :: groups_of_7 rest
  | _ => []
  end.

Definition cr_to_lf (t : text) : text := map (fun c => if c =? 13 then 10 else c) t.

Definition decode_fully_spec (d : list Z) : text :=
  cr_to_lf (concat (map expand_group (groups_of_7 d))).

(** ** Header parser: [read_msginfo] *)

Record msginfo : Type := MsgInfo {
  bitmap_blocks : Z;
  dir_blocks : Z;
  used_blocks : Z;
  msg_count : Z;
  new_msg_num : Z;
  bitmap_offset : Z;
  dir_offset : Z;
  data_offset : Z;
  max_dir_entries : Z
}.

Definition read_msginfo (data : list Z) : outcome (option msginfo) :=
  if len data <? 8 then mret None
  else
    d0 ← getitem data 0;
    d1 ← getitem data 1;
    used ← unpack_H (slice data 2 4);
    count ← unpack_H (slice data 4 6);
    new ← unpack_H (slice data 6 8);
    mret (Some {| bitmap_blocks := d0;
                  dir_blocks := d1;
                  used_blocks := used;
                  msg_count := count;
                  new_msg_num := new;
                  bitmap_offset := 8;
                  dir_offset := 8 + d0 * 128;
                  data_offset := 8 + d0 * 128 + d1 * 128;
                  max_dir_entries := (d1 * 128) / 4 |}).

(** ** Message-start detector: [is_message_start] *)

(** [re.match(r'^\d+,', line)] succeeds: a non-empty run of digits, then
    a comma, at the start of the line. *)
Fixpoint digits_then_comma (t : text) : bool :=
  match t with
  | c :: t' => if isdigit c then digits_then_comma t' else c =? 44
  | [] => false
  end.

Definition match_number_comma (line : text) : bool :=
  match line with
  | c :: t' => isdigit c && digits_then_comma t'
  | [] => false
  end.

Definition line_at (lines : list text) (i : nat) : text := default [] (lines !! i).

Definition is_message_start (decoded_text : text) : bool :=
  let lines := split_on 10 decoded_text in
  if len lines <? 4 then false
  else if negb (match_number_comma (line_at lines 1) && match_number_comma (line_at lines 2))
  then false
  else if negb (contains (str "Date") (line_at lines 3)
                && (contains (str ":") (line_at lines 3) || contains (str "->") (line_at lines 3)))
  then false
  else true.

(** ** Chain follower: [follow_chain_with_tracking] *)

(** The local variables of the function that live across iterations. *)
Record walk : Type := Walk {
  message_parts : list text;
  current_block : Z;
  visited : gset Z;
  blocks_used : gset Z;
  first_block : bool
}.

(** How one execution of the loop body ends. *)
Inductive step : Type :=
| Continue (w : walk)   (* falls through, or [continue] *)
| Break (w : walk).     (* [break] *)

Section Follow.
Variables (data : list Z) (total_blocks : Z) (stop_blocks : gset Z) (data_offset : Z).

Definition loop_condition (w : walk) : bool :=
  negb (current_block w =? 0) && negb (bool_decide (current_block w ∈ visited w)).

(** The handling of a self-referencing pointer (lines 447-457); [w] is
    the state after the block's text was appended. *)
Definition self_reference (w : walk) : outcome step :=
  let next_sequential := current_block w + 1 in
  if (next_sequential <=? total_blocks) && negb (bool_decide (next_sequential ∈ stop_blocks))
  then
    let next_seq_offset := data_offset + (next_sequential - 1) * 128 in
    if next_seq_offset + 128 <=? len data then
      let next_seq_data := slice data next_seq_offset (next_seq_offset + 126) in
      next_seq_decoded ← decode_7bit next_seq_data false;
      if negb (is_message_start next_seq_decoded) && (len (strip next_seq_decoded) >? 10)
      then mret (Continue (Walk (message_parts w) next_sequential (visited w)
                                (blocks_used w) (first_block w)))
      else mret (Break w)
    else mret (Break w)
  else mret (Break w).

Definition loop_body (w : walk) : outcome step :=
  let current := current_block w in
  if bool_decide (current ∈ stop_blocks) then mret (Break w)
  else
    let w1 := Walk (message_parts w) current ({[current]} ∪ visited w)
                   ({[current]} ∪ blocks_used w) (first_block w) in
    let block_offset := data_offset + (current - 1) * 128 in
    if (block_offset + 128 >? len data) || (current >? total_blocks) then mret (Break w1)
    else
      let block_data := slice data block_offset (block_offset + 126) in
      next_block ← unpack_H (slice data (block_offset + 126) (block_offset + 128));
      decoded ← decode_7bit block_data false;
      if negb (first_block w) && is_message_start decoded then mret (Break w1)
      else
        let decoded' := if negb (first_block w) then lstrip_char 0 decoded else decoded in
        let w2 := Walk (message_parts w ++ [decoded']) current (visited w1)
                       (blocks_used w1) false in
        if next_block =? 0 then mret (Break w2)
        else if next_block =? current then self_reference w2
        else if bool_decide (next_block ∈ visited w2) then mret (Break w2)
        else mret (Continue (Walk (message_parts w2) next_block (visited w2)
                                  (blocks_used w2) false)).

(** The [while] loop.  The block of each iteration is recorded by
    [iterations] below, which runs the same body. *)
Fixpoint run_loop (fuel : nat) (w : walk) : outcome walk :=
  if loop_condition w then
    match fuel with
    | O => OutOfFuel
    | S fuel' =>
        s ← loop_body w;
        match s with
        | Continue w' => run_loop fuel' w'
        | Break w' => mret w'
        end
    end
  else mret w.

(** The value of [current_block] at each execution of the loop body,
    in order. *)
Fixpoint iterations (fuel : nat) (w : walk) : list Z :=
  if loop_condition w then
    match fuel with
    | O => []
    | S fuel' =>
        current_block w ::
        match loop_body w with
        | Ok (Continue w') => iterations fuel' w'
        | _ => []
        end
    end
  else [].

Definition initial_walk (start_block : Z) : walk := Walk [] start_block ∅ ∅ true.

(** The lines after the loop. *)
Definition full_message (w : walk) : text :=
  let full := concat (message_parts w) in
  let null_pos := find_char 0 full in
  if null_pos >=? 0 then slice full 0 null_pos else full.

Definition follow_chain_fuel (fuel : nat) (start_block : Z) : outcome (text * gset Z) :=
  w ← run_loop fuel (initial_walk start_block);
  mret (full_message w, blocks_used w).
End Follow.

(** Fuel that the loop never uses up: it runs its body at most once per
    block of the data area and once more (see [follow_chain_returns]). *)
Definition walk_fuel (total_blocks : Z) : nat := S (S (Z.to_nat total_blocks)).

Definition follow_chain_with_tracking (data : list Z) (start_block total_blocks : Z)
    (stop_blocks : gset Z) (data_offset : Z) : outcome (text * gset Z) :=
  follow_chain_fuel data total_blocks stop_blocks data_offset (walk_fuel total_blocks) start_block.

(** ** Vocabulary for the properties of the chain follower *)

Section Blocks.
Variables (data : list Z) (total_blocks : Z) (stop_blocks : gset Z) (data_offset : Z).

Definition offset_of (b : Z) : Z := data_offset + (b - 1) * 128.

(** The 126 payload bytes of block [b], and their text decoded fully. *)
Definition payload (b : Z) : list Z := slice data (offset_of b) (offset_of b + 126).
Definition block_text (b : Z) : text := decode_fully_spec (payload b).

(** The next-pointer of block [b]. *)
Definition next_pointer (b : Z) : outcome Z :=
  unpack_H (slice data (offset_of b + 126) (offset_of b + 128)).

(** Block [b] passes the bounds check of the loop. *)
Definition in_range (b : Z) : bool :=
  negb ((offset_of b + 128 >? len data) || (b >? total_blocks)).

(** The three updates that the loop body makes to its variables. *)
Definition mark (w : walk) : walk :=
  Walk (message_parts w) (current_block w) ({[current_block w]} ∪ visited w)
       ({[current_block w]} ∪ blocks_used w) (first_block w).
Definition append_part (part : text) (w : walk) : walk :=
  Walk (message_parts w ++ [part]) (current_block w) (visited w) (blocks_used w) false.
Definition goto (b : Z) (w : walk) : walk :=
  Walk (message_parts w) b (visited w) (blocks_used w) (first_block w).

(** The part of a block that is appended to the message. *)
Definition part_of (w : walk) : text :=
  if first_block w then block_text (current_block w)
  else lstrip_char 0 (block_text (current_block w)).

(** The test that the code applies to the block after a self-reference. *)
Definition probe_accepts (b : Z) : bool :=
  (b <=? total_blocks) && negb (bool_decide (b ∈ stop_blocks))
  && (offset_of b + 128 <=? len data)
  && negb (is_message_start (block_text b)) && (len (strip (block_text b)) >? 10).

(** The ways in which one execution of the loop body ends. *)
Inductive body_rel (w : walk) : step -> Prop :=
| body_claimed :
    current_block w ∈ stop_blocks ->
    body_rel w (Break w)
| body_out_of_range :
    current_block w ∉ stop_blocks ->
    in_range (current_block w) = false ->
    body_rel w (Break (mark w))
| body_false_continuation :
    current_block w ∉ stop_blocks ->
    in_range (current_block w) = true ->
    first_block w = false ->
    is_message_start (block_text (current_block w)) = true ->
    body_rel w (Break (mark w))
| body_end_of_chain :
    current_block w ∉ stop_blocks ->
    in_range (current_block w) = true ->
    (negb (first_block w) && is_message_start (block_text (current_block w))) = false ->
    next_pointer (current_block w) = Ok 0 ->
    body_rel w (Break (append_part (part_of w) (mark w)))
| body_self_stop :
    current_block w ∉ stop_blocks ->
    in_range (current_block w) = true ->
    (negb (first_block w) && is_message_start (block_text (current_block w))) = false ->
    next_pointer (current_block w) = Ok (current_block w) ->
    probe_accepts (current_block w + 1) = false ->
    body_rel w (Break (append_part (part_of w) (mark w)))
| body_self_resume :
    current_block w ∉ stop_blocks ->
    in_range (current_block w) = true ->
    (negb (first_block w) && is_message_start (block_text (current_block w))) = false ->
    next_pointer (current_block w) = Ok (current_block w) ->
    probe_accepts (current_block w + 1) = true ->
    body_rel w (Continue (goto (current_block w + 1) (append_part (part_of w) (mark w))))
| body_cycle next :
    current_block w ∉ stop_blocks ->
    in_range (current_block w) = true ->
    (negb (first_block w) && is_message_start (block_text (current_block w))) = false ->
    next_pointer (current_block w) = Ok next ->
    next <> 0 -> next <> current_block w ->
    next ∈ visited (mark w) ->
    body_rel w (Break (append_part (part_of w) (mark w)))
| body_next next :
    current_block w ∉ stop_blocks ->
    in_range (current_block w) = true ->
    (negb (first_block w) && is_message_start (block_text (current_block w))) = false ->
    next_pointer (current_block w) = Ok next ->
    next <> 0 -> next <> current_block w ->
    next ∉ visited (mark w) ->
    body_rel w (Continue (goto next (append_part (part_of w) (mark w)))).

(** What holds of the variables whenever the loop tests its condition:
    the blocks visited so far are in range and unclaimed. *)
Definition walk_inv (w : walk) : Prop :=
  0 <= current_block w
  /\ visited w = blocks_used w
  /\ (forall b, b ∈ visited w -> (b ∉ stop_blocks) /\ 1 <= b <= total_blocks).

(** One step along a chain as the follower takes it: to the block that
    the next-pointer names, or from a block that names itself to the
    block after it. *)
Inductive link : Z -> Z -> Prop :=
| link_pointer b next :
    in_range b = true -> next_pointer b = Ok next -> link b next
| link_sequential b :
    in_range b = true -> next_pointer b = Ok b -> link b (b + 1).

(** One step along the next-pointers alone. *)
Definition points_to (b next : Z) : Prop :=
  in_range b = true /\ next_pointer b = Ok next.
End Blocks.

(** Code points below 128. *)
Definition seven_bit (c : Z) : Prop := 0 <= c < 128.

(** Characters that are not white space, counted. *)
Definition non_whitespace_count (t : text) : Z :=
  len (filter (fun c => isspace c = false) t).

(** ** Loops over a sequence *)

(** How one execution of a [for] body ends. *)
Inductive flow (S : Type) : Type :=
| Next (s : S)      (* end of the body, or [continue] *)
| Leave (s : S).    (* [break] *)
Arguments Next {S} s.
Arguments Leave {S} s.

Fixpoint for_each {A S : Type} (body : A -> S -> outcome (flow S)) (l : list A) (s : S)
    : outcome S :=
  match l with
  | [] => mret s
  | x :: l' =>
      r ← body x s;
      match r with
      | Next s' => for_each body l' s'
      | Leave s' => mret s'
      end
  end.

(** [l.sort(key=key)]: a stable sort, here by insertion. *)
Fixpoint insert_by {A} (key : A -> Z) (x : A) (l : list A) : list A :=
  match l with
  | [] => [x]
  | y :: l' => if key x <=? key y then x :: l else y :: insert_by key x l'
  end.

Definition sort_by {A} (key : A -> Z) (l : list A) : list A :=
  foldr (insert_by key) [] l.

(** ** Date extractor: [parse_date] *)

(** The two library calls of [parse_date].  A date is represented by its
    position on the time line, an integer. *)
Class DateLibrary : Type := {
  (** [re.search] with the pattern of the standard header
      ([Date : MM/DD/YY HH:MM:SS AM/PM]): the three groups of the match. *)
  search_standard : text -> option (text * text * text);
  (** [re.search] with the pattern of the alternate header ([Date ->...]). *)
  search_alternate : text -> option (text * text * text);
  (** [datetime.strptime(s, "%m/%d/%y %I:%M:%S %p")]; [None] when it raises. *)
  strptime : text -> option Z;
  (** [datetime.min] *)
  datetime_min : Z
}.

Section Scanners.
Context `{DateLibrary}.

Definition date_str (g : text * text * text) : text :=
  let '(g1, g2, g3) := g in g1 ++ str " " ++ g2 ++ str " " ++ g3.

Definition try_format (search : text -> option (text * text * text)) (t : text) : option Z :=
  match search t with
  | Some g => strptime (date_str g)
  | None => None
  end.

Definition parse_date (t : text) : option Z :=
  match try_format search_standard t with
  | Some d => Some d
  | None => try_format search_alternate t
  end.

(** [x['date'] if x['date'] else datetime.min] *)
Definition date_key (d : option Z) : Z := default datetime_min d.

(** ** Bulletin scanner: [scan_database_bulletin] *)

Record active_record : Type := ActiveRecord {
  a_entry : Z; a_block : Z; a_message : text; a_date : option Z }.
Record deleted_record : Type := DeletedRecord {
  d_block : Z; d_message : text; d_date : option Z }.
Record orphaned_record : Type := OrphanedRecord {
  o_block : Z; o_message : text }.

(** The variables of the three phases.  Next to each record the state
    keeps the [chain_blocks] returned by the walk that produced it (the
    program merges that set into [used_blocks] and drops it). *)
Record scan_state : Type := ScanState {
  st_used_blocks : gset Z;
  st_active : list (active_record * gset Z);
  st_deleted : list (deleted_record * gset Z);
  st_deleted_all_blocks : gset Z;
  st_orphaned : list (orphaned_record * gset Z)
}.

Definition initial_scan : scan_state := ScanState ∅ [] [] ∅ [].

Section Phases.
Variables (data : list Z) (info : msginfo) (total_blocks : Z).

(** PHASE 1, the body of [for entry_num in range(max_entries)]. *)
Definition phase1_body (entry_num : Z) (s : scan_state) : outcome (flow scan_state) :=
  let entry_offset := dir_offset info + entry_num * 4 in
  if entry_offset + 4 >? len data then mret (Leave s)
  else
    let entry := slice data entry_offset (entry_offset + 4) in
    if len entry <? 4 then mret (Leave s)
    else
      block_num ← unpack_H (slice entry 2 4);
      if block_num =? 0 then mret (Next s)
      else if block_num >? total_blocks then mret (Next s)
      else
        '(message, chain_blocks) ← follow_chain_with_tracking data block_num total_blocks
                                     (st_used_blocks s) (data_offset info);
        let date := parse_date message in
        mret (Next (ScanState (st_used_blocks s ∪ chain_blocks)
                      (st_active s ++ [(ActiveRecord entry_num block_num message date,
                                        chain_blocks)])
                      (st_deleted s) (st_deleted_all_blocks s) (st_orphaned s))).

(** [sum(1 for b in block_data if b != 0)] *)
Definition non_null_count (block_data : list Z) : Z :=
  len (filter (fun b => b <> 0) block_data).

(** PHASE 2, the body of [for block_num in sorted(unused_blocks)]. *)
Definition phase2_body (block_num : Z) (s : scan_state) : outcome (flow scan_state) :=
  if bool_decide (block_num ∈ st_used_blocks s) then mret (Next s)
  else
    let block_offset := data_offset info + (block_num - 1) * 128 in
    if block_offset + 128 >? len data then mret (Next s)
    else
      let block_data := slice data block_offset (block_offset + 126) in
      if non_null_count block_data <? 10 then mret (Next s)
      else
        decoded ← decode_7bit block_data true;
        if negb (is_message_start decoded) then mret (Next s)
        else
          '(message, chain_blocks) ← follow_chain_with_tracking data block_num total_blocks
                                       (st_used_blocks s) (data_offset info);
          let date := parse_date message in
          mret (Next (ScanState (st_used_blocks s ∪ chain_blocks)
                        (st_active s)
                        (st_deleted s ++ [(DeletedRecord block_num message date,
                                           chain_blocks)])
                        (st_deleted_all_blocks s ∪ chain_blocks)
                        (st_orphaned s))).

(** PHASE 3, the body of [for block_num in sorted(unused_blocks)]. *)
Definition phase3_body (block_num : Z) (s : scan_state) : outcome (flow scan_state) :=
  if bool_decide (block_num ∈ st_used_blocks s) then mret (Next s)
  else
    let block_offset := data_offset info + (block_num - 1) * 128 in
    if block_offset + 128 >? len data then mret (Next s)
    else
      let block_data := slice data block_offset (block_offset + 126) in
      if non_null_count block_data <? 10 then mret (Next s)
      else
        '(message, chain_blocks) ← follow_chain_with_tracking data block_num total_blocks
                                     (st_used_blocks s) (data_offset info);
        mret (Next (ScanState (st_used_blocks s ∪ chain_blocks)
                      (st_active s) (st_deleted s) (st_deleted_all_blocks s)
                      (st_orphaned s ++ [(OrphanedRecord block_num message,
                                          chain_blocks)]))).

(** [set(range(1, total_blocks + 1))] *)
Definition all_blocks : gset Z := list_to_set (range2 1 (total_blocks + 1)).

(** [sorted(all_blocks - used_blocks)] *)
Definition sorted_unused (used : gset Z) : list Z :=
  merge_sort Z.le (elements (all_blocks ∖ used)).

Definition phase1 (s : scan_state) : outcome scan_state :=
  for_each phase1_body (range (max_dir_entries info)) s.
Definition phase2 (s : scan_state) : outcome scan_state :=
  for_each phase2_body (sorted_unused (st_used_blocks s)) s.
Definition phase3 (s : scan_state) : outcome scan_state :=
  for_each phase3_body (sorted_unused (st_used_blocks s)) s.

Definition run_phases : outcome scan_state :=
  s1 ← phase1 initial_scan; s2 ← phase2 s1; phase3 s2.
End Phases.

(** The geometry computed at the top of both scanners. *)
Definition total_blocks_of (data : list Z) (info : msginfo) : Z :=
  let data_area_size := len data - data_offset info in
  data_area_size / 128.

(** The dictionary returned by [scan_database_bulletin].  The entry
    ['active_all_blocks'], which a separate traversal computes for the
    block map of [cmd_analyze], is left out; the sets of head blocks are
    the functions [allocated_blocks], [deleted_blocks] and
    [orphaned_blocks] of the lists. *)
Record bulletin_result : Type := BulletinResult {
  b_msginfo : msginfo;
  b_total_blocks : Z;
  b_deleted_all_blocks : gset Z;
  b_active_messages : list active_record;
  b_deleted_messages : list deleted_record;
  b_orphaned_messages : list orphaned_record
}.

Definition allocated_blocks (r : bulletin_result) : gset Z :=
  list_to_set (a_block <$> b_active_messages r).
Definition deleted_blocks (r : bulletin_result) : gset Z :=
  list_to_set (d_block <$> b_deleted_messages r).
Definition orphaned_blocks (r : bulletin_result) : gset Z :=
  list_to_set (o_block <$> b_orphaned_messages r).

(** The scan up to the end of PHASE 3, with the state of the phases. *)
Definition scan_bulletin_state (data : list Z) : outcome (option (msginfo * Z * scan_state)) :=
  msginfo ← read_msginfo data;
  match msginfo with
  | None => mret None
  | Some info =>
      let total_blocks := total_blocks_of data info in
      s ← run_phases data info total_blocks;
      mret (Some (info, total_blocks, s))
  end.

Definition scan_database_bulletin (data : list Z) : outcome (option bulletin_result) :=
  r ← scan_bulletin_state data;
  match r with
  | None => mret None
  | Some (info, total_blocks, s) =>
      mret (Some (BulletinResult info total_blocks (st_deleted_all_blocks s)
                    (fst <$> st_active s)
                    (sort_by (fun x => date_key (d_date x)) (fst <$> st_deleted s))
                    (fst <$> st_orphaned s)))
  end.

(** ** Email scanner: [scan_database_email] *)

Record user_info : Type := UserInfo { full_name : text; city_state : text }.

Record email_record : Type := EmailRecord {
  e_user_id : Z; e_user_info : option user_info; e_message : text; e_date : option Z }.

(** [users.get(user_id) if users else None] *)
Definition lookup_user (users : option (gmap Z user_info)) (user_id : Z) : option user_info :=
  match users with
  | Some u => if bool_decide (u = ∅) then None else u !! user_id
  | None => None
  end.

(** The body of [for msg in messages]. *)
Definition email_segment (user_id : Z) (info : option user_info) (msg : text)
    (all_messages : list email_record) : list email_record :=
  let msg := strip (remove_char 0 msg) in
  if len msg <? 20 then all_messages
  else all_messages ++ [EmailRecord user_id info msg (parse_date msg)].

(** [for msg in messages], from the list [all_messages] on. *)
Definition email_segments (user_id : Z) (info : option user_info) (messages : list text)
    (all_messages : list email_record) : list email_record :=
  fold_left (fun acc msg => email_segment user_id info msg acc) messages all_messages.

Section Email.
Variables (data : list Z) (users : option (gmap Z user_info))
          (info : msginfo) (total_blocks : Z).

(** The body of [for user_id in range(max_entries)]; the state is
    [(all_messages, used_blocks)]. *)
Definition email_body (user_id : Z) (s : list email_record * gset Z)
    : outcome (flow (list email_record * gset Z)) :=
  let '(all_messages, used) := s in
  let entry_offset := dir_offset info + user_id * 4 in
  if entry_offset + 4 >? len data then mret (Leave s)
  else
    let entry := slice data entry_offset (entry_offset + 4) in
    if len entry <? 4 then mret (Leave s)
    else
      block_num ← unpack_H (slice entry 2 4);
      if block_num =? 0 then mret (Next s)
      else
        let uinfo := lookup_user users user_id in
        '(chain_text, chain_blocks) ← follow_chain_with_tracking data block_num total_blocks
                                        ∅ (data_offset info);
        let messages := split_on 4 chain_text in
        mret (Next (email_segments user_id uinfo messages all_messages,
                    used ∪ chain_blocks)).
End Email.

Record email_result : Type := EmailResult {
  m_msginfo : msginfo;
  m_total_blocks : Z;
  m_allocated_blocks : gset Z;
  m_active_messages : list email_record
}.

Definition scan_database_email (data : list Z) (users : option (gmap Z user_info))
    : outcome (option email_result) :=
  msginfo ← read_msginfo data;
  match msginfo with
  | None => mret None
  | Some info =>
      let total_blocks := total_blocks_of data info in
      '(all_messages, used) ← for_each (email_body data users info total_blocks)
                                 (range (max_dir_entries info)) ([], ∅);
      mret (Some (EmailResult info total_blocks used
                    (sort_by (fun x => date_key (e_date x)) all_messages)))
  end.
End Scanners.

(** ** Vocabulary for the properties of the scanners *)

(** The block that directory slot [e] names. *)
Definition slot_block (data : list Z) (info : msginfo) (e : Z) : outcome Z :=
  let entry_offset := dir_offset info + e * 4 in
  unpack_H (slice (slice data entry_offset (entry_offset + 4)) 2 4).

(** Slot [e] lies in the file and names a block of the data area. *)
Definition populated (data : list Z) (info : msginfo) (total_blocks : Z) (e : Z) : bool :=
  (dir_offset info + e * 4 + 4 <=? len data)
  && match slot_block data info e with
     | Ok b => negb (b =? 0) && (b <=? total_blocks)
     | _ => false
     end.

(** No block belongs to two sets of the list. *)
Definition disjoint_chains (l : list (gset Z)) : Prop :=
  forall (i j : nat) (X Y : gset Z), l !! i = Some X -> l !! j = Some Y -> i <> j -> X ## Y.

Section Attribution.
Context `{DateLibrary}.

(** The blocks consumed in each phase. *)
Definition active_blocks (s : scan_state) : gset Z := ⋃ (snd <$> st_active s).
Definition deleted_chain_blocks (s : scan_state) : gset Z := ⋃ (snd <$> st_deleted s).
Definition orphaned_chain_blocks (s : scan_state) : gset Z := ⋃ (snd <$> st_orphaned s).

(** Every message of the scan with its head block and the blocks that
    its walk consumed. *)
Definition attributions (s : scan_state) : list (Z * gset Z) :=
  ((fun x => (a_block x.1, x.2)) <$> st_active s)
  ++ ((fun x => (d_block x.1, x.2)) <$> st_deleted s)
  ++ ((fun x => (o_block x.1, x.2)) <$> st_orphaned s).

(** What holds of the state of the scan after every step of a phase. *)
Definition scan_inv (data : list Z) (info : msginfo) (total_blocks : Z) (s : scan_state)
    : Prop :=
  st_used_blocks s = active_blocks s ∪ deleted_chain_blocks s ∪ orphaned_chain_blocks s
  /\ st_deleted_all_blocks s = deleted_chain_blocks s
  /\ active_blocks s ## deleted_chain_blocks s
  /\ active_blocks s ## orphaned_chain_blocks s
  /\ deleted_chain_blocks s ## orphaned_chain_blocks s
  /\ disjoint_chains (snd <$> st_active s)
  /\ disjoint_chains (snd <$> st_deleted s)
  /\ disjoint_chains (snd <$> st_orphaned s)
  /\ (forall h cb b, (h, cb) ∈ attributions s -> b ∈ cb ->
        rtc (link data total_blocks (data_offset info)) h b)
  /\ (forall x, x ∈ st_active s -> a_block x.1 ∈ active_blocks s)
  /\ (forall x, x ∈ st_deleted s -> d_block x.1 ∈ x.2)
  /\ (forall x, x ∈ st_orphaned s -> o_block x.1 ∈ x.2).

(** What holds of the records of PHASE 1: each comes from a populated
    slot, and its text and blocks are what the walk from the block of the
    slot returns, given the blocks that the records before it consumed. *)
Definition phase1_records (data : list Z) (info : msginfo) (total_blocks : Z)
    (active : list (active_record * gset Z)) : Prop :=
  forall (i : nat) (x : active_record * gset Z),
    active !! i = Some x ->
    populated data info total_blocks (a_entry x.1) = true
    /\ slot_block data info (a_entry x.1) = Ok (a_block x.1)
    /\ a_date x.1 = parse_date (a_message x.1)
    /\ follow_chain_with_tracking data (a_block x.1) total_blocks
         (⋃ (snd <$> take i active)) (data_offset info)
       = Ok (a_message x.1, x.2).
End Attribution.

(** What holds of every record of the email scan: it is long enough,
    holds no null byte, and is a segment of the text of the chain of its
    user, with the null bytes removed and the ends stripped. *)
Definition email_record_ok (data : list Z) (info : msginfo) (total_blocks : Z)
    (m : email_record) : Prop :=
  20 <= len (e_message m)
  /\ (0 ∉ e_message m)
  /\ exists block chain_text chain_blocks segment,
      slot_block data info (e_user_id m) = Ok block
      /\ follow_chain_with_tracking data block total_blocks ∅ (data_offset info)
         = Ok (chain_text, chain_blocks)
      /\ segment ∈ split_on 4 chain_text
      /\ e_message m = strip (remove_char 0 segment).

(** ** Stores for the examples *)

Module Fixture.

(** A date library that finds no date header. *)
#[export] Instance no_dates : DateLibrary :=
  {| search_standard := fun _ => None;
     search_alternate := fun _ => None;
     strptime := fun _ => None;
     datetime_min := 0 |}.

(** Eight 7-bit values packed into seven bytes: the bits of the eighth
    go to the high bits of the seven. *)
Definition pack_group (c : list Z) : list Z :=
  let c8 := default 0 (c !! 7%nat) in
  imap (fun k ch => Z.lor ch (Z.shiftl (Z.land (Z.shiftr c8 (Z.of_nat k)) 1) 7)) (take 7 c).

Fixpoint pack (groups : nat) (t : text) : list Z :=
  match groups with
  | O => []
  | S n => pack_group (take 8 t) ++ pack n (drop 8 t)
  end.

(** A 128-byte block: 126 bytes of packed text, padded with [pad], and
    the next-pointer. *)
Definition padded_block (pad : Z) (t : text) (next : Z) : list Z :=
  pack 18 (take 144 (t ++ replicate 144 pad)) ++ [next `mod` 256; next / 256].

Definition block (t : text) (next : Z) : list Z := padded_block 0 t next.

(** A directory entry referring to block [b]. *)
Definition dir_entry (b : Z) : list Z := [0; 0; b `mod` 256; b / 256].

(** A store with [bitmap] bitmap blocks, one directory block holding
    [entries], and the data blocks [blocks]. *)
Definition store (bitmap : Z) (entries : list Z) (blocks : list (list Z)) : list Z :=
  [bitmap; 1; 0; 0; 0; 0; 0; 0]
  ++ replicate (Z.to_nat (bitmap * 128)) 0
  ++ take 128 (concat (dir_entry <$> entries) ++ replicate 128 0)
  ++ concat blocks.

Definition header_text : text :=
  str "Subject" ++ [13] ++ str "1,Alice" ++ [13] ++ str "2,Bob" ++ [13]
  ++ str "Date : 01/02/20 03:04:05 PM" ++ [13] ++ str "Hello".

Definition body_text : text := str "This is the body of a message.".

(** Two characters that are not white space, 142 spaces between them. *)
Definition sparse_text : text := [97] ++ replicate 142 32 ++ [98].

(** One directory entry, a header block that links to a body block. *)
Definition two_blocks : list Z :=
  store 1 [1] [block header_text 2; block body_text 0].

(** One block whose next-pointer names block 2, which the store lacks. *)
Definition dangling : list Z := store 1 [1] [block body_text 2].

(** Block 1 names itself; block 2 holds ordinary text. *)
Definition self_reference_dense : list Z :=
  store 1 [1] [block body_text 1; block body_text 0].

(** Block 1 names itself; block 2 holds [sparse_text]. *)
Definition self_reference_sparse : list Z :=
  store 1 [1] [block body_text 1; block sparse_text 0].

(** Block 1 links to block 2, which looks like a message start and
    links to block 3, which holds four bytes of text. *)
Definition false_continuation : list Z :=
  store 1 [1] [block body_text 2; block header_text 3; block (str "tail") 0].

(** The variables of the walk over [false_continuation] from block 1
    when the loop body runs for the second time. *)
Definition second_step : walk := Walk [body_text] 2 {[1]} {[1]} false.

(** Two directory slots: the chain of the first runs over the block
    that the second names. *)
Definition shared_chain : list Z :=
  store 1 [1; 2] [block body_text 2; block body_text 0].

(** A message in the directory, a message start that the directory
    does not name, and a block of text that nothing names. *)
Definition three_kinds : list Z :=
  store 1 [1] [block body_text 0; block header_text 0; block body_text 0].

(** The header of the bulletin stores above, as [read_msginfo] reads it. *)
Definition bulletin_info : msginfo := MsgInfo 1 1 0 0 0 8 136 264 32.

(** A mailbox (the first byte is 4) whose user 0 has one block. *)
Definition mailbox : list Z :=
  store 4 [1] [block (str "MSG1" ++ [4] ++ str "MSG2") 0].

Definition mailbox_info : msginfo := MsgInfo 4 1 0 0 0 8 520 648 32.

(** A header of eight bytes, and nothing of the areas that it announces. *)
Definition header_only : list Z := [1; 1; 0; 0; 0; 0; 0; 0].

(** A boolean form of [is_bytes], to evaluate on a store. *)
Definition bytes_check (d : list Z) : bool :=
  forallb (fun b => (0 <=? b) && (b <? 256)) d.

End Fixture.

(** ** Further parts of the program *)

(** *** Text up to the first null byte *)

(** [t[:t.find('\x00')]] when [t] holds a null byte, [t] otherwise: what
    the last lines of [follow_chain_with_tracking] keep of the text, and
    what [decode_7bit] returns under [stop_at_null]. *)
Fixpoint until_null (t : text) : text :=
  match t with
  | [] => []
  | c :: t' => if c =? 0 then [] else c :: until_null t'
  end.

(** *** Format detection and dispatch: [detect_format], [scan_database] *)

Inductive format : Type := Email | Bulletin.

Definition detect_format (data : list Z) : outcome format :=
  d0 ← getitem data 0;
  mret (if d0 =? 0x04 then Email else Bulletin).

(** The dictionary that [scan_database] returns, by its ['format']. *)
Inductive scan_result : Type :=
| EmailScan (r : email_result)
| BulletinScan (r : bulletin_result).

Definition scan_database `{DateLibrary} (data : list Z) (users : option (gmap Z user_info))
    : outcome (option scan_result) :=
  fmt ← detect_format data;
  match fmt with
  | Email => r ← scan_database_email data users; mret (EmailScan <$> (r : option email_result))
  | Bulletin => r ← scan_database_bulletin data; mret (BulletinScan <$> (r : option bulletin_result))
  end.

(** *** User directory: [read_users_file] *)

(** [l.find(c, start)] on [bytes], for one byte [c]. *)
Definition find_from (c : Z) (start : Z) (l : list Z) : Z :=
  let start' := norm_index (len l) start in
  let r := find_char c (slice l start (len l)) in
  if r <? 0 then -1 else start' + r.

(** The body of the loop over the records, up to the [users[user_id] =
    ...] that it may reach: the entry of one record, if it gets one. *)
Definition users_record (record : list Z) : option user_info :=
  let first_line_end := find_char 0x0d record in
  if first_line_end <=? 0 then None
  else
    let second_start := first_line_end + 1 in
    let second_line_end := find_from 0x0d second_start record in
    if second_line_end <=? 0 then None
    else
      let full_name := strip (decode_ascii_replace (slice record second_start second_line_end)) in
      let third_start := second_line_end + 1 in
      let third_line_end := find_from 0x0d third_start record in
      let city_state :=
        if third_line_end >? 0
        then strip (decode_ascii_replace (slice record third_start third_line_end))
        else [] in
      if bool_decide (full_name = []) then None
      else Some (UserInfo full_name city_state).

(** [for user_id in range(num_records)], on the dictionary [users]. *)
Definition users_step (data : list Z) (users : gmap Z user_info) (user_id : Z)
    : gmap Z user_info :=
  let record_size := 128 in
  let offset := user_id * record_size in
  let record := slice data offset (offset + record_size) in
  match users_record record with
  | Some info => <[user_id := info]> users
  | None => users
  end.

Definition parse_users (data : list Z) : gmap Z user_info :=
  let record_size := 128 in
  let num_records := len data / record_size in
  fold_left (users_step data) (range num_records) ∅.

(** [read_users_file]; the argument is the content of the file, [None]
    when opening or reading it raises. *)
Definition read_users_file (content : option (list Z)) : gmap Z user_info :=
  match content with
  | Some data => parse_users data
  | None => ∅
  end.

(** *** The entry ['active_all_blocks'] of the bulletin result *)

(** The variables of the traversal of one Active message. *)
Record trail : Type := Trail {
  tr_all_blocks : gset Z;    (* active_all_blocks *)
  tr_visited : gset Z;       (* visited *)
  tr_next_block : Z          (* next_block *)
}.

Section ActiveAll.
Variables (data : list Z) (data_offset : Z).

(** [while next_block != 0 and next_block not in visited] *)
Fixpoint trail_loop (fuel : nat) (t : trail) : outcome trail :=
  if negb (tr_next_block t =? 0) && negb (bool_decide (tr_next_block t ∈ tr_visited t)) then
    match fuel with
    | O => OutOfFuel
    | S fuel' =>
        let next_block := tr_next_block t in
        let all_blocks := {[next_block]} ∪ tr_all_blocks t in
        let visited := {[next_block]} ∪ tr_visited t in
        let block_offset := data_offset + (next_block - 1) * 128 in
        if block_offset + 128 >? len data then mret (Trail all_blocks visited next_block)
        else
          next_block' ← unpack_H (slice data (block_offset + 126) (block_offset + 128));
          trail_loop fuel' (Trail all_blocks visited next_block')
    end
  else mret t.

(** The body of [for msg in active_messages], on [active_all_blocks]. *)
Definition trail_message (fuel : nat) (block : Z) (all_blocks : gset Z)
    : outcome (flow (gset Z)) :=
  let all_blocks := {[block]} ∪ all_blocks in
  let current := block in
  let visited : gset Z := {[current]} in
  let block_offset := data_offset + (current - 1) * 128 in
  if block_offset + 128 <=? len data then
    next_block ← unpack_H (slice data (block_offset + 126) (block_offset + 128));
    t ← trail_loop fuel (Trail all_blocks visited next_block);
    mret (Next (tr_all_blocks t))
  else mret (Next all_blocks).
End ActiveAll.

(** ['active_all_blocks'] for the Active records [active_messages].  The
    loop adds a fresh block number at each turn, and none after one that
    lies outside the file, so the fuel is never used up (see
    [trail_loop_returns]). *)
Definition active_all_blocks `{DateLibrary} (data : list Z) (info : msginfo)
    (active_messages : list active_record) : outcome (gset Z) :=
  for_each (trail_message data (data_offset info) (walk_fuel (total_blocks_of data info)))
    (a_block <$> active_messages) ∅.

(** One step along the next-pointer of a block that lies in the file. *)
Definition pointer_step (data : list Z) (data_offset : Z) (b next : Z) : Prop :=
  offset_of data_offset b + 128 <= len data
  /\ next_pointer data data_offset b = Ok next
  /\ next <> 0.

(** *** The block breakdown and the block map of [cmd_analyze] *)

(** The numbers that [cmd_analyze] prints under "Block breakdown" for a
    bulletin store. *)
Record breakdown : Type := Breakdown {
  active_header_count : Z;     (* len(active_header_blocks) *)
  active_chain_count : Z;      (* len(active_chain_blocks) *)
  deleted_header_count : Z;    (* len(deleted_header_blocks) *)
  deleted_chain_count : Z;     (* len(deleted_chain_blocks) *)
  orphaned_count : Z;          (* len(orphaned_blocks) *)
  unused_count : Z;            (* unused_blocks *)
  total_count : Z              (* result['total_blocks'] *)
}.

Section Analyze.
Variables (result : bulletin_result) (active_all_blocks : gset Z).

Definition active_header_blocks : gset Z := list_to_set (a_block <$> b_active_messages result).
Definition active_chain_blocks : gset Z := active_all_blocks ∖ active_header_blocks.
Definition deleted_header_blocks : gset Z :=
  list_to_set (d_block <$> b_deleted_messages result).
Definition deleted_chain_blocks_shown : gset Z :=
  b_deleted_all_blocks result ∖ deleted_header_blocks.
Definition all_used : gset Z :=
  active_all_blocks ∪ b_deleted_all_blocks result ∪ orphaned_blocks result.
Definition unused_blocks : Z := b_total_blocks result - Z.of_nat (size all_used).

Definition block_breakdown : breakdown :=
  Breakdown (Z.of_nat (size active_header_blocks))
            (Z.of_nat (size active_chain_blocks))
            (Z.of_nat (size deleted_header_blocks))
            (Z.of_nat (size deleted_chain_blocks_shown))
            (Z.of_nat (size (orphaned_blocks result)))
            unused_blocks
            (b_total_blocks result).

(** The marker of block [i] in the block map, as a code point. *)
Definition block_marker (i : Z) : Z :=
  if bool_decide (i ∈ active_header_blocks) then 72          (* 'H' *)
  else if bool_decide (i ∈ active_chain_blocks) then 67      (* 'C' *)
  else if bool_decide (i ∈ deleted_header_blocks) then 68    (* 'D' *)
  else if bool_decide (i ∈ deleted_chain_blocks_shown) then 100  (* 'd' *)
  else if bool_decide (i ∈ orphaned_blocks result) then 111  (* 'o' *)
  else 32.                                                   (* ' ' *)
End Analyze.

(** *** Vocabulary for the classification of blocks *)

(** The two tests of PHASE 2 on block [b]: at least ten payload bytes are
    not null, and the text decoded under [stop_at_null] looks like the
    start of a message. *)
Definition dense (data : list Z) (data_offset b : Z) : bool :=
  negb (non_null_count (payload data data_offset b) <? 10).

Definition passes_heuristic (data : list Z) (data_offset b : Z) : bool :=
  match decode_7bit (payload data data_offset b) true with
  | Ok decoded => is_message_start decoded
  | _ => false
  end.

(** *** Further stores for the examples *)

Module Samples.

(** Block 2 links to block 1, which names itself. *)
Definition self_reference_back : list Z :=
  Fixture.store 1 [2] [Fixture.block Fixture.body_text 1; Fixture.block Fixture.body_text 1].

(** A mailbox whose user 1 has one block with two messages. *)
Definition mailbox_two : list Z :=
  Fixture.store 4 [0; 1]
    [Fixture.block (str "First message, long enough." ++ [4]
                    ++ str "Second message, long enough.") 0].

(** A users file of two records: record 0 is unused, record 1 is
    that of Alice Smith. *)
Definition users_file : list Z :=
  replicate 128 0
  ++ take 128 (str "ALICE,SMITH" ++ [13] ++ str " Alice Smith " ++ [13]
               ++ str "Springfield, IL" ++ [13] ++ replicate 128 0).

(** [Fixture.false_continuation] with a third block full of text. *)
Definition false_continuation_dense : list Z :=
  Fixture.store 1 [1]
    [Fixture.block Fixture.body_text 2; Fixture.block Fixture.header_text 3;
     Fixture.block Fixture.body_text 0].

End Samples.

End Gbbs.
Export Gbbs.

(** * Properties *)

(** ** Sequences *)

Lemma len_nonneg {A} (l : list A) : 0 <= len l.
Proof. unfold len. lia. Qed.

Lemma len_app {A} (l1 l2 : list A) : len (l1 ++ l2) = len l1 + len l2.
Proof. unfold len. rewrite length_app. lia. Qed.

Lemma norm_index_in (n i : Z) : 0 <= i <= n -> norm_index n i = i.
Proof. intros Hi. unfold norm_index. destruct (Z.ltb_spec i 0); lia. Qed.

(** A slice with both bounds inside the sequence. *)
Lemma slice_inside {A} (l : list A) (a b : Z) :
  0 <= a <= b -> b <= len l ->
  slice l a b = take (Z.to_nat (b - a)) (drop (Z.to_nat a) l).
Proof.
  intros Ha Hb. unfold slice. rewrite !norm_index_in by lia. reflexivity.
Qed.

Lemma length_slice_inside {A} (l : list A) (a b : Z) :
  0 <= a <= b -> b <= len l -> len (slice l a b) = b - a.
Proof.
  intros Ha Hb. rewrite slice_inside by lia. unfold len in *.
  rewrite length_take, length_drop. lia.
Qed.

Lemma slice_middle {A} (pre g rest : list A) :
  slice (pre ++ g ++ rest) (len pre) (len pre + len g) = g.
Proof.
  rewrite slice_inside.
  - unfold len. rewrite Nat2Z.id.
    replace (Z.to_nat (_ + _ - _)) with (length g) by lia.
    rewrite drop_app_length. apply take_app_length.
  - pose proof (len_nonneg pre). pose proof (len_nonneg g). lia.
  - rewrite !len_app. pose proof (len_nonneg rest). lia.
Qed.

Lemma is_bytes_slice (d : list Z) (a b : Z) : is_bytes d -> is_bytes (slice d a b).
Proof.
  unfold is_bytes, slice. intros Hd.
  apply Forall_take, Forall_drop, Hd.
Qed.

(** ** Packed-text codec *)

Lemma land_0x80 (b : Z) : Z.land b 0x80 = if Z.testbit b 7 then 128 else 0.
Proof.
  apply Z.bits_inj'. intros n Hn. rewrite Z.land_spec.
  change 128 with (2 ^ 7) at 1. rewrite Z.pow2_bits_eqb by lia.
  destruct (Z.eqb_spec 7 n) as [<- | Hne].
  - rewrite andb_true_r. destruct (Z.testbit b 7); reflexivity.
  - rewrite andb_false_r. destruct (Z.testbit b 7).
    + change 128 with (2 ^ 7). rewrite Z.pow2_bits_eqb by lia.
      symmetry. apply Z.eqb_neq. exact Hne.
    + symmetry. apply Z.bits_0.
Qed.

Lemma land_0x7F (b : Z) : Z.land b 0x7F = b `mod` 128.
Proof. change 127 with (Z.ones 7). rewrite Z.land_ones by lia. reflexivity. Qed.

(** One group of seven: what the loop over [bytes_7] computes is what the
    specification describes. *)
Lemma group_chars_expand (b0 b1 b2 b3 b4 b5 b6 : Z) :
  group_chars [b0; b1; b2; b3; b4; b5; b6] = expand_group [b0; b1; b2; b3; b4; b5; b6].
Proof.
  unfold group_chars, expand_group, group_step.
  cbn [fold_left map app assemble_high]. unfold high_bit.
  rewrite !land_0x7F, !land_0x80, !Z.shiftr_0_r.
  generalize (Z.testbit b0 7), (Z.testbit b1 7), (Z.testbit b2 7), (Z.testbit b3 7),
    (Z.testbit b4 7), (Z.testbit b5 7), (Z.testbit b6 7).
  intros t0 t1 t2 t3 t4 t5 t6. do 7 f_equal.
  destruct t0, t1, t2, t3, t4, t5, t6; reflexivity.
Qed.

Lemma high_bit_range (b : Z) : 0 <= high_bit b <= 1.
Proof. unfold high_bit. destruct (Z.testbit b 7); simpl; lia. Qed.

Lemma assemble_high_range (g : list Z) : 0 <= assemble_high g < 2 ^ Z.of_nat (length g).
Proof.
  induction g as [| b g IH]; simpl assemble_high; simpl length.
  - simpl. lia.
  - pose proof (high_bit_range b). rewrite Nat2Z.inj_succ, Z.pow_succ_r by lia. lia.
Qed.

Lemma expand_group_seven_bit (g : list Z) :
  length g = 7%nat -> Forall seven_bit (expand_group g).
Proof.
  intros Hg. unfold expand_group. apply Forall_app. split.
  - apply Forall_map, Forall_forall. intros b _. unfold seven_bit. simpl.
    apply Z.mod_pos_bound. lia.
  - apply Forall_singleton. pose proof (assemble_high_range g) as Hr.
    rewrite Hg in Hr. unfold seven_bit. simpl in Hr. lia.
Qed.

Lemma groups_of_7_length (d : list Z) : Forall (fun g => length g = 7%nat) (groups_of_7 d).
Proof.
  induction d as [d IH] using (induction_ltof1 _ (@length Z)). unfold ltof in IH.
  destruct d as [| b0 [| b1 [| b2 [| b3 [| b4 [| b5 [| b6 rest]]]]]]];
    try (apply Forall_nil; exact I).
  simpl. apply Forall_cons. split; [reflexivity |]. apply IH. simpl. lia.
Qed.

Lemma expand_groups_seven_bit (d : list Z) :
  Forall seven_bit (concat (map expand_group (groups_of_7 d))).
Proof.
  apply Forall_concat, Forall_map.
  eapply Forall_impl; [apply groups_of_7_length |].
  intros g Hg. apply expand_group_seven_bit, Hg.
Qed.

Lemma emit_fully (chars result : list Z) : emit false chars result = (result ++ chars, false).
Proof.
  revert result. induction chars as [| c chars IH]; intros result; simpl.
  - rewrite app_nil_r. reflexivity.
  - rewrite IH, <- app_assoc. reflexivity.
Qed.

Lemma finish_seven_bit (result : list Z) :
  Forall seven_bit result -> finish result = Ok (cr_to_lf result).
Proof.
  intros Hr. unfold finish, bytes_of.
  assert (forallb (fun c => (0 <=? c) && (c <? 256)) result = true) as ->.
  { apply forallb_forall. intros c Hc. rewrite Forall_forall in Hr.
    apply list_elem_of_In, Hr in Hc. unfold seven_bit in Hc. lia. }
  cbn. f_equal. unfold replace_char, decode_ascii_replace, cr_to_lf.
  rewrite map_map. apply map_ext_in. intros c Hc. rewrite Forall_forall in Hr.
  apply list_elem_of_In, Hr in Hc. unfold seven_bit in Hc.
  destruct (Z.ltb_spec c 128); [reflexivity | lia].
Qed.

Lemma decode_loop_short (fuel : nat) (d : list Z) (stop_at_null : bool) (i : Z)
    (result : list Z) :
  len d <= i + 6 -> decode_loop fuel d stop_at_null i result = finish result.
Proof.
  intros Hd. destruct fuel; simpl;
    destruct (Z.ltb_spec (i + 6) (len d)); (lia || reflexivity).
Qed.

Lemma groups_of_7_short (d : list Z) : (length d < 7)%nat -> groups_of_7 d = [].
Proof.
  intros Hd.
  destruct d as [| b0 [| b1 [| b2 [| b3 [| b4 [| b5 [| b6 rest]]]]]]];
    try reflexivity.
  simpl in Hd. lia.
Qed.

(** The loop from position [len pre] on, in decode-fully mode. *)
Lemma decode_loop_fully (fuel : nat) :
  forall (pre rest result : list Z),
    (length rest <= fuel)%nat ->
    decode_loop fuel (pre ++ rest) false (len pre) result
    = finish (result ++ concat (map expand_group (groups_of_7 rest))).
Proof.
  induction fuel as [| fuel IH]; intros pre rest result Hfuel.
  - rewrite decode_loop_short, groups_of_7_short by (rewrite ?len_app; unfold len; lia).
    simpl. rewrite app_nil_r. reflexivity.
  - destruct (decide (length rest < 7)%nat) as [Hshort | Hlong].
    + rewrite decode_loop_short, groups_of_7_short by (rewrite ?len_app; unfold len; lia).
      simpl. rewrite app_nil_r. reflexivity.
    + destruct rest as [| b0 [| b1 [| b2 [| b3 [| b4 [| b5 [| b6 rest]]]]]]];
        try (simpl in Hlong; lia).
      cbn [decode_loop groups_of_7 map concat].
      assert ((len pre + 6 <? len (pre ++ b0 :: b1 :: b2 :: b3 :: b4 :: b5 :: b6 :: rest)) = true)
        as ->.
      { apply Z.ltb_lt. rewrite len_app. unfold len. simpl length. lia. }
      change (pre ++ b0 :: b1 :: b2 :: b3 :: b4 :: b5 :: b6 :: rest)
        with (pre ++ [b0; b1; b2; b3; b4; b5; b6] ++ rest).
      change (len pre + 7) with (len pre + len [b0; b1; b2; b3; b4; b5; b6]).
      rewrite slice_middle, group_chars_expand, emit_fully.
      replace (len pre + len [b0; b1; b2; b3; b4; b5; b6])
        with (len (pre ++ [b0; b1; b2; b3; b4; b5; b6])) by (rewrite len_app; reflexivity).
      rewrite (app_assoc pre). rewrite IH by (simpl in Hfuel; lia).
      rewrite <- app_assoc. reflexivity.
Qed.

Lemma emit_seven_bit (stop_at_null : bool) (chars result : list Z) :
  Forall seven_bit chars -> Forall seven_bit result ->
  Forall seven_bit (emit stop_at_null chars result).1.
Proof.
  revert result. induction chars as [| c chars IH]; intros result Hc Hr; simpl.
  - exact Hr.
  - apply Forall_cons in Hc. destruct Hc as [Hc Hcs].
    destruct (stop_at_null && (c =? 0)); simpl; [exact Hr |].
    apply IH; [exact Hcs |]. apply Forall_app. split; [exact Hr |].
    apply Forall_singleton, Hc.
Qed.

(** In either mode the loop ends in [finish] on a list of 7-bit values. *)
Lemma decode_loop_finishes (stop_at_null : bool) (fuel : nat) :
  forall (pre rest result : list Z),
    (length rest <= fuel)%nat -> Forall seven_bit result ->
    exists r, Forall seven_bit r
              /\ decode_loop fuel (pre ++ rest) stop_at_null (len pre) result = finish r.
Proof.
  induction fuel as [| fuel IH]; intros pre rest result Hfuel Hres.
  - exists result. split; [exact Hres |].
    apply decode_loop_short. rewrite len_app. unfold len. lia.
  - destruct (decide (length rest < 7)%nat) as [Hshort | Hlong].
    + exists result. split; [exact Hres |].
      apply decode_loop_short. rewrite len_app. unfold len. lia.
    + destruct rest as [| b0 [| b1 [| b2 [| b3 [| b4 [| b5 [| b6 rest]]]]]]];
        try (simpl in Hlong; lia).
      cbn [decode_loop].
      assert ((len pre + 6 <? len (pre ++ b0 :: b1 :: b2 :: b3 :: b4 :: b5 :: b6 :: rest)) = true)
        as ->.
      { apply Z.ltb_lt. rewrite len_app. unfold len. simpl length. lia. }
      change (pre ++ b0 :: b1 :: b2 :: b3 :: b4 :: b5 :: b6 :: rest)
        with (pre ++ [b0; b1; b2; b3; b4; b5; b6] ++ rest).
      change (len pre + 7) with (len pre + len [b0; b1; b2; b3; b4; b5; b6]).
      rewrite slice_middle, group_chars_expand.
      pose proof (emit_seven_bit stop_at_null (expand_group [b0; b1; b2; b3; b4; b5; b6])
                    result (expand_group_seven_bit [b0; b1; b2; b3; b4; b5; b6] eq_refl) Hres) as Hemit.
      destruct (emit stop_at_null _ result) as [result' [|]]; simpl in Hemit.
      * exists result'. split; [exact Hemit | reflexivity].
      * replace (len pre + len [b0; b1; b2; b3; b4; b5; b6])
          with (len (pre ++ [b0; b1; b2; b3; b4; b5; b6])) by (rewrite len_app; reflexivity).
        rewrite (app_assoc pre). apply IH; [simpl in Hfuel; lia | exact Hemit].
Qed.

Lemma cr_to_lf_seven_bit (t : text) : Forall seven_bit t -> Forall seven_bit (cr_to_lf t).
Proof.
  intros Ht. unfold cr_to_lf. apply Forall_map. eapply Forall_impl; [exact Ht |].
  intros c Hc. simpl. unfold seven_bit in *. destruct (Z.eqb_spec c 13); lia.
Qed.

(** The decoder returns a text, in either mode and for every input, and
    the text holds 7-bit code points only. *)
Lemma decode_7bit_total (d : list Z) (stop_at_null : bool) :
  exists t, decode_7bit d stop_at_null = Ok t /\ Forall seven_bit t.
Proof.
  unfold decode_7bit.
  destruct (decode_loop_finishes stop_at_null (length d) [] d [])
    as (r & Hr & Heq); [lia | apply Forall_nil; exact I |].
  change (decode_loop (length d) d stop_at_null 0 [] = finish r) in Heq.
  rewrite Heq. exists (cr_to_lf r).
  split; [apply finish_seven_bit, Hr | apply cr_to_lf_seven_bit, Hr].
Qed.

(** In decode-fully mode the loop computes the text of the specification. *)
Lemma decode_7bit_false (d : list Z) : decode_7bit d false = Ok (decode_fully_spec d).
Proof.
  unfold decode_7bit, decode_fully_spec.
  change (decode_loop (length d) d false 0 [])
    with (decode_loop (length d) ([] ++ d) false (len (@nil Z)) []).
  rewrite decode_loop_fully by lia. simpl app.
  apply finish_seven_bit, expand_groups_seven_bit.
Qed.

(** Bit [k] of the eighth value of a group is the high bit of its byte [k]. *)
Lemma assemble_high_bits (b0 b1 b2 b3 b4 b5 b6 : Z) (k : nat) :
  (k < 7)%nat ->
  Z.testbit (assemble_high [b0; b1; b2; b3; b4; b5; b6]) (Z.of_nat k)
  = Z.testbit (default 0 ([b0; b1; b2; b3; b4; b5; b6] !! k)) 7.
Proof.
  intros Hk. cbn [assemble_high]. unfold high_bit.
  destruct k as [| [| [| [| [| [| [| k]]]]]]]; try lia.
  all: cbv [lookup list_lookup default from_option id].
  all: generalize (Z.testbit b0 7), (Z.testbit b1 7), (Z.testbit b2 7), (Z.testbit b3 7),
    (Z.testbit b4 7), (Z.testbit b5 7), (Z.testbit b6 7).
  all: intros t0 t1 t2 t3 t4 t5 t6; destruct t0, t1, t2, t3, t4, t5, t6; reflexivity.
Qed.

(** A remainder of fewer than seven bytes adds no group. *)
Lemma groups_of_7_remainder (b0 b1 b2 b3 b4 b5 b6 : Z) (tail : list Z) :
  (length tail < 7)%nat ->
  groups_of_7 (b0 :: b1 :: b2 :: b3 :: b4 :: b5 :: b6 :: tail) = [[b0; b1; b2; b3; b4; b5; b6]].
Proof.
  intros Htail. cbn [groups_of_7]. rewrite groups_of_7_short by lia. reflexivity.
Qed.

(** C3.  In decode-fully mode the decoder returns, for every input, the
    text that the specification describes ([decode_fully_spec]): the full
    groups of seven bytes in order, each giving the seven low-7-bit values
    and then the value assembled from the seven high bits; a remainder of
    fewer than seven bytes gives nothing; every carriage return is a line
    feed in the output. *)
Theorem decode_7bit_fully (d : list Z) :
  decode_7bit d false = Ok (cr_to_lf (concat (map expand_group (groups_of_7 d))))
  /\ 13 ∉ cr_to_lf (concat (map expand_group (groups_of_7 d))).
Proof.
  split; [apply decode_7bit_false |].
  unfold cr_to_lf. intros Hin.
  apply list_elem_of_In, in_map_iff in Hin. destruct Hin as (c & Hc & _).
  destruct (Z.eqb_spec c 13); lia.
Qed.

(** Nine bytes: one group, whose eighth value takes bit 0 from the first
    byte and bit 6 from the seventh; the carriage return becomes a line
    feed and the last two bytes are dropped. *)
Example decode_fully_example :
  decode_7bit [0xC8; 0x69; 0x0D; 0x41; 0x42; 0x43; 0xC4; 0x45; 0x46] false
  = Ok [0x48; 0x69; 0x0A; 0x41; 0x42; 0x43; 0x44; 0x41].
Proof. vm_compute. reflexivity. Qed.

(** ** Chain follower: one execution of the loop body *)

Lemma unpack_H_two (buf : list Z) : length buf = 2%nat -> exists n, unpack_H buf = Ok n.
Proof.
  intros Hb. destruct buf as [| lo [| hi [| x buf]]]; simpl in Hb; try lia.
  eexists. reflexivity.
Qed.

Lemma lor_shiftl_8 (lo hi : Z) :
  0 <= lo < 256 -> Z.lor lo (Z.shiftl hi 8) = lo + hi * 256.
Proof.
  intros Hlo. rewrite Z.shiftl_mul_pow2 by lia. change (2 ^ 8) with 256.
  assert (Z.land lo (hi * 256) = 0) as Hdisjoint.
  { apply Z.bits_inj'. intros k Hk. rewrite Z.land_spec, Z.bits_0.
    destruct (Z.lt_ge_cases k 8).
    - change 256 with (2 ^ 8). rewrite Z.mul_pow2_bits_low by lia. apply andb_false_r.
    - destruct (Z.eq_dec lo 0) as [-> | Hne]; [rewrite Z.bits_0; reflexivity |].
      rewrite (Z.bits_above_log2 lo k); [reflexivity | lia |].
      apply Z.lt_le_trans with 8; [| lia].
      apply Z.log2_lt_pow2; simpl; lia. }
  rewrite <- Z.lxor_lor by exact Hdisjoint.
  symmetry. apply Z.add_nocarry_lxor, Hdisjoint.
Qed.

Lemma unpack_H_bytes (buf : list Z) (n : Z) :
  is_bytes buf -> unpack_H buf = Ok n -> 0 <= n < 65536.
Proof.
  intros Hb Hn. destruct buf as [| lo [| hi [| x buf]]]; simpl in Hn; try discriminate.
  injection Hn as <-.
  apply Forall_cons in Hb. destruct Hb as [Hlo Hb].
  apply Forall_cons in Hb. destruct Hb as [Hhi _]. unfold byte_ok in *.
  rewrite lor_shiftl_8 by exact Hlo. lia.
Qed.

Section Body.
Variables (data : list Z) (total_blocks : Z) (stop_blocks : gset Z) (data_offset : Z).
Hypothesis offset_nonneg : 0 <= data_offset.

Abbreviation loop_body := (loop_body data total_blocks stop_blocks data_offset).
Abbreviation self_reference := (self_reference data total_blocks stop_blocks data_offset).
Abbreviation in_range := (in_range data total_blocks data_offset).
Abbreviation next_pointer := (next_pointer data data_offset).
Abbreviation block_text := (block_text data data_offset).
Abbreviation probe_accepts := (probe_accepts data total_blocks stop_blocks data_offset).
Abbreviation body_rel := (body_rel data total_blocks stop_blocks data_offset).
Abbreviation part_of := (part_of data data_offset).

Lemma in_range_true (b : Z) :
  in_range b = true <-> offset_of data_offset b + 128 <= len data /\ b <= total_blocks.
Proof. unfold Gbbs.in_range. rewrite negb_true_iff, orb_false_iff. lia. Qed.

(** A block that is in the file has a next-pointer. *)
Lemma next_pointer_ok (b : Z) :
  0 < b -> offset_of data_offset b + 128 <= len data -> exists n, next_pointer b = Ok n.
Proof.
  intros Hb Hfile. apply unpack_H_two.
  assert (len (slice data (offset_of data_offset b + 126) (offset_of data_offset b + 128)) = 2)
    as Hlen.
  { unfold offset_of in *. rewrite length_slice_inside; lia. }
  unfold len in Hlen. lia.
Qed.

Lemma next_pointer_range (b n : Z) :
  is_bytes data -> next_pointer b = Ok n -> 0 <= n < 65536.
Proof. intros Hd. apply unpack_H_bytes, is_bytes_slice, Hd. Qed.

Lemma decode_payload (b : Z) :
  decode_7bit (payload data data_offset b) false = Ok (block_text b).
Proof. apply decode_7bit_false. Qed.

Lemma self_reference_eq (w : walk) :
  self_reference w
  = Ok (if probe_accepts (current_block w + 1)
        then Continue (goto (current_block w + 1) w) else Break w).
Proof.
  unfold Gbbs.self_reference, Gbbs.probe_accepts.
  change (data_offset + (current_block w + 1 - 1) * 128)
    with (offset_of data_offset (current_block w + 1)).
  destruct ((current_block w + 1 <=? total_blocks)
            && negb (bool_decide (current_block w + 1 ∈ stop_blocks))); [| reflexivity].
  cbn [andb].
  destruct (offset_of data_offset (current_block w + 1) + 128 <=? len data); [| reflexivity].
  cbn [andb].
  change (slice data _ _) with (payload data data_offset (current_block w + 1)).
  rewrite decode_payload. cbn.
  destruct (negb (is_message_start (block_text (current_block w + 1)))
            && (len (strip (block_text (current_block w + 1))) >? 10)); reflexivity.
Qed.

(** The loop body returns, and ends in one of the eight ways. *)
Lemma loop_body_spec (w : walk) :
  0 < current_block w -> exists s, loop_body w = Ok s /\ body_rel w s.
Proof.
  intros Hcur. unfold Gbbs.loop_body.
  destruct (bool_decide_reflect (current_block w ∈ stop_blocks)) as [Hstop | Hstop].
  { eexists. split; [reflexivity |]. apply body_claimed, Hstop. }
  change (data_offset + (current_block w - 1) * 128)
    with (offset_of data_offset (current_block w)).
  change (Walk (message_parts w) (current_block w) ({[current_block w]} ∪ visited w)
            ({[current_block w]} ∪ blocks_used w) (first_block w)) with (mark w).
  destruct (in_range (current_block w)) eqn:Hrange; unfold Gbbs.in_range in Hrange.
  2: { apply negb_false_iff in Hrange. rewrite Hrange.
       eexists. split; [reflexivity |]. apply body_out_of_range; [exact Hstop |].
       unfold Gbbs.in_range. rewrite Hrange. reflexivity. }
  pose proof Hrange as Hrange'. apply negb_true_iff in Hrange'. rewrite Hrange'.
  fold (in_range (current_block w)) in Hrange.
  destruct (next_pointer_ok (current_block w) Hcur) as [next Hnext].
  { apply in_range_true in Hrange. lia. }
  change (unpack_H _) with (next_pointer (current_block w)). rewrite Hnext.
  change (slice data _ _) with (payload data data_offset (current_block w)).
  rewrite decode_payload. cbn [mbind outcome_bind bind].
  destruct (negb (first_block w) && is_message_start (block_text (current_block w)))
    eqn:Hstart.
  { eexists. split; [reflexivity |].
    apply andb_true_iff in Hstart. destruct Hstart as [Hfirst Hstart].
    apply body_false_continuation; try assumption.
    apply negb_true_iff, Hfirst. }
  change (Walk (message_parts w ++ _) (current_block w) (visited (mark w))
            (blocks_used (mark w)) false)
    with (append_part (if negb (first_block w)
                       then lstrip_char 0 (block_text (current_block w))
                       else block_text (current_block w)) (mark w)).
  assert ((if negb (first_block w) then lstrip_char 0 (block_text (current_block w))
           else block_text (current_block w)) = part_of w) as ->.
  { unfold Gbbs.part_of. destruct (first_block w); reflexivity. }
  destruct (Z.eqb_spec next 0) as [-> | Hnz].
  { eexists. split; [reflexivity |]. apply body_end_of_chain; assumption. }
  destruct (Z.eqb_spec next (current_block w)) as [-> | Hself].
  { rewrite self_reference_eq. cbn [append_part mark current_block].
    destruct (probe_accepts (current_block w + 1)) eqn:Hprobe;
      (eexists; split; [reflexivity |]).
    - apply body_self_resume; assumption.
    - apply body_self_stop; assumption. }
  destruct (bool_decide_reflect (next ∈ visited (append_part (part_of w) (mark w))))
    as [Hvis | Hvis]; (eexists; split; [reflexivity |]).
  - eapply body_cycle; eassumption.
  - eapply body_next; eassumption.
Qed.
End Body.

(** ** Chain follower: the loop *)

Lemma size_blocks_bound (s : gset Z) (n : Z) :
  (forall b, b ∈ s -> 1 <= b <= n) -> (size s <= Z.to_nat n)%nat.
Proof.
  intros Hs.
  assert (s ⊆ list_to_set (seqZ 1 n)) as Hsub.
  { intros b Hb. apply elem_of_list_to_set, elem_of_seqZ. specialize (Hs b Hb). lia. }
  apply subseteq_size in Hsub.
  rewrite size_list_to_set in Hsub by apply NoDup_seqZ.
  rewrite length_seqZ in Hsub. exact Hsub.
Qed.

Lemma initial_walk_inv (total_blocks : Z) (stop_blocks : gset Z) (start_block : Z) :
  0 <= start_block -> walk_inv total_blocks stop_blocks (initial_walk start_block).
Proof.
  intros Hs. unfold walk_inv, initial_walk. cbn.
  split; [exact Hs |]. split; [reflexivity |]. intros b Hb. set_solver.
Qed.

Section Loop.
Variables (data : list Z) (total_blocks : Z) (stop_blocks : gset Z) (data_offset : Z).
Hypothesis data_bytes : is_bytes data.
Hypothesis offset_nonneg : 0 <= data_offset.

Abbreviation loop_body := (loop_body data total_blocks stop_blocks data_offset).
Abbreviation run_loop := (run_loop data total_blocks stop_blocks data_offset).
Abbreviation iterations := (iterations data total_blocks stop_blocks data_offset).
Abbreviation body_rel := (body_rel data total_blocks stop_blocks data_offset).
Abbreviation walk_inv := (walk_inv total_blocks stop_blocks).
Abbreviation in_range := (in_range data total_blocks data_offset).

Lemma loop_condition_true (w : walk) :
  loop_condition w = true <-> current_block w <> 0 /\ current_block w ∉ visited w.
Proof.
  unfold loop_condition. rewrite andb_true_iff, !negb_true_iff, bool_decide_eq_false.
  rewrite Z.eqb_neq. reflexivity.
Qed.

(** At the head of the loop the body returns. *)
Lemma loop_body_at_head (w : walk) :
  walk_inv w -> loop_condition w = true ->
  exists s, loop_body w = Ok s /\ body_rel w s.
Proof.
  intros (Hcur & _) Hcond. apply loop_condition_true in Hcond.
  apply loop_body_spec; [exact offset_nonneg | lia].
Qed.

(** A step that goes on consumed a fresh block that is in range and
    unclaimed, and keeps the invariant. *)
Lemma body_continue (w w' : walk) :
  walk_inv w -> loop_condition w = true -> body_rel w (Continue w') ->
  walk_inv w'
  /\ visited w' = {[current_block w]} ∪ visited w
  /\ (current_block w ∉ visited w)
  /\ (current_block w ∉ stop_blocks)
  /\ 1 <= current_block w <= total_blocks
  /\ link data total_blocks data_offset (current_block w) (current_block w').
Proof.
  intros (Hcur & Hsame & Hvis) Hcond Hrel.
  apply loop_condition_true in Hcond. destruct Hcond as [Hnz Hfresh].
  assert (forall next,
             current_block w ∉ stop_blocks -> in_range (current_block w) = true ->
             0 <= next ->
             Gbbs.walk_inv total_blocks stop_blocks
               (goto next (append_part (part_of data data_offset w) (mark w)))) as Hkeep.
  { intros next Hstop Hrange Hnext. unfold Gbbs.walk_inv. cbn.
    split; [exact Hnext |]. split; [rewrite Hsame; reflexivity |].
    intros b Hb. apply elem_of_union in Hb. destruct Hb as [Hb | Hb]; [| apply Hvis, Hb].
    apply elem_of_singleton in Hb. subst b. split; [exact Hstop |].
    apply (in_range_true data total_blocks data_offset) in Hrange. lia. }
  inversion Hrel as [| | | | | Hstop Hrange Hstart Hnext Hprobe
                     | | next Hstop Hrange Hstart Hnext Hnz' Hself Hnew]; subst w'.
  - split; [apply Hkeep; try assumption; lia |]. cbn.
    split; [reflexivity |]. split; [exact Hfresh |]. split; [exact Hstop |].
    split; [apply (in_range_true data total_blocks data_offset) in Hrange; lia |].
    apply link_sequential; assumption.
  - pose proof (next_pointer_range data data_offset _ _ data_bytes Hnext) as Hn.
    split; [apply Hkeep; try assumption; lia |]. cbn.
    split; [reflexivity |]. split; [exact Hfresh |]. split; [exact Hstop |].
    split; [apply (in_range_true data total_blocks data_offset) in Hrange; lia |].
    apply link_pointer; assumption.
Qed.

Lemma walk_inv_size (w : walk) : walk_inv w -> (size (visited w) <= Z.to_nat total_blocks)%nat.
Proof. intros (_ & _ & Hvis). apply size_blocks_bound. intros b Hb. apply Hvis, Hb. Qed.

(** With one unit of fuel for each block that is not yet visited, and one
    more, the loop returns. *)
Lemma run_loop_returns (fuel : nat) :
  forall w, walk_inv w ->
            (Z.to_nat total_blocks + 1 <= fuel + size (visited w))%nat ->
            exists w', run_loop fuel w = Ok w'.
Proof.
  induction fuel as [| fuel IH]; intros w Hinv Hfuel.
  - pose proof (walk_inv_size w Hinv). lia.
  - cbn [Gbbs.run_loop]. destruct (loop_condition w) eqn:Hcond; [| eexists; reflexivity].
    destruct (loop_body_at_head w Hinv Hcond) as (s & Hs & Hrel). rewrite Hs.
    cbn [mbind outcome_bind bind]. destruct s as [w' | w']; [| eexists; reflexivity].
    destruct (body_continue w w' Hinv Hcond Hrel) as (Hinv' & Hvis' & Hfresh & _).
    apply IH; [exact Hinv' |]. rewrite Hvis', size_union by set_solver.
    rewrite size_singleton. lia.
Qed.

(** More fuel does not change a result. *)
Lemma run_loop_more_fuel (fuel fuel' : nat) :
  forall w w', run_loop fuel w = Ok w' -> (fuel <= fuel')%nat -> run_loop fuel' w = Ok w'.
Proof.
  revert fuel'. induction fuel as [| fuel IH]; intros fuel' w w' Hrun Hle.
  - cbn [Gbbs.run_loop] in Hrun. destruct fuel'; cbn [Gbbs.run_loop];
      destruct (loop_condition w); (discriminate || exact Hrun).
  - destruct fuel' as [| fuel']; [lia |]. cbn [Gbbs.run_loop] in *.
    destruct (loop_condition w); [| exact Hrun].
    destruct (loop_body w) as [[w1 | w1] | |]; cbn [mbind outcome_bind bind] in *;
      try discriminate; [| exact Hrun].
    apply IH; [exact Hrun | lia].
Qed.

(** The rule for what holds when the loop is left. *)
Lemma run_loop_post (I Q : walk -> Prop) :
  (forall w, I w -> loop_condition w = false -> Q w) ->
  (forall w w', I w -> loop_condition w = true -> loop_body w = Ok (Continue w') -> I w') ->
  (forall w w', I w -> loop_condition w = true -> loop_body w = Ok (Break w') -> Q w') ->
  forall fuel w w', I w -> run_loop fuel w = Ok w' -> Q w'.
Proof.
  intros Hexit Hcont Hbreak. induction fuel as [| fuel IH]; intros w w' HI Hrun.
  - cbn [Gbbs.run_loop] in Hrun. destruct (loop_condition w) eqn:Hcond; [discriminate |].
    injection Hrun as <-. apply Hexit; assumption.
  - cbn [Gbbs.run_loop] in Hrun. destruct (loop_condition w) eqn:Hcond.
    + destruct (loop_body w) as [[w1 | w1] | |] eqn:Hbody;
        cbn [mbind outcome_bind bind] in Hrun; try discriminate.
      * eapply IH; [| exact Hrun]. eapply Hcont; eassumption.
      * injection Hrun as <-. eapply Hbreak; eassumption.
    + injection Hrun as <-. apply Hexit; assumption.
Qed.

(** The loop body runs on pairwise different blocks, none of them visited
    before, and at most once more than there are unvisited blocks. *)
Lemma iterations_distinct (fuel : nat) :
  forall w, walk_inv w ->
            NoDup (iterations fuel w)
            /\ (forall b, b ∈ iterations fuel w -> b ∉ visited w)
            /\ (length (iterations fuel w) + size (visited w) <= Z.to_nat total_blocks + 1)%nat.
Proof.
  induction fuel as [| fuel IH]; intros w Hinv; pose proof (walk_inv_size w Hinv) as Hsize.
  - cbn [Gbbs.iterations]. destruct (loop_condition w); cbn [length];
      (split; [apply NoDup_nil; exact I |]); (split; [| lia]); intros b Hb; inversion Hb.
  - cbn [Gbbs.iterations]. destruct (loop_condition w) eqn:Hcond.
    2: { cbn [length]. split; [apply NoDup_nil; exact I |]. split; [| lia].
         intros b Hb. inversion Hb. }
    pose proof Hcond as Hcond'. apply loop_condition_true in Hcond'.
    destruct Hcond' as [_ Hfresh].
    destruct (loop_body_at_head w Hinv Hcond) as (s & Hs & Hrel). rewrite Hs.
    destruct s as [w' | w'].
    + destruct (body_continue w w' Hinv Hcond Hrel) as (Hinv' & Hvis' & _).
      destruct (IH w' Hinv') as (Hnd & Hnew & Hlen). rewrite Hvis' in Hnew, Hlen.
      rewrite size_union, size_singleton in Hlen by set_solver.
      split; [| split].
      * apply NoDup_cons. split; [| exact Hnd]. intros Hin. apply Hnew in Hin. set_solver.
      * intros b Hb. apply elem_of_cons in Hb. destruct Hb as [-> | Hb]; [exact Hfresh |].
        apply Hnew in Hb. set_solver.
      * cbn [length]. lia.
    + split; [| split].
      * apply NoDup_singleton.
      * intros b Hb. apply list_elem_of_singleton in Hb. subst b. exact Hfresh.
      * cbn [length]. lia.
Qed.

(** The blocks on which the loop body runs are positive, and each but
    the last is in range and unclaimed: the walk goes on from no other
    block. *)
Lemma iterations_in_range (fuel : nat) :
  forall w, walk_inv w ->
            Forall (fun b => 1 <= b) (iterations fuel w)
            /\ (forall (i : nat) (b : Z),
                  iterations fuel w !! i = Some b ->
                  (S i < length (iterations fuel w))%nat ->
                  in_range b = true /\ (b ∉ stop_blocks)).
Proof.
  induction fuel as [| fuel IH]; intros w Hinv.
  - cbn [Gbbs.iterations]. destruct (loop_condition w);
      (split; [apply Forall_nil; exact I |]); intros i b Hi; rewrite lookup_nil in Hi;
      discriminate.
  - cbn [Gbbs.iterations]. destruct (loop_condition w) eqn:Hcond.
    2: { split; [apply Forall_nil; exact I |]. intros i b Hi. rewrite lookup_nil in Hi.
         discriminate. }
    pose proof Hcond as Hcond'. apply loop_condition_true in Hcond'.
    destruct Hcond' as [Hnz _].
    assert (1 <= current_block w) as Hpos by (destruct Hinv as (Hcur & _); lia).
    destruct (loop_body_at_head w Hinv Hcond) as (s & Hs & Hrel). rewrite Hs.
    destruct s as [w' | w'].
    + destruct (body_continue w w' Hinv Hcond Hrel) as (Hinv' & _ & _ & Hstop & _ & Hlink).
      destruct (IH w' Hinv') as (Hall & Hrest).
      split; [apply Forall_cons; split; assumption |].
      intros [| i] b Hi Hlast; cbn [lookup list_lookup length] in *.
      * injection Hi as <-. split; [| exact Hstop].
        inversion Hlink; assumption.
      * apply (Hrest i b Hi). lia.
    + split; [apply Forall_singleton, Hpos |].
      intros [| i] b Hi Hlast; cbn [length] in Hlast; lia.
Qed.

End Loop.

(** ** Chain follower: the whole walk *)

Section Walk.
Variables (data : list Z) (total_blocks : Z) (stop_blocks : gset Z) (data_offset : Z).
Hypothesis data_bytes : is_bytes data.
Hypothesis offset_nonneg : 0 <= data_offset.

Abbreviation loop_body := (loop_body data total_blocks stop_blocks data_offset).
Abbreviation run_loop := (run_loop data total_blocks stop_blocks data_offset).
Abbreviation iterations := (iterations data total_blocks stop_blocks data_offset).
Abbreviation body_rel := (body_rel data total_blocks stop_blocks data_offset).
Abbreviation walk_inv := (walk_inv total_blocks stop_blocks).
Abbreviation link := (link data total_blocks data_offset).
Abbreviation follow_chain_fuel := (follow_chain_fuel data total_blocks stop_blocks data_offset).

(** The blocks consumed by the loop are the blocks on which its body
    ran, but for a claimed block. *)
Lemma run_loop_blocks (fuel : nat) :
  forall w w', walk_inv w -> run_loop fuel w = Ok w' ->
    blocks_used w'
    = blocks_used w ∪ list_to_set (filter (fun b => b ∉ stop_blocks) (iterations fuel w)).
Proof.
  induction fuel as [| fuel IH]; intros w w' Hinv Hrun.
  - cbn [Gbbs.run_loop Gbbs.iterations] in *.
    destruct (loop_condition w); [discriminate |]. injection Hrun as <-.
    rewrite filter_nil. set_solver.
  - cbn [Gbbs.run_loop Gbbs.iterations] in *. destruct (loop_condition w) eqn:Hcond.
    2: { injection Hrun as <-. rewrite filter_nil. set_solver. }
    destruct (loop_body_at_head data total_blocks stop_blocks data_offset offset_nonneg
                w Hinv Hcond) as (s & Hs & Hrel).
    rewrite Hs in *. cbn [mbind outcome_bind bind] in Hrun. destruct s as [w1 | w1].
    + destruct (body_continue data total_blocks stop_blocks data_offset data_bytes
                  w w1 Hinv Hcond Hrel) as (Hinv1 & Hvis1 & _ & Hstop & _).
      rewrite (IH w1 w' Hinv1 Hrun).
      rewrite filter_cons_True by exact Hstop.
      destruct Hinv as (_ & Hsame & _). destruct Hinv1 as (_ & Hsame1 & _).
      rewrite <- Hsame1, Hvis1, Hsame. set_solver.
    + injection Hrun as <-.
      inversion Hrel; subst.
      all: first [ rewrite filter_cons_False by (intros Hn; apply Hn; assumption)
                 | rewrite filter_cons_True by assumption ].
      all: rewrite filter_nil; cbn; set_solver.
Qed.

(** The blocks consumed lie on the chain from the block where the walk
    began. *)
Lemma run_loop_linked (start : Z) (fuel : nat) (w w' : walk) :
  walk_inv w ->
  rtc link start (current_block w) ->
  (forall b, b ∈ blocks_used w -> rtc link start b) ->
  run_loop fuel w = Ok w' ->
  forall b, b ∈ blocks_used w' -> rtc link start b.
Proof.
  intros Hinv Hcur Hused Hrun.
  apply (run_loop_post data total_blocks stop_blocks data_offset
           (fun w => walk_inv w /\ rtc link start (current_block w)
                     /\ forall b, b ∈ blocks_used w -> rtc link start b)
           (fun w => forall b, b ∈ blocks_used w -> rtc link start b))
    with (fuel := fuel) (w := w); try assumption.
  - intros w0 (_ & _ & H0) _. exact H0.
  - intros w0 w1 (Hinv0 & Hcur0 & Hused0) Hcond Hbody.
    destruct (loop_body_at_head data total_blocks stop_blocks data_offset offset_nonneg
                w0 Hinv0 Hcond) as (s & Hs & Hrel).
    rewrite Hs in Hbody. injection Hbody as ->.
    destruct (body_continue data total_blocks stop_blocks data_offset data_bytes
                w0 w1 Hinv0 Hcond Hrel) as (Hinv1 & Hvis1 & _ & _ & _ & Hlink).
    split; [exact Hinv1 |]. split.
    + eapply rtc_r; eassumption.
    + intros b Hb. destruct Hinv0 as (_ & Hsame0 & _). destruct Hinv1 as (_ & Hsame1 & _).
      rewrite <- Hsame1, Hvis1, Hsame0 in Hb. apply elem_of_union in Hb.
      destruct Hb as [Hb | Hb]; [| apply Hused0, Hb].
      apply elem_of_singleton in Hb. subst b. exact Hcur0.
  - intros w0 w1 (Hinv0 & Hcur0 & Hused0) Hcond Hbody.
    destruct (loop_body_at_head data total_blocks stop_blocks data_offset offset_nonneg
                w0 Hinv0 Hcond) as (s & Hs & Hrel).
    rewrite Hs in Hbody. injection Hbody as ->.
    intros b Hb. inversion Hrel; subst; cbn in Hb;
      try (apply Hused0, Hb);
      (apply elem_of_union in Hb; destruct Hb as [Hb | Hb]; [| apply Hused0, Hb];
       apply elem_of_singleton in Hb; subst b; exact Hcur0).
  - split; [exact Hinv |]. split; assumption.
Qed.

(** The fuel of [follow_chain_with_tracking] is enough, and so is any
    amount above the number of blocks. *)
Lemma follow_chain_returns (start_block : Z) :
  0 <= start_block ->
  exists w, (forall fuel, (Z.to_nat total_blocks < fuel)%nat ->
                          run_loop fuel (initial_walk start_block) = Ok w).
Proof.
  intros Hstart.
  pose proof (initial_walk_inv total_blocks stop_blocks start_block Hstart) as Hinv.
  destruct (run_loop_returns data total_blocks stop_blocks data_offset data_bytes
              offset_nonneg (S (Z.to_nat total_blocks)) (initial_walk start_block) Hinv)
    as [w Hw]; [lia |].
  exists w. intros fuel Hfuel.
  eapply run_loop_more_fuel; [exact Hw | lia].
Qed.

(** What a caller may rely on. *)
Lemma follow_chain_spec (start_block : Z) :
  0 <= start_block ->
  exists message chain_blocks,
    follow_chain_with_tracking data start_block total_blocks stop_blocks data_offset
    = Ok (message, chain_blocks)
    /\ chain_blocks ## stop_blocks
    /\ (start_block <> 0 -> start_block ∉ stop_blocks -> start_block ∈ chain_blocks)
    /\ (start_block ∈ stop_blocks -> message = [] /\ chain_blocks = ∅)
    /\ (forall b, b ∈ chain_blocks -> rtc link start_block b).
Proof.
  intros Hstart.
  pose proof (initial_walk_inv total_blocks stop_blocks start_block Hstart) as Hinv.
  destruct (follow_chain_returns start_block Hstart) as [w Hw].
  specialize (Hw (walk_fuel total_blocks)). unfold walk_fuel in Hw.
  specialize (Hw ltac:(lia)).
  exists (full_message w), (blocks_used w).
  split. { unfold follow_chain_with_tracking, Gbbs.follow_chain_fuel, walk_fuel.
           rewrite Hw. reflexivity. }
  pose proof (run_loop_blocks _ _ _ Hinv Hw) as Hblocks.
  split; [| split; [| split]].
  - rewrite Hblocks. cbn. intros b Hb Hs.
    apply elem_of_union in Hb. destruct Hb as [Hb | Hb]; [set_solver |].
    apply elem_of_list_to_set, list_elem_of_filter in Hb. destruct Hb as [Hb _].
    apply Hb, Hs.
  - intros Hnz Hfree. rewrite Hblocks.
    cbn [Gbbs.iterations].
    assert (loop_condition (initial_walk start_block) = true) as ->.
    { apply loop_condition_true. cbn. split; [exact Hnz | set_solver]. }
    cbn [current_block initial_walk]. rewrite filter_cons_True by exact Hfree.
    set_solver.
  - intros Hclaimed. cbn [Gbbs.run_loop] in Hw.
    destruct (loop_condition (initial_walk start_block)) eqn:Hcond.
    + unfold Gbbs.loop_body in Hw. cbn [current_block initial_walk] in Hw.
      rewrite (bool_decide_eq_true_2 _ Hclaimed) in Hw. cbn in Hw.
      injection Hw as <-. split; reflexivity.
    + injection Hw as <-. split; reflexivity.
  - eapply run_loop_linked; [exact Hinv | apply rtc_refl | | exact Hw].
    cbn. intros b Hb. set_solver.
Qed.
End Walk.

Lemma bytes_check_sound (d : list Z) : Fixture.bytes_check d = true -> is_bytes d.
Proof.
  unfold Fixture.bytes_check, is_bytes. intros Hd. apply Forall_forall. intros b Hb.
  rewrite forallb_forall in Hd. apply list_elem_of_In, Hd in Hb. unfold byte_ok. lia.
Qed.

(** *** Termination and the number of iterations *)

(** When every element of a list but the last satisfies a test, at most
    one element fails it. *)
Lemma filter_all_but_last (P : Z -> bool) (l : list Z) :
  (forall (i : nat) (b : Z), l !! i = Some b -> (S i < length l)%nat -> P b = true) ->
  (length (filter (fun b => P b = false) l) <= 1)%nat.
Proof.
  induction l as [| x l IH]; intros Hl; [cbn; lia |].
  destruct l as [| y l].
  - destruct (P x) eqn:Hx.
    + rewrite filter_cons_False by congruence. cbn. lia.
    + rewrite filter_cons_True by exact Hx. cbn. lia.
  - rewrite filter_cons_False.
    + apply IH. intros i b Hi Hlast. apply (Hl (S i) b Hi). cbn [length] in *. lia.
    + rewrite (Hl 0%nat x eq_refl) by (cbn [length]; lia). discriminate.
Qed.

(** The blocks in range on which the loop body runs are at most
    [total_blocks]. *)
Lemma iterations_in_range_count (data : list Z) (total_blocks : Z) (stop_blocks : gset Z)
    (data_offset : Z) (fuel : nat) (w : walk) :
  is_bytes data -> 0 <= data_offset -> walk_inv total_blocks stop_blocks w ->
  (length (filter (fun b => in_range data total_blocks data_offset b = true)
             (iterations data total_blocks stop_blocks data_offset fuel w))
   <= Z.to_nat total_blocks)%nat.
Proof.
  intros Hdata Hoff Hinv.
  destruct (iterations_distinct data total_blocks stop_blocks data_offset Hdata Hoff fuel
              w Hinv) as (Hnd & _).
  destruct (iterations_in_range data total_blocks stop_blocks data_offset Hdata Hoff fuel
              w Hinv) as (Hpos & _).
  set (l := filter (fun b => in_range data total_blocks data_offset b = true)
              (iterations data total_blocks stop_blocks data_offset fuel w)).
  assert (NoDup l) as Hndl by apply NoDup_filter, Hnd.
  rewrite <- (size_list_to_set (C := gset Z) l Hndl).
  apply size_blocks_bound. intros b Hb.
  apply elem_of_list_to_set, list_elem_of_filter in Hb. destruct Hb as [Hrange Hb].
  rewrite Forall_forall in Hpos. specialize (Hpos b Hb).
  apply in_range_true in Hrange. lia.
Qed.

(** C2, as amended.  For every store, start block and claim set the walk
    returns, with the fuel of [follow_chain_with_tracking] and with any
    amount of fuel above the number of blocks; the loop body runs on
    pairwise different blocks, and at most [total_blocks + 1] times.
    Every block on which it runs but the last is in range and unclaimed;
    so it runs on at most [total_blocks] blocks in range and on at most
    one block out of range, and that one is the last: the walk stops on
    it. *)
Theorem follow_chain_terminates (data : list Z) (total_blocks : Z) (stop_blocks : gset Z)
    (data_offset start_block : Z) :
  is_bytes data -> 0 <= data_offset -> 0 <= start_block ->
  (exists r,
      follow_chain_with_tracking data start_block total_blocks stop_blocks data_offset = Ok r
      /\ forall fuel, (Z.to_nat total_blocks < fuel)%nat ->
           follow_chain_fuel data total_blocks stop_blocks data_offset fuel start_block = Ok r)
  /\ forall fuel,
       let blocks := iterations data total_blocks stop_blocks data_offset fuel
                       (initial_walk start_block) in
       NoDup blocks
       /\ (length blocks <= Z.to_nat total_blocks + 1)%nat
       /\ (forall (i : nat) (b : Z),
              blocks !! i = Some b -> (S i < length blocks)%nat ->
              in_range data total_blocks data_offset b = true /\ (b ∉ stop_blocks))
       /\ (forall (i : nat) (b : Z),
              blocks !! i = Some b -> in_range data total_blocks data_offset b = false ->
              length blocks = S i)
       /\ (length (filter (fun b => in_range data total_blocks data_offset b = true) blocks)
           <= Z.to_nat total_blocks)%nat
       /\ (length (filter (fun b => in_range data total_blocks data_offset b = false) blocks)
           <= 1)%nat.
Proof.
  intros Hdata Hoff Hstart. split.
  - destruct (follow_chain_returns data total_blocks stop_blocks data_offset Hdata Hoff
                start_block Hstart) as [w Hw].
    exists (full_message w, blocks_used w). split.
    + unfold follow_chain_with_tracking, follow_chain_fuel, walk_fuel.
      rewrite Hw by lia. reflexivity.
    + intros fuel Hfuel. unfold follow_chain_fuel. rewrite Hw by exact Hfuel. reflexivity.
  - intros fuel blocks.
    pose proof (initial_walk_inv total_blocks stop_blocks start_block Hstart) as Hinv.
    destruct (iterations_distinct data total_blocks stop_blocks data_offset Hdata Hoff fuel
                (initial_walk start_block) Hinv) as (Hnd & _ & Hlen).
    destruct (iterations_in_range data total_blocks stop_blocks data_offset Hdata Hoff fuel
                (initial_walk start_block) Hinv) as (_ & Hrange).
    fold blocks in Hnd, Hlen, Hrange.
    split; [exact Hnd |]. split; [lia |]. split; [exact Hrange |]. split; [| split].
    + intros i b Hi Hout. pose proof (lookup_lt_Some _ _ _ Hi) as Hlt.
      destruct (decide (S i < length blocks)%nat) as [Hmore | Hlast]; [| lia].
      destruct (Hrange i b Hi Hmore) as [Hin _]. congruence.
    + apply iterations_in_range_count; assumption.
    + apply (filter_all_but_last (in_range data total_blocks data_offset)).
      intros i b Hi Hmore. apply (Hrange i b Hi Hmore).
Qed.

Lemma follow_chain_terminates_witness :
  (exists r,
      follow_chain_with_tracking Fixture.dangling 1 1 ∅ 264 = Ok r
      /\ forall fuel, (Z.to_nat 1 < fuel)%nat ->
           follow_chain_fuel Fixture.dangling 1 ∅ 264 fuel 1 = Ok r)
  /\ forall fuel,
       let blocks := iterations Fixture.dangling 1 ∅ 264 fuel (initial_walk 1) in
       NoDup blocks
       /\ (length blocks <= Z.to_nat 1 + 1)%nat
       /\ (forall (i : nat) (b : Z),
              blocks !! i = Some b -> (S i < length blocks)%nat ->
              in_range Fixture.dangling 1 264 b = true /\ (b ∉ (∅ : gset Z)))
       /\ (forall (i : nat) (b : Z),
              blocks !! i = Some b -> in_range Fixture.dangling 1 264 b = false ->
              length blocks = S i)
       /\ (length (filter (fun b => in_range Fixture.dangling 1 264 b = true) blocks)
           <= Z.to_nat 1)%nat
       /\ (length (filter (fun b => in_range Fixture.dangling 1 264 b = false) blocks)
           <= 1)%nat.
Proof.
  apply (follow_chain_terminates Fixture.dangling 1 ∅ 264 1).
  - apply bytes_check_sound. vm_compute. reflexivity.
  - lia.
  - lia.
Defined.

(** C2, as stated, fails: in a store of one block whose next-pointer
    names block 2, the loop body runs twice, on blocks 1 and 2, which is
    more than the number of blocks. *)
Lemma dangling_pointer_second_iteration :
  (len Fixture.dangling - 264) / 128 = 1
  /\ iterations Fixture.dangling 1 ∅ 264 (walk_fuel 1) (initial_walk 1) = [1; 2]
  /\ ~ (len (iterations Fixture.dangling 1 ∅ 264 (walk_fuel 1) (initial_walk 1)) <= 1).
Proof.
  split; [vm_compute; reflexivity |].
  assert (iterations Fixture.dangling 1 ∅ 264 (walk_fuel 1) (initial_walk 1) = [1; 2]) as ->
    by (vm_compute; reflexivity).
  split; [reflexivity |]. unfold len. simpl. lia.
Qed.

(** *** Self-reference *)

Section SelfReference.
Variables (data : list Z) (total_blocks : Z) (stop_blocks : gset Z) (data_offset : Z).

(** Two results of the loop body that [body_rel] allows are the same
    when the block is unclaimed, in range, no false continuation, and
    names itself. *)
Lemma body_rel_self (w : walk) (s : step) :
  body_rel data total_blocks stop_blocks data_offset w s ->
  current_block w <> 0 ->
  current_block w ∉ stop_blocks ->
  in_range data total_blocks data_offset (current_block w) = true ->
  (negb (first_block w) && is_message_start (block_text data data_offset (current_block w)))
  = false ->
  next_pointer data data_offset (current_block w) = Ok (current_block w) ->
  s = if probe_accepts data total_blocks stop_blocks data_offset (current_block w + 1)
      then Continue (goto (current_block w + 1)
                       (append_part (part_of data data_offset w) (mark w)))
      else Break (append_part (part_of data data_offset w) (mark w)).
Proof.
  intros Hrel Hnz Hstop Hrange Hstart Hnext.
  inversion Hrel as [Hc | Hs Hr | Hs Hr Hf Hm | Hs Hr Hm Hn | Hs Hr Hm Hn Hp
                     | Hs Hr Hm Hn Hp | n Hs Hr Hm Hn Hn0 Hn1 Hv | n Hs Hr Hm Hn Hn0 Hn1 Hv];
    subst s.
  - contradiction.
  - congruence.
  - rewrite Hf, Hm in Hstart. discriminate.
  - rewrite Hnext in Hn. injection Hn as Hn. contradiction.
  - rewrite Hp. reflexivity.
  - rewrite Hp. reflexivity.
  - rewrite Hnext in Hn. injection Hn as Hn. congruence.
  - rewrite Hnext in Hn. injection Hn as Hn. congruence.
Qed.
End SelfReference.

(** One execution of the loop body adds to the parts of the message
    and to the blocks of the walk, and takes nothing away. *)
Lemma loop_body_extends (data : list Z) (total_blocks : Z) (stop_blocks : gset Z)
    (data_offset : Z) (w : walk) (s : step) :
  loop_body data total_blocks stop_blocks data_offset w = Ok s ->
  exists more,
    message_parts (match s with Continue w' | Break w' => w' end) = message_parts w ++ more
    /\ blocks_used w ⊆ blocks_used (match s with Continue w' | Break w' => w' end).
Proof.
  unfold loop_body.
  destruct (bool_decide (current_block w ∈ stop_blocks)).
  { intros [= <-]. exists []. rewrite app_nil_r. split; [reflexivity | set_solver]. }
  destruct ((data_offset + (current_block w - 1) * 128 + 128 >? len data)
            || (current_block w >? total_blocks)).
  { intros [= <-]. exists []. rewrite app_nil_r. cbn. split; [reflexivity | set_solver]. }
  destruct (unpack_H _) as [next | |]; cbn [mbind outcome_bind bind]; try discriminate.
  rewrite decode_7bit_false. cbn [mbind outcome_bind bind].
  destruct (negb (first_block w) && is_message_start _).
  { intros [= <-]. exists []. rewrite app_nil_r. cbn. split; [reflexivity | set_solver]. }
  destruct (next =? 0).
  { intros [= <-]. eexists. cbn. split; [reflexivity | set_solver]. }
  destruct (next =? current_block w).
  { rewrite self_reference_eq. destruct (probe_accepts _ _ _ _ _);
      intros [= <-]; eexists; cbn; (split; [reflexivity | set_solver]). }
  destruct (bool_decide _); intros [= <-]; eexists; cbn; (split; [reflexivity | set_solver]).
Qed.

Lemma run_loop_extends (data : list Z) (total_blocks : Z) (stop_blocks : gset Z)
    (data_offset : Z) (fuel : nat) :
  forall w w',
    run_loop data total_blocks stop_blocks data_offset fuel w = Ok w' ->
    exists more,
      message_parts w' = message_parts w ++ more /\ blocks_used w ⊆ blocks_used w'.
Proof.
  induction fuel as [| fuel IH]; intros w w' Hrun; cbn [run_loop] in Hrun.
  - destruct (loop_condition w); [discriminate |]. injection Hrun as <-.
    exists []. rewrite app_nil_r. split; [reflexivity | set_solver].
  - destruct (loop_condition w).
    2: { injection Hrun as <-. exists []. rewrite app_nil_r.
         split; [reflexivity | set_solver]. }
    destruct (loop_body data total_blocks stop_blocks data_offset w) as [s | |] eqn:Hbody;
      cbn [mbind outcome_bind bind] in Hrun; try discriminate.
    destruct (loop_body_extends _ _ _ _ _ _ Hbody) as (more1 & Hparts1 & Hused1).
    destruct s as [w1 | w1].
    + destruct (IH w1 w' Hrun) as (more2 & Hparts2 & Hused2).
      exists (more1 ++ more2). rewrite Hparts2, Hparts1, app_assoc.
      split; [reflexivity | set_solver].
    + injection Hrun as <-. exists more1. split; assumption.
Qed.

(** C5, as amended.  When the loop body runs on a block that is
    unclaimed, in range and no false continuation, and whose next-pointer
    is its own number, it appends the text of the block and probes the
    next block number: when [probe_accepts] holds of it (it is within the
    block count, unclaimed, inside the file, no message start, and more
    than 10 characters of its decoded text remain once the white space at
    both ends is stripped) that number becomes the current block, and
    otherwise the loop is left.  For the walk this means: when the probe
    fails the walk ends with this block; when it succeeds on a block that
    this walk has visited, the guard of the loop ends the walk; and when
    it succeeds on a block not yet visited the body runs next on that
    block and appends its text, so every result of the walk holds both
    blocks and both texts.  With enough fuel the walk returns. *)
Theorem self_reference_probe (data : list Z) (total_blocks : Z) (stop_blocks : gset Z)
    (data_offset : Z) (w : walk) :
  0 <= data_offset ->
  0 < current_block w ->
  current_block w ∉ stop_blocks ->
  in_range data total_blocks data_offset (current_block w) = true ->
  (negb (first_block w) && is_message_start (block_text data data_offset (current_block w)))
  = false ->
  next_pointer data data_offset (current_block w) = Ok (current_block w) ->
  let b := current_block w in
  let w2 := append_part (part_of data data_offset w) (mark w) in
  let probe := probe_accepts data total_blocks stop_blocks data_offset (b + 1) in
  loop_body data total_blocks stop_blocks data_offset w
  = Ok (if probe then Continue (goto (b + 1) w2) else Break w2)
  /\ (b ∉ visited w ->
      (probe = false ->
       forall fuel,
         run_loop data total_blocks stop_blocks data_offset (S fuel) w = Ok w2
         /\ iterations data total_blocks stop_blocks data_offset (S fuel) w = [b])
      /\ (probe = true -> b + 1 ∈ visited w ->
          forall fuel,
            run_loop data total_blocks stop_blocks data_offset (S fuel) w
            = Ok (goto (b + 1) w2)
            /\ iterations data total_blocks stop_blocks data_offset (S fuel) w = [b])
      /\ (probe = true -> b + 1 ∉ visited w ->
          forall fuel,
            (exists tail,
                iterations data total_blocks stop_blocks data_offset (S (S fuel)) w
                = b :: (b + 1) :: tail)
            /\ forall w',
                run_loop data total_blocks stop_blocks data_offset (S (S fuel)) w = Ok w' ->
                (exists more,
                    message_parts w'
                    = message_parts w
                      ++ [part_of data data_offset w;
                          lstrip_char 0 (block_text data data_offset (b + 1))]
                      ++ more)
                /\ {[b; b + 1]} ⊆ blocks_used w'))
  /\ (is_bytes data -> walk_inv total_blocks stop_blocks w ->
      forall fuel, (Z.to_nat total_blocks + 1 <= fuel + size (visited w))%nat ->
                   exists w', run_loop data total_blocks stop_blocks data_offset fuel w = Ok w').
Proof.
  intros Hoff Hcur Hstop Hrange Hstart Hnext b w2 probe.
  assert (loop_body data total_blocks stop_blocks data_offset w
          = Ok (if probe then Continue (goto (b + 1) w2) else Break w2)) as Hbody.
  { destruct (loop_body_spec data total_blocks stop_blocks data_offset Hoff w Hcur)
      as (s & Hs & Hrel).
    rewrite Hs. f_equal.
    apply (body_rel_self data total_blocks stop_blocks data_offset w s); try assumption. lia. }
  split; [exact Hbody |]. split.
  2: { intros Hdata Hinv fuel Hfuel.
       apply (run_loop_returns data total_blocks stop_blocks data_offset Hdata Hoff fuel w
                Hinv Hfuel). }
  intros Hfresh.
  assert (loop_condition w = true) as Hcond.
  { apply loop_condition_true. split; [fold b; lia | exact Hfresh]. }
  split; [| split].
  - intros Hprobe fuel. cbn [run_loop iterations]. rewrite Hcond, Hbody, Hprobe.
    split; reflexivity.
  - intros Hprobe Hseen fuel. cbn [run_loop iterations]. rewrite Hcond, Hbody, Hprobe.
    cbn [mbind outcome_bind bind].
    assert (loop_condition (goto (b + 1) w2) = false) as Hend.
    { apply not_true_is_false. intros Hc. apply loop_condition_true in Hc.
      destruct Hc as [_ Hc]. apply Hc. cbn. set_solver. }
    destruct fuel; cbn [run_loop iterations]; rewrite Hend; split; reflexivity.
  - intros Hprobe Hnew fuel.
    set (w3 := goto (b + 1) w2).
    assert (loop_condition w3 = true) as Hcond3.
    { apply loop_condition_true. subst w3 w2. cbn. split; [lia |].
      fold b. intros Hin. apply elem_of_union in Hin. destruct Hin as [Hin | Hin];
        [apply elem_of_singleton in Hin; lia | exact (Hnew Hin)]. }
    pose proof Hprobe as Hprobe'.
    unfold probe, probe_accepts in Hprobe.
    repeat (apply andb_true_iff in Hprobe; destruct Hprobe as [Hprobe ?]).
    assert (in_range data total_blocks data_offset (b + 1) = true) as Hrange3.
    { apply in_range_true. split; lia. }
    assert (b + 1 ∉ stop_blocks) as Hstop3.
    { match goal with H : negb (bool_decide _) = true |- _ =>
        apply negb_true_iff, bool_decide_eq_false in H; exact H end. }
    assert (is_message_start (block_text data data_offset (b + 1)) = false) as Hstart3.
    { match goal with H : negb (is_message_start _) = true |- _ =>
        apply negb_true_iff in H; exact H end. }
    destruct (loop_body_spec data total_blocks stop_blocks data_offset Hoff w3
                ltac:(subst w3; cbn; lia)) as (s3 & Hs3 & Hrel3).
    assert (exists w4,
               (s3 = Continue w4 \/ s3 = Break w4)
               /\ message_parts w4
                  = message_parts w
                    ++ [part_of data data_offset w;
                        lstrip_char 0 (block_text data data_offset (b + 1))]
               /\ {[b; b + 1]} ⊆ blocks_used w4) as (w4 & Hs4 & Hparts4 & Hused4).
    { assert (part_of data data_offset w3
              = lstrip_char 0 (block_text data data_offset (b + 1))) as Hpart by reflexivity.
      assert (message_parts (append_part (part_of data data_offset w3) (mark w3))
              = message_parts w
                ++ [part_of data data_offset w;
                    lstrip_char 0 (block_text data data_offset (b + 1))]) as Hp.
      { rewrite Hpart. subst w3 w2. cbn. rewrite <- app_assoc. reflexivity. }
      assert ({[b; b + 1]} ⊆ blocks_used (append_part (part_of data data_offset w3) (mark w3)))
        as Hu.
      { subst w3 w2. cbn. fold b. set_solver. }
      inversion Hrel3 as [Hc | Hs Hr | Hs Hr Hf Hm | | | | |]; subst s3.
      - exfalso. exact (Hstop3 Hc).
      - exfalso. cbn [w3 goto current_block] in Hr. congruence.
      - exfalso. cbn [w3 goto current_block] in Hm. congruence.
      - eexists. split; [right; reflexivity |]. split; assumption.
      - eexists. split; [right; reflexivity |]. split; assumption.
      - eexists. split; [left; reflexivity |]. cbn [goto message_parts blocks_used].
        split; assumption.
      - eexists. split; [right; reflexivity |]. split; assumption.
      - eexists. split; [left; reflexivity |]. cbn [goto message_parts blocks_used].
        split; assumption. }
    split.
    + cbn [iterations]. rewrite Hcond, Hbody, Hprobe'. fold w3. rewrite Hcond3.
      eexists. reflexivity.
    + intros w' Hrun. cbn [run_loop] in Hrun. rewrite Hcond, Hbody, Hprobe' in Hrun.
      cbn [mbind outcome_bind bind] in Hrun. fold w3 in Hrun. rewrite Hcond3, Hs3 in Hrun.
      cbn [mbind outcome_bind bind] in Hrun.
      destruct Hs4 as [-> | ->].
      * destruct (run_loop_extends _ _ _ _ _ _ _ Hrun) as (more & Hparts & Hused).
        split; [exists more; rewrite Hparts, Hparts4, <- app_assoc; reflexivity | set_solver].
      * injection Hrun as <-. split; [exists []; rewrite app_nil_r; exact Hparts4 | exact Hused4].
Qed.

Lemma self_reference_probe_witness :
  let data := Fixture.self_reference_dense in
  let w := initial_walk 1 in
  let b := current_block w in
  let w2 := append_part (part_of data 264 w) (mark w) in
  let probe := probe_accepts data 2 ∅ 264 (b + 1) in
  probe = true
  /\ loop_body data 2 ∅ 264 w = Ok (if probe then Continue (goto (b + 1) w2) else Break w2)
  /\ (b ∉ visited w ->
      (probe = false ->
       forall fuel,
         run_loop data 2 ∅ 264 (S fuel) w = Ok w2
         /\ iterations data 2 ∅ 264 (S fuel) w = [b])
      /\ (probe = true -> b + 1 ∈ visited w ->
          forall fuel,
            run_loop data 2 ∅ 264 (S fuel) w = Ok (goto (b + 1) w2)
            /\ iterations data 2 ∅ 264 (S fuel) w = [b])
      /\ (probe = true -> b + 1 ∉ visited w ->
          forall fuel,
            (exists tail, iterations data 2 ∅ 264 (S (S fuel)) w = b :: (b + 1) :: tail)
            /\ forall w',
                run_loop data 2 ∅ 264 (S (S fuel)) w = Ok w' ->
                (exists more,
                    message_parts w'
                    = message_parts w
                      ++ [part_of data 264 w; lstrip_char 0 (block_text data 264 (b + 1))]
                      ++ more)
                /\ {[b; b + 1]} ⊆ blocks_used w'))
  /\ (is_bytes data -> walk_inv 2 ∅ w ->
      forall fuel, (Z.to_nat 2 + 1 <= fuel + size (visited w))%nat ->
                   exists w', run_loop data 2 ∅ 264 fuel w = Ok w').
Proof.
  intros data w b w2 probe.
  split; [vm_compute; reflexivity |].
  apply (self_reference_probe Fixture.self_reference_dense 2 ∅ 264 (initial_walk 1)).
  - lia.
  - simpl. lia.
  - simpl. set_solver.
  - vm_compute. reflexivity.
  - reflexivity.
  - vm_compute. reflexivity.
Defined.

(** In [Samples.self_reference_back] the walk from block 2 goes to block
    1, which names itself; the probe accepts block 2, which this walk
    has visited, and the guard of the loop ends the walk: the body runs
    on blocks 2 and 1 and not again. *)
Example self_reference_back_walk :
  probe_accepts Samples.self_reference_back 2 ∅ 264 2 = true
  /\ iterations Samples.self_reference_back 2 ∅ 264 (walk_fuel 2) (initial_walk 2) = [2; 1]
  /\ exists message,
       follow_chain_with_tracking Samples.self_reference_back 2 2 ∅ 264
       = Ok (message, {[1; 2]}).
Proof.
  split; [vm_compute; reflexivity |]. split; [vm_compute; reflexivity |].
  eexists. vm_compute. reflexivity.
Qed.

(** C5, as stated, fails: block 1 names itself and the text of block 2
    has two characters that are not white space, so by the claim the walk
    stops; the code goes on to block 2, whose stripped text is 144
    characters long. *)
Lemma sparse_block_resumed :
  next_pointer Fixture.self_reference_sparse 264 1 = Ok 1
  /\ non_whitespace_count (block_text Fixture.self_reference_sparse 264 2) = 2
  /\ len (strip (block_text Fixture.self_reference_sparse 264 2)) = 144
  /\ (exists w', loop_body Fixture.self_reference_sparse 2 ∅ 264 (initial_walk 1)
                 = Ok (Continue w')
                 /\ current_block w' = 2)
  /\ (exists message,
         follow_chain_with_tracking Fixture.self_reference_sparse 1 2 ∅ 264
         = Ok (message, {[1; 2]})).
Proof.
  split; [vm_compute; reflexivity |].
  split; [vm_compute; reflexivity |].
  split; [vm_compute; reflexivity |].
  split.
  - eexists. split; [vm_compute; reflexivity | reflexivity].
  - eexists. vm_compute. reflexivity.
Qed.

(** *** No exception leaves the codec or the follower *)

(** C8.  The decoder returns a text for every input and in either mode,
    and the text holds 7-bit code points only, so that nothing is left
    for the replacement marker; the chain follower returns a text and a
    set of blocks for every store, start block, block count and claim
    set: a block out of range, a truncated block, a cycle or a
    self-reference ends the walk and raises nothing. *)
Theorem codec_and_follower_total (compressed_data : list Z) (stop_at_null : bool)
    (data : list Z) (start_block total_blocks : Z) (stop_blocks : gset Z) (data_offset : Z) :
  is_bytes data -> 0 <= data_offset -> 0 <= start_block ->
  (exists t, decode_7bit compressed_data stop_at_null = Ok t /\ Forall seven_bit t)
  /\ (exists message chain_blocks,
         follow_chain_with_tracking data start_block total_blocks stop_blocks data_offset
         = Ok (message, chain_blocks)).
Proof.
  intros Hdata Hoff Hstart. split.
  - apply decode_7bit_total.
  - destruct (follow_chain_spec data total_blocks stop_blocks data_offset Hdata Hoff
                start_block Hstart) as (message & chain_blocks & Hrun & _).
    exists message, chain_blocks. exact Hrun.
Qed.

Lemma codec_and_follower_total_witness :
  (exists t, decode_7bit [200; 13; 255] true = Ok t /\ Forall seven_bit t)
  /\ (exists message chain_blocks,
         follow_chain_with_tracking Fixture.dangling 1 1 ∅ 264 = Ok (message, chain_blocks)).
Proof.
  apply (codec_and_follower_total [200; 13; 255] true Fixture.dangling 1 1 ∅ 264).
  - apply bytes_check_sound. vm_compute. reflexivity.
  - lia.
  - lia.
Defined.

(** The two bounds of the theorem are those of the callers, which pass
    block numbers and an offset read from the header; a negative offset
    can make the slice of the next-pointer empty. *)
Example negative_offset_raises :
  follow_chain_with_tracking [0; 0; 0] 1 1 ∅ (-127) = Raise StructError.
Proof. vm_compute. reflexivity. Qed.

(** The walk over the one block of [Fixture.dangling]: the text of
    block 1, and both blocks consumed. *)
Example dangling_walk :
  follow_chain_with_tracking Fixture.dangling 1 1 ∅ 264 = Ok (Fixture.body_text, {[1; 2]}).
Proof. vm_compute. reflexivity. Qed.

(** The walk over a block that names itself and is followed by nothing. *)
Example self_reference_walk :
  follow_chain_with_tracking (Fixture.store 1 [1] [Fixture.block Fixture.body_text 1]) 1 1 ∅ 264
  = Ok (Fixture.body_text, {[1]}).
Proof. vm_compute. reflexivity. Qed.

(** The walk over two blocks that name each other. *)
Example cycle_walk :
  exists message,
    follow_chain_with_tracking
      (Fixture.store 1 [1] [Fixture.block Fixture.body_text 2; Fixture.block Fixture.body_text 1])
      1 2 ∅ 264
    = Ok (message, {[1; 2]}).
Proof. eexists. vm_compute. reflexivity. Qed.

(** *** The consumed set and the blocks that the walk rejects *)

Section Rejected.
Variables (data : list Z) (total_blocks : Z) (stop_blocks : gset Z) (data_offset : Z).

Lemma body_rel_claimed (w : walk) (s : step) :
  body_rel data total_blocks stop_blocks data_offset w s ->
  current_block w ∈ stop_blocks -> s = Break w.
Proof. intros Hrel Hstop. inversion Hrel; subst; (reflexivity || contradiction). Qed.

Lemma body_rel_out_of_range (w : walk) (s : step) :
  body_rel data total_blocks stop_blocks data_offset w s ->
  current_block w ∉ stop_blocks ->
  in_range data total_blocks data_offset (current_block w) = false ->
  s = Break (mark w).
Proof. intros Hrel Hstop Hrange. inversion Hrel; subst; (reflexivity || congruence). Qed.

Lemma body_rel_false_continuation (w : walk) (s : step) :
  body_rel data total_blocks stop_blocks data_offset w s ->
  current_block w ∉ stop_blocks ->
  first_block w = false ->
  is_message_start (block_text data data_offset (current_block w)) = true ->
  s = Break (mark w).
Proof.
  intros Hrel Hstop Hfirst Hstart.
  inversion Hrel as [Hc | Hs Hr | Hs Hr Hf Hm | Hs Hr Hm Hn | Hs Hr Hm Hn Hp
                     | Hs Hr Hm Hn Hp | n Hs Hr Hm Hn Hn0 Hn1 Hv | n Hs Hr Hm Hn Hn0 Hn1 Hv];
    subst s; try reflexivity; try contradiction;
    rewrite Hfirst, Hstart in Hm; discriminate.
Qed.
End Rejected.

(** C9.  On whatever block the loop body runs: a claimed block ends the
    walk with the variables as they were; an unclaimed block out of range
    ends it consumed; an unclaimed block after the first whose text looks
    like a message start ends it consumed, its text not appended.  For the
    walk as a whole, the set returned holds the blocks on which the body
    ran, except a claimed one. *)
Theorem rejected_blocks_consumed (data : list Z) (total_blocks : Z) (stop_blocks : gset Z)
    (data_offset : Z) (w : walk) (start_block : Z) :
  is_bytes data -> 0 <= data_offset -> 0 < current_block w -> 0 <= start_block ->
  (current_block w ∈ stop_blocks ->
   loop_body data total_blocks stop_blocks data_offset w = Ok (Break w))
  /\ (current_block w ∉ stop_blocks ->
      in_range data total_blocks data_offset (current_block w) = false ->
      loop_body data total_blocks stop_blocks data_offset w = Ok (Break (mark w)))
  /\ (current_block w ∉ stop_blocks ->
      in_range data total_blocks data_offset (current_block w) = true ->
      first_block w = false ->
      is_message_start (block_text data data_offset (current_block w)) = true ->
      loop_body data total_blocks stop_blocks data_offset w = Ok (Break (mark w)))
  /\ blocks_used (mark w) = {[current_block w]} ∪ blocks_used w
  /\ message_parts (mark w) = message_parts w
  /\ exists message chain_blocks,
       follow_chain_with_tracking data start_block total_blocks stop_blocks data_offset
       = Ok (message, chain_blocks)
       /\ chain_blocks
          = list_to_set (filter (fun b => b ∉ stop_blocks)
                           (iterations data total_blocks stop_blocks data_offset
                              (walk_fuel total_blocks) (initial_walk start_block)))
       /\ chain_blocks ## stop_blocks.
Proof.
  intros Hdata Hoff Hcur Hstart.
  destruct (loop_body_spec data total_blocks stop_blocks data_offset Hoff w Hcur)
    as (s & Hs & Hrel).
  split; [| split; [| split; [| split; [| split]]]].
  - intros Hstop. rewrite Hs. f_equal. eapply body_rel_claimed; eassumption.
  - intros Hstop Hrange. rewrite Hs. f_equal. eapply body_rel_out_of_range; eassumption.
  - intros Hstop _ Hfirst Hms. rewrite Hs. f_equal.
    eapply body_rel_false_continuation; eassumption.
  - reflexivity.
  - reflexivity.
  - pose proof (initial_walk_inv total_blocks stop_blocks start_block Hstart) as Hinv.
    destruct (follow_chain_returns data total_blocks stop_blocks data_offset Hdata Hoff
                start_block Hstart) as [w' Hw'].
    specialize (Hw' (walk_fuel total_blocks)). unfold walk_fuel in Hw'.
    specialize (Hw' ltac:(lia)).
    pose proof (run_loop_blocks data total_blocks stop_blocks data_offset Hdata Hoff
                  _ _ _ Hinv Hw') as Hblocks.
    cbn [blocks_used initial_walk] in Hblocks. rewrite union_empty_l_L in Hblocks.
    exists (full_message w'), (blocks_used w'). split; [| split].
    + unfold follow_chain_with_tracking, follow_chain_fuel, walk_fuel.
      rewrite Hw'. reflexivity.
    + exact Hblocks.
    + rewrite Hblocks. intros b Hb Hs'.
      apply elem_of_list_to_set, list_elem_of_filter in Hb. destruct Hb as [Hb _].
      apply Hb, Hs'.
Qed.

Lemma rejected_blocks_consumed_witness :
  is_message_start (block_text Fixture.false_continuation 264 2) = true
  /\ (current_block Fixture.second_step ∈ ({[3]} : gset Z) ->
      loop_body Fixture.false_continuation 3 {[3]} 264 Fixture.second_step
      = Ok (Break Fixture.second_step))
  /\ (current_block Fixture.second_step ∉ ({[3]} : gset Z) ->
      in_range Fixture.false_continuation 3 264 (current_block Fixture.second_step) = false ->
      loop_body Fixture.false_continuation 3 {[3]} 264 Fixture.second_step
      = Ok (Break (mark Fixture.second_step)))
  /\ (current_block Fixture.second_step ∉ ({[3]} : gset Z) ->
      in_range Fixture.false_continuation 3 264 (current_block Fixture.second_step) = true ->
      first_block Fixture.second_step = false ->
      is_message_start
        (block_text Fixture.false_continuation 264 (current_block Fixture.second_step))
      = true ->
      loop_body Fixture.false_continuation 3 {[3]} 264 Fixture.second_step
      = Ok (Break (mark Fixture.second_step)))
  /\ blocks_used (mark Fixture.second_step)
     = {[current_block Fixture.second_step]} ∪ blocks_used Fixture.second_step
  /\ message_parts (mark Fixture.second_step) = message_parts Fixture.second_step
  /\ exists message chain_blocks,
       follow_chain_with_tracking Fixture.false_continuation 1 3 {[3]} 264
       = Ok (message, chain_blocks)
       /\ chain_blocks
          = list_to_set (filter (fun b => b ∉ ({[3]} : gset Z))
                           (iterations Fixture.false_continuation 3 {[3]} 264
                              (walk_fuel 3) (initial_walk 1)))
       /\ chain_blocks ## {[3]}.
Proof.
  split; [vm_compute; reflexivity |].
  apply (rejected_blocks_consumed Fixture.false_continuation 3 {[3]} 264 Fixture.second_step 1).
  - apply bytes_check_sound. vm_compute. reflexivity.
  - lia.
  - simpl. lia.
  - lia.
Defined.

(** The walk over [Fixture.false_continuation] from block 1: block 2 is
    consumed and gives no text. *)
Example false_continuation_walk :
  follow_chain_with_tracking Fixture.false_continuation 1 3 ∅ 264
  = Ok (Fixture.body_text, {[1; 2]}).
Proof. vm_compute. reflexivity. Qed.

(** ** Scanners *)

(** The rule for a [for] loop whose body always returns and keeps [I]. *)
Lemma for_each_inv {A S : Type} (body : A -> S -> outcome (flow S)) (P : A -> Prop)
    (I : S -> Prop) :
  (forall x s, P x -> I s ->
     exists r, body x s = Ok r /\ I (match r with Next s' => s' | Leave s' => s' end)) ->
  forall l s, Forall P l -> I s -> exists s', for_each body l s = Ok s' /\ I s'.
Proof.
  intros Hbody. induction l as [| x l IH]; intros s Hl Hs.
  - exists s. split; [reflexivity | exact Hs].
  - apply Forall_cons in Hl. destruct Hl as [Hx Hl].
    destruct (Hbody x s Hx Hs) as (r & Hr & Hr'). cbn [for_each]. rewrite Hr.
    cbn [mbind outcome_bind bind]. destruct r as [s' | s'].
    + apply IH; assumption.
    + exists s'. split; [reflexivity | exact Hr'].
Qed.

Lemma union_list_snoc (l : list (gset Z)) (X : gset Z) : ⋃ (l ++ [X]) = ⋃ l ∪ X.
Proof. rewrite union_list_app_L. cbn. set_solver. Qed.

Lemma elem_of_union_list_lookup (l : list (gset Z)) (i : nat) (X : gset Z) (b : Z) :
  l !! i = Some X -> b ∈ X -> b ∈ ⋃ l.
Proof.
  intros Hi Hb. apply elem_of_union_list. exists X. split; [| exact Hb].
  eapply list_elem_of_lookup_2, Hi.
Qed.

Lemma disjoint_chains_snoc (l : list (gset Z)) (X : gset Z) :
  disjoint_chains l -> X ## ⋃ l -> disjoint_chains (l ++ [X]).
Proof.
  intros Hl HX i j Y Z' Hi Hj Hij.
  apply lookup_snoc_Some in Hi. apply lookup_snoc_Some in Hj.
  destruct Hi as [[Hil Hi] | [Hil <-]]; destruct Hj as [[Hjl Hj] | [Hjl <-]].
  - eapply Hl; eassumption.
  - intros b Hb1 Hb2. apply (HX b Hb2). eapply elem_of_union_list_lookup; eassumption.
  - intros b Hb1 Hb2. apply (HX b Hb1). eapply elem_of_union_list_lookup; eassumption.
  - lia.
Qed.

Lemma disjoint_chains_nil : disjoint_chains [].
Proof. intros i j X Y Hi. rewrite lookup_nil in Hi. discriminate. Qed.

(** Sorting keeps the elements. *)
Lemma insert_by_elem {A} (key : A -> Z) (x y : A) (l : list A) :
  y ∈ insert_by key x l <-> y = x \/ y ∈ l.
Proof.
  induction l as [| z l IH]; cbn [insert_by].
  - rewrite list_elem_of_singleton. set_solver.
  - destruct (key x <=? key z).
    + rewrite elem_of_cons. reflexivity.
    + rewrite !elem_of_cons, IH. tauto.
Qed.

Lemma sort_by_elem {A} (key : A -> Z) (y : A) (l : list A) : y ∈ sort_by key l <-> y ∈ l.
Proof.
  unfold sort_by. induction l as [| x l IH]; cbn [foldr].
  - reflexivity.
  - rewrite insert_by_elem, elem_of_cons, IH. reflexivity.
Qed.

Lemma sorted_unused_range (total_blocks : Z) (used : gset Z) :
  Forall (fun b => 1 <= b <= total_blocks /\ b ∉ used) (sorted_unused total_blocks used).
Proof.
  apply Forall_forall. intros b Hb. unfold sorted_unused in Hb.
  rewrite merge_sort_Permutation in Hb.
  apply elem_of_elements, elem_of_difference in Hb. destruct Hb as [Hb Hu].
  unfold all_blocks, range2 in Hb. apply elem_of_list_to_set, elem_of_seqZ in Hb.
  split; [lia | exact Hu].
Qed.

Lemma sorted_unused_empty (total_blocks : Z) (used : gset Z) :
  total_blocks <= 0 -> sorted_unused total_blocks used = [].
Proof.
  intros Ht. pose proof (sorted_unused_range total_blocks used) as Hr.
  destruct (sorted_unused total_blocks used) as [| b l]; [reflexivity |].
  apply Forall_cons in Hr. lia.
Qed.

(** *** The header *)

Lemma getitem_lookup {A} (l : list A) (i : nat) (x : A) : l !! i = Some x -> getitem l i = Ok x.
Proof. intros Hi. unfold getitem. rewrite Hi. reflexivity. Qed.

Lemma read_msginfo_short (data : list Z) : len data < 8 -> read_msginfo data = Ok None.
Proof.
  intros Hd. unfold read_msginfo. destruct (Z.ltb_spec (len data) 8); [reflexivity | lia].
Qed.

Lemma read_msginfo_long (data : list Z) :
  is_bytes data -> 8 <= len data ->
  exists info, read_msginfo data = Ok (Some info)
               /\ 8 <= dir_offset info <= data_offset info
               /\ data_offset info = dir_offset info + 4 * max_dir_entries info.
Proof.
  intros Hbytes Hd. unfold read_msginfo.
  destruct (Z.ltb_spec (len data) 8); [lia |].
  destruct data as [| d0 [| d1 data']]; try (unfold len in Hd; simpl in Hd; lia).
  assert (byte_ok d0 /\ byte_ok d1) as [Hd0 Hd1].
  { apply Forall_cons in Hbytes. destruct Hbytes as [? Hbytes].
    apply Forall_cons in Hbytes. destruct Hbytes as [? _]. split; assumption. }
  cbn [getitem lookup list_lookup mbind outcome_bind bind].
  destruct (unpack_H_two (slice (d0 :: d1 :: data') 2 4)) as [used Hused].
  { pose proof (length_slice_inside (d0 :: d1 :: data') 2 4). unfold len in *. lia. }
  destruct (unpack_H_two (slice (d0 :: d1 :: data') 4 6)) as [count Hcount].
  { pose proof (length_slice_inside (d0 :: d1 :: data') 4 6). unfold len in *. lia. }
  destruct (unpack_H_two (slice (d0 :: d1 :: data') 6 8)) as [new Hnew].
  { pose proof (length_slice_inside (d0 :: d1 :: data') 6 8). unfold len in *. lia. }
  rewrite Hused, Hcount, Hnew. cbn [bind].
  eexists. split; [reflexivity |]. cbn. unfold byte_ok in *.
  split; [lia |].
  replace (d1 * 128) with (32 * d1 * 4) by lia. rewrite Z.div_mul by lia. lia.
Qed.

(** *** The state of the scan *)

Lemma snd_snoc {A} (l : list (A * gset Z)) (a : A) (X : gset Z) :
  (l ++ [(a, X)]).*2 = l.*2 ++ [X].
Proof. rewrite fmap_app. reflexivity. Qed.

Section ScanState.
Context `{DateLibrary}.
Variables (data : list Z) (info : msginfo) (total_blocks : Z).

Abbreviation scan_inv := (scan_inv data info total_blocks).
Abbreviation link := (link data total_blocks (data_offset info)).

Lemma initial_scan_inv : scan_inv initial_scan.
Proof.
  unfold Gbbs.scan_inv, initial_scan, active_blocks, deleted_chain_blocks,
    orphaned_chain_blocks, attributions. cbn.
  repeat split; try apply disjoint_chains_nil; try set_solver.
Qed.

Lemma attributions_elem (s : scan_state) (h : Z) (cb : gset Z) :
  (h, cb) ∈ attributions s <->
  (exists x, x ∈ st_active s /\ h = a_block x.1 /\ cb = x.2)
  \/ (exists x, x ∈ st_deleted s /\ h = d_block x.1 /\ cb = x.2)
  \/ (exists x, x ∈ st_orphaned s /\ h = o_block x.1 /\ cb = x.2).
Proof.
  unfold attributions. rewrite !elem_of_app, !list_elem_of_fmap.
  split.
  - intros [(x & Hx & Hin) | [(x & Hx & Hin) | (x & Hx & Hin)]]; injection Hx as -> ->;
      [left | right; left | right; right]; exists x; auto.
  - intros [(x & Hin & -> & ->) | [(x & Hin & -> & ->) | (x & Hin & -> & ->)]];
      [left | right; left | right; right]; exists x; auto.
Qed.

Lemma scan_inv_add_active (s : scan_state) (rec : active_record) (cb : gset Z) :
  scan_inv s ->
  cb ## st_used_blocks s ->
  (forall b, b ∈ cb -> rtc link (a_block rec) b) ->
  a_block rec ∈ active_blocks s ∪ cb ->
  scan_inv (ScanState (st_used_blocks s ∪ cb) (st_active s ++ [(rec, cb)]) (st_deleted s)
              (st_deleted_all_blocks s) (st_orphaned s)).
Proof.
  intros (HU & HD & HAD & HAO & HDO & HWA & HWD & HWO & HR & HA & HHD & HHO) Hcb Hlink Hhead.
  unfold Gbbs.scan_inv, active_blocks, deleted_chain_blocks, orphaned_chain_blocks in *.
  cbn [st_used_blocks st_active st_deleted st_deleted_all_blocks st_orphaned].
  rewrite snd_snoc, union_list_snoc.
  split; [rewrite HU; set_solver |]. split; [exact HD |].
  split; [set_solver |]. split; [set_solver |]. split; [exact HDO |].
  split; [apply disjoint_chains_snoc; [exact HWA | set_solver] |].
  split; [exact HWD |]. split; [exact HWO |].
  split; [| split; [| split; [exact HHD | exact HHO]]].
  - intros h cb' b Hin Hb. apply attributions_elem in Hin.
    cbn [st_active st_deleted st_orphaned] in Hin.
    destruct Hin as [(x & Hx & -> & ->) | Hin].
    + apply elem_of_app in Hx. destruct Hx as [Hx | Hx].
      * apply (HR (a_block x.1) x.2 b); [| exact Hb].
        apply attributions_elem. left. exists x. auto.
      * apply list_elem_of_singleton in Hx. subst x. apply Hlink, Hb.
    + apply (HR h cb' b); [| exact Hb]. apply attributions_elem. right. exact Hin.
  - intros x Hx. apply elem_of_app in Hx. destruct Hx as [Hx | Hx].
    + apply HA in Hx. set_solver.
    + apply list_elem_of_singleton in Hx. subst x. exact Hhead.
Qed.

Lemma scan_inv_add_deleted (s : scan_state) (rec : deleted_record) (cb : gset Z) :
  scan_inv s ->
  cb ## st_used_blocks s ->
  (forall b, b ∈ cb -> rtc link (d_block rec) b) ->
  d_block rec ∈ cb ->
  scan_inv (ScanState (st_used_blocks s ∪ cb) (st_active s) (st_deleted s ++ [(rec, cb)])
              (st_deleted_all_blocks s ∪ cb) (st_orphaned s)).
Proof.
  intros (HU & HD & HAD & HAO & HDO & HWA & HWD & HWO & HR & HA & HHD & HHO) Hcb Hlink Hhead.
  unfold Gbbs.scan_inv, active_blocks, deleted_chain_blocks, orphaned_chain_blocks in *.
  cbn [st_used_blocks st_active st_deleted st_deleted_all_blocks st_orphaned].
  rewrite snd_snoc, union_list_snoc.
  split; [rewrite HU; set_solver |]. split; [rewrite HD; reflexivity |].
  split; [set_solver |]. split; [exact HAO |]. split; [set_solver |].
  split; [exact HWA |].
  split; [apply disjoint_chains_snoc; [exact HWD | set_solver] |].
  split; [exact HWO |].
  split; [| split; [exact HA | split; [| exact HHO]]].
  - intros h cb' b Hin Hb. apply attributions_elem in Hin.
    cbn [st_active st_deleted st_orphaned] in Hin.
    destruct Hin as [Hin | [(x & Hx & -> & ->) | Hin]].
    + apply (HR h cb' b); [| exact Hb]. apply attributions_elem. left. exact Hin.
    + apply elem_of_app in Hx. destruct Hx as [Hx | Hx].
      * apply (HR (d_block x.1) x.2 b); [| exact Hb].
        apply attributions_elem. right. left. exists x. auto.
      * apply list_elem_of_singleton in Hx. subst x. apply Hlink, Hb.
    + apply (HR h cb' b); [| exact Hb]. apply attributions_elem. right. right. exact Hin.
  - intros x Hx. apply elem_of_app in Hx. destruct Hx as [Hx | Hx].
    + apply HHD, Hx.
    + apply list_elem_of_singleton in Hx. subst x. exact Hhead.
Qed.

Lemma scan_inv_add_orphaned (s : scan_state) (rec : orphaned_record) (cb : gset Z) :
  scan_inv s ->
  cb ## st_used_blocks s ->
  (forall b, b ∈ cb -> rtc link (o_block rec) b) ->
  o_block rec ∈ cb ->
  scan_inv (ScanState (st_used_blocks s ∪ cb) (st_active s) (st_deleted s)
              (st_deleted_all_blocks s) (st_orphaned s ++ [(rec, cb)])).
Proof.
  intros (HU & HD & HAD & HAO & HDO & HWA & HWD & HWO & HR & HA & HHD & HHO) Hcb Hlink Hhead.
  unfold Gbbs.scan_inv, active_blocks, deleted_chain_blocks, orphaned_chain_blocks in *.
  cbn [st_used_blocks st_active st_deleted st_deleted_all_blocks st_orphaned].
  rewrite snd_snoc, union_list_snoc.
  split; [rewrite HU; set_solver |]. split; [exact HD |].
  split; [exact HAD |]. split; [set_solver |]. split; [set_solver |].
  split; [exact HWA |]. split; [exact HWD |].
  split; [apply disjoint_chains_snoc; [exact HWO | set_solver] |].
  split; [| split; [exact HA | split; [exact HHD |]]].
  - intros h cb' b Hin Hb. apply attributions_elem in Hin.
    cbn [st_active st_deleted st_orphaned] in Hin.
    destruct Hin as [Hin | [Hin | (x & Hx & -> & ->)]].
    + apply (HR h cb' b); [| exact Hb]. apply attributions_elem. left. exact Hin.
    + apply (HR h cb' b); [| exact Hb]. apply attributions_elem. right. left. exact Hin.
    + apply elem_of_app in Hx. destruct Hx as [Hx | Hx].
      * apply (HR (o_block x.1) x.2 b); [| exact Hb].
        apply attributions_elem. right. right. exists x. auto.
      * apply list_elem_of_singleton in Hx. subst x. apply Hlink, Hb.
  - intros x Hx. apply elem_of_app in Hx. destruct Hx as [Hx | Hx].
    + apply HHO, Hx.
    + apply list_elem_of_singleton in Hx. subst x. exact Hhead.
Qed.
End ScanState.

(** *** The three phases *)

Lemma filter_none {A} (P : A -> Prop) `{forall x, Decision (P x)} (l : list A) :
  Forall (fun x => ~ P x) l -> filter P l = [].
Proof.
  induction l as [| x l IH]; intros Hl; [reflexivity |].
  apply Forall_cons in Hl. destruct Hl as [Hx Hl].
  rewrite filter_cons_False by exact Hx. apply IH, Hl.
Qed.

Section PhaseProofs.
Context `{DateLibrary}.
Variables (data : list Z) (info : msginfo) (total_blocks : Z).
Hypothesis data_bytes : is_bytes data.
Hypothesis dir_nonneg : 0 <= dir_offset info.
Hypothesis data_nonneg : 0 <= data_offset info.

Abbreviation scan_inv := (scan_inv data info total_blocks).
Abbreviation phase1_records := (phase1_records data info total_blocks).
Abbreviation populated := (populated data info total_blocks).
Abbreviation slot_block := (slot_block data info).
Abbreviation phase1_body := (phase1_body data info total_blocks).
Abbreviation phase2_body := (phase2_body data info total_blocks).
Abbreviation phase3_body := (phase3_body data info total_blocks).
Abbreviation link := (link data total_blocks (data_offset info)).

(** A slot inside the file names a block number. *)
Lemma slot_block_ok (e : Z) :
  0 <= e -> dir_offset info + e * 4 + 4 <= len data ->
  len (slice data (dir_offset info + e * 4) (dir_offset info + e * 4 + 4)) = 4
  /\ exists b, slot_block e = Ok b /\ 0 <= b < 65536.
Proof.
  intros He Hfile.
  assert (len (slice data (dir_offset info + e * 4) (dir_offset info + e * 4 + 4)) = 4)
    as Hentry by (rewrite length_slice_inside; lia).
  split; [exact Hentry |].
  destruct (unpack_H_two
              (slice (slice data (dir_offset info + e * 4) (dir_offset info + e * 4 + 4)) 2 4))
    as [b Hb].
  { pose proof (length_slice_inside
                  (slice data (dir_offset info + e * 4) (dir_offset info + e * 4 + 4)) 2 4)
      as Hl. unfold len in *. lia. }
  exists b. split; [exact Hb |].
  eapply unpack_H_bytes; [| exact Hb]. apply is_bytes_slice, is_bytes_slice, data_bytes.
Qed.

Lemma populated_true (e b : Z) :
  dir_offset info + e * 4 + 4 <= len data -> slot_block e = Ok b ->
  populated e = negb (b =? 0) && (b <=? total_blocks).
Proof.
  intros Hfile Hb. unfold Gbbs.populated. rewrite Hb.
  destruct (Z.leb_spec (dir_offset info + e * 4 + 4) (len data)); [reflexivity | lia].
Qed.

Lemma populated_outside (e : Z) :
  dir_offset info + e * 4 + 4 > len data -> populated e = false.
Proof.
  intros Hfile. unfold Gbbs.populated.
  destruct (Z.leb_spec (dir_offset info + e * 4 + 4) (len data)); [lia | reflexivity].
Qed.

(** What one execution of the body of PHASE 1 does. *)
Lemma phase1_body_spec (e : Z) (s : scan_state) :
  0 <= e -> scan_inv s -> st_deleted s = [] -> st_orphaned s = [] ->
  st_deleted_all_blocks s = ∅ -> phase1_records (st_active s) ->
  (dir_offset info + e * 4 + 4 > len data /\ phase1_body e s = Ok (Leave s))
  \/ (populated e = false /\ phase1_body e s = Ok (Next s))
  \/ (populated e = true
      /\ exists s' x,
          phase1_body e s = Ok (Next s')
          /\ scan_inv s' /\ st_deleted s' = [] /\ st_orphaned s' = []
          /\ st_deleted_all_blocks s' = ∅
          /\ phase1_records (st_active s')
          /\ st_active s' = st_active s ++ [x] /\ a_entry x.1 = e).
Proof.
  intros He Hinv Hdel Horph Hdall Hrec. unfold Gbbs.phase1_body.
  rewrite Z.gtb_ltb. destruct (Z.ltb_spec (len data) (dir_offset info + e * 4 + 4)) as [Hout | Hin].
  { left. split; [lia | reflexivity]. }
  right. destruct (slot_block_ok e He Hin) as (Hentry & b & Hb & Hrange).
  rewrite Hentry. cbn [Z.ltb Z.compare Pos.compare Pos.compare_cont].
  change (unpack_H (slice (slice data (dir_offset info + e * 4)
                             (dir_offset info + e * 4 + 4)) 2 4))
    with (slot_block e).
  rewrite Hb. cbn [mbind outcome_bind bind].
  pose proof (populated_true e b Hin Hb) as Hpop.
  destruct (Z.eqb_spec b 0) as [Hz | Hnz].
  { left. split; [rewrite Hpop; reflexivity | reflexivity]. }
  rewrite Z.gtb_ltb. destruct (Z.ltb_spec total_blocks b) as [Hbig | Hsmall].
  { left. split; [| reflexivity]. rewrite Hpop.
    destruct (Z.leb_spec b total_blocks); [lia | reflexivity]. }
  right. split.
  { rewrite Hpop. destruct (Z.leb_spec b total_blocks); [reflexivity | lia]. }
  destruct (follow_chain_spec data total_blocks (st_used_blocks s) (data_offset info)
              data_bytes data_nonneg b ltac:(lia))
    as (message & cb & Hrun & Hdisj & Hhead & Hclaimed & Hlink).
  rewrite Hrun. cbn [mbind outcome_bind bind mret outcome_ret].
  assert (st_used_blocks s = active_blocks s) as Hused.
  { destruct Hinv as (HU & _). rewrite HU.
    unfold deleted_chain_blocks, orphaned_chain_blocks. rewrite Hdel, Horph. cbn.
    set_solver. }
  eexists _, (ActiveRecord e b message (parse_date message), cb).
  split; [reflexivity |]. rewrite Hdel, Horph, Hdall.
  split; [| split; [reflexivity | split; [reflexivity | split; [reflexivity | split]]]].
  - rewrite <- Hdel at 1. rewrite <- Horph at 1. rewrite <- Hdall.
    apply scan_inv_add_active; [exact Hinv | exact Hdisj | exact Hlink |].
    cbn [a_block]. destruct (decide (b ∈ st_used_blocks s)) as [Hb' | Hb'].
    + rewrite Hused in Hb'. set_solver.
    + specialize (Hhead Hnz Hb'). set_solver.
  - cbn [st_active]. intros i x Hi. apply lookup_snoc_Some in Hi.
    destruct Hi as [[Hil Hi] | [Hil <-]].
    + rewrite take_app_le by lia. apply Hrec, Hi.
    + rewrite take_app_length' by lia. cbn [fst snd a_entry a_block a_date a_message].
      split; [rewrite Hpop; destruct (Z.leb_spec b total_blocks); [reflexivity | lia] |].
      split; [exact Hb |]. split; [reflexivity |].
      change (⋃ (st_active s).*2) with (active_blocks s). rewrite <- Hused. exact Hrun.
  - split; reflexivity.
Qed.

(** PHASE 1 over the slots from [a] on. *)
Lemma phase1_loop (k : nat) :
  forall (a : Z) (s : scan_state),
    0 <= a -> scan_inv s -> st_deleted s = [] -> st_orphaned s = [] ->
    st_deleted_all_blocks s = ∅ -> phase1_records (st_active s) ->
    exists s',
      for_each phase1_body (seqZ a (Z.of_nat k)) s = Ok s'
      /\ scan_inv s' /\ st_deleted s' = [] /\ st_orphaned s' = []
      /\ st_deleted_all_blocks s' = ∅
      /\ phase1_records (st_active s')
      /\ (fun x => a_entry x.1) <$> st_active s'
         = ((fun x => a_entry x.1) <$> st_active s)
           ++ filter (fun e => populated e = true) (seqZ a (Z.of_nat k)).
Proof.
  induction k as [| k IH]; intros a s Ha Hinv Hdel Horph Hdall Hrec.
  - exists s. change (seqZ a (Z.of_nat 0)) with (@nil Z). rewrite filter_nil, app_nil_r.
    split_and!; (assumption || reflexivity).
  - rewrite Nat2Z.inj_succ, seqZ_cons, Z.pred_succ by lia. cbn [for_each].
    destruct (phase1_body_spec a s Ha Hinv Hdel Horph Hdall Hrec)
      as [[Hout Hbody] | [[Hpop Hbody] | (Hpop & s1 & x & Hbody & Hinv1 & Hdel1 & Horph1
                                           & Hdall1 & Hrec1 & Hact1 & Hx)]];
      rewrite Hbody; cbn [mbind outcome_bind bind mret outcome_ret].
    + assert (filter (fun e => populated e = true) (a :: seqZ (Z.succ a) (Z.of_nat k)) = [])
        as ->.
      { apply filter_none, Forall_forall. intros e He.
        assert (a <= e) as Hae.
        { apply elem_of_cons in He. destruct He as [-> | He]; [lia |].
          apply elem_of_seqZ in He. lia. }
        rewrite populated_outside by lia. discriminate. }
      exists s. rewrite app_nil_r. split_and!; (assumption || reflexivity).
    + destruct (IH (Z.succ a) s ltac:(lia) Hinv Hdel Horph Hdall Hrec)
        as (s' & Hrun & Hinv' & Hdel' & Horph' & Hdall' & Hrec' & Hent).
      exists s'. rewrite filter_cons_False by (rewrite Hpop; discriminate).
      split_and!; assumption.
    + destruct (IH (Z.succ a) s1 ltac:(lia) Hinv1 Hdel1 Horph1 Hdall1 Hrec1)
        as (s' & Hrun & Hinv' & Hdel' & Horph' & Hdall' & Hrec' & Hent).
      exists s'. rewrite filter_cons_True by exact Hpop.
      split_and!; try assumption.
      rewrite Hent, Hact1, fmap_app. cbn [fmap list_fmap]. rewrite Hx, <- app_assoc.
      reflexivity.
Qed.

(** What one execution of the body of PHASE 2 does. *)
Lemma phase2_body_spec (active : list (active_record * gset Z))
    (orphaned : list (orphaned_record * gset Z)) (b : Z) (s : scan_state) :
  1 <= b <= total_blocks ->
  scan_inv s /\ st_active s = active /\ st_orphaned s = orphaned ->
  exists r, phase2_body b s = Ok r
            /\ (fun s' => scan_inv s' /\ st_active s' = active /\ st_orphaned s' = orphaned)
                 (match r with Next s' => s' | Leave s' => s' end).
Proof.
  intros Hb (Hinv & Hact & Horph). unfold Gbbs.phase2_body.
  destruct (bool_decide_reflect (b ∈ st_used_blocks s)) as [Hused | Hfree].
  { eexists. split; [reflexivity |]. cbn. auto. }
  destruct (data_offset info + (b - 1) * 128 + 128 >? len data).
  { eexists. split; [reflexivity |]. cbn. auto. }
  destruct (non_null_count _ <? 10).
  { eexists. split; [reflexivity |]. cbn. auto. }
  destruct (decode_7bit_total
              (slice data (data_offset info + (b - 1) * 128)
                 (data_offset info + (b - 1) * 128 + 126)) true) as (decoded & Hdec & _).
  rewrite Hdec. cbn [mbind outcome_bind bind].
  destruct (is_message_start decoded).
  2: { eexists. split; [reflexivity |]. cbn. auto. }
  cbn [negb].
  destruct (follow_chain_spec data total_blocks (st_used_blocks s) (data_offset info)
              data_bytes data_nonneg b ltac:(lia))
    as (message & cb & Hrun & Hdisj & Hhead & Hclaimed & Hlink).
  rewrite Hrun. cbn [mbind outcome_bind bind mret outcome_ret].
  eexists. split; [reflexivity |]. cbn beta iota.
  split; [| split; [exact Hact | exact Horph]].
  apply scan_inv_add_deleted; [exact Hinv | exact Hdisj | exact Hlink |].
  apply Hhead; [lia | exact Hfree].
Qed.

(** What one execution of the body of PHASE 3 does. *)
Lemma phase3_body_spec (active : list (active_record * gset Z))
    (deleted : list (deleted_record * gset Z)) (b : Z) (s : scan_state) :
  1 <= b <= total_blocks ->
  scan_inv s /\ st_active s = active /\ st_deleted s = deleted ->
  exists r, phase3_body b s = Ok r
            /\ (fun s' => scan_inv s' /\ st_active s' = active /\ st_deleted s' = deleted)
                 (match r with Next s' => s' | Leave s' => s' end).
Proof.
  intros Hb (Hinv & Hact & Hdel). unfold Gbbs.phase3_body.
  destruct (bool_decide_reflect (b ∈ st_used_blocks s)) as [Hused | Hfree].
  { eexists. split; [reflexivity |]. cbn. auto. }
  destruct (data_offset info + (b - 1) * 128 + 128 >? len data).
  { eexists. split; [reflexivity |]. cbn. auto. }
  destruct (non_null_count _ <? 10).
  { eexists. split; [reflexivity |]. cbn. auto. }
  destruct (follow_chain_spec data total_blocks (st_used_blocks s) (data_offset info)
              data_bytes data_nonneg b ltac:(lia))
    as (message & cb & Hrun & Hdisj & Hhead & Hclaimed & Hlink).
  rewrite Hrun. cbn [mbind outcome_bind bind mret outcome_ret].
  eexists. split; [reflexivity |]. cbn beta iota.
  split; [| split; [exact Hact | exact Hdel]].
  apply scan_inv_add_orphaned; [exact Hinv | exact Hdisj | exact Hlink |].
  apply Hhead; [lia | exact Hfree].
Qed.

(** The three phases return, and their state is as the invariants say. *)
Lemma run_phases_spec :
  exists s,
    run_phases data info total_blocks = Ok s
    /\ scan_inv s
    /\ phase1_records (st_active s)
    /\ (fun x => a_entry x.1) <$> st_active s
       = filter (fun e => populated e = true) (range (max_dir_entries info)).
Proof.
  unfold run_phases, phase1, phase2, phase3.
  destruct (phase1_loop (Z.to_nat (max_dir_entries info)) 0 initial_scan)
    as (s1 & Hrun1 & Hinv1 & _ & _ & _ & Hrec1 & Hent1);
    try reflexivity; try lia.
  { apply initial_scan_inv. }
  { intros i x Hi. cbn in Hi. rewrite lookup_nil in Hi. discriminate. }
  assert (seqZ 0 (Z.of_nat (Z.to_nat (max_dir_entries info))) = range (max_dir_entries info))
    as Hseq.
  { unfold range, seqZ. rewrite Nat2Z.id. reflexivity. }
  rewrite Hseq in Hrun1, Hent1. rewrite Hrun1. cbn [mbind outcome_bind bind].
  destruct (for_each_inv phase2_body (fun b => 1 <= b <= total_blocks)
              (fun s' => scan_inv s' /\ st_active s' = st_active s1
                         /\ st_orphaned s' = st_orphaned s1)
              (phase2_body_spec (st_active s1) (st_orphaned s1))
              (sorted_unused total_blocks (st_used_blocks s1)) s1)
    as (s2 & Hrun2 & Hinv2 & Hact2 & _).
  { eapply Forall_impl; [apply sorted_unused_range |]. intros b [Hb _]. exact Hb. }
  { auto. }
  rewrite Hrun2. cbn [mbind outcome_bind bind].
  destruct (for_each_inv phase3_body (fun b => 1 <= b <= total_blocks)
              (fun s' => scan_inv s' /\ st_active s' = st_active s2
                         /\ st_deleted s' = st_deleted s2)
              (phase3_body_spec (st_active s2) (st_deleted s2))
              (sorted_unused total_blocks (st_used_blocks s2)) s2)
    as (s3 & Hrun3 & Hinv3 & Hact3 & _).
  { eapply Forall_impl; [apply sorted_unused_range |]. intros b [Hb _]. exact Hb. }
  { auto. }
  exists s3. split; [exact Hrun3 |]. split; [exact Hinv3 |].
  rewrite Hact3, Hact2. split; [exact Hrec1 | exact Hent1].
Qed.
End PhaseProofs.

(** *** The bulletin scanner as a whole *)

Lemma disjoint_chains_app (l1 l2 : list (gset Z)) :
  disjoint_chains l1 -> disjoint_chains l2 -> ⋃ l1 ## ⋃ l2 -> disjoint_chains (l1 ++ l2).
Proof.
  intros H1 H2 H12 i j X Y Hi Hj Hij.
  apply lookup_app_Some in Hi. apply lookup_app_Some in Hj.
  destruct Hi as [Hi | [Hil Hi]]; destruct Hj as [Hj | [Hjl Hj]].
  - eapply H1; eassumption.
  - intros b Hb1 Hb2. apply (H12 b); eapply elem_of_union_list_lookup; eassumption.
  - intros b Hb1 Hb2. apply (H12 b); eapply elem_of_union_list_lookup; eassumption.
  - eapply H2; [exact Hi | exact Hj | lia].
Qed.

Section Bulletin.
Context `{DateLibrary}.

Lemma attributions_chains (s : scan_state) :
  (attributions s).*2 = (st_active s).*2 ++ (st_deleted s).*2 ++ (st_orphaned s).*2.
Proof.
  unfold attributions. rewrite !fmap_app, <- !list_fmap_compose. reflexivity.
Qed.

(** The scan of a store with a header returns the state of the phases. *)
Lemma scan_bulletin_state_spec (data : list Z) (info : msginfo) :
  is_bytes data -> read_msginfo data = Ok (Some info) ->
  8 <= dir_offset info <= data_offset info
  /\ exists s,
      scan_bulletin_state data = Ok (Some (info, total_blocks_of data info, s))
      /\ scan_inv data info (total_blocks_of data info) s
      /\ phase1_records data info (total_blocks_of data info) (st_active s)
      /\ (fun x => a_entry x.1) <$> st_active s
         = filter (fun e => populated data info (total_blocks_of data info) e = true)
             (range (max_dir_entries info)).
Proof.
  intros Hbytes Hinfo.
  assert (8 <= len data) as Hlen.
  { destruct (Z.lt_ge_cases (len data) 8) as [Hshort | Hlong]; [| exact Hlong].
    rewrite read_msginfo_short in Hinfo by exact Hshort. discriminate. }
  destruct (read_msginfo_long data Hbytes Hlen) as (info' & Hinfo' & Hoff & _).
  rewrite Hinfo in Hinfo'. injection Hinfo' as <-.
  split; [exact Hoff |].
  destruct (run_phases_spec data info (total_blocks_of data info) Hbytes ltac:(lia) ltac:(lia))
    as (s & Hrun & Hinv & Hrec & Hent).
  exists s. split; [| split; [exact Hinv | split; [exact Hrec | exact Hent]]].
  unfold scan_bulletin_state. rewrite Hinfo. cbn [mbind outcome_bind bind].
  rewrite Hrun. reflexivity.
Qed.

Lemma scan_database_bulletin_eq (data : list Z) (info : msginfo) (total_blocks : Z)
    (s : scan_state) :
  scan_bulletin_state data = Ok (Some (info, total_blocks, s)) ->
  scan_database_bulletin data
  = Ok (Some (BulletinResult info total_blocks (st_deleted_all_blocks s) (st_active s).*1
                (sort_by (fun x => date_key (d_date x)) (st_deleted s).*1)
                (st_orphaned s).*1)).
Proof. intros Hs. unfold scan_database_bulletin. rewrite Hs. reflexivity. Qed.

(** A store too short for a header is the one failure that the scanner
    reports. *)
Lemma scan_short_file (data : list Z) :
  len data < 8 -> scan_database_bulletin data = Ok None.
Proof.
  intros Hd. unfold scan_database_bulletin, scan_bulletin_state.
  rewrite read_msginfo_short by exact Hd. reflexivity.
Qed.
End Bulletin.

(** A block consumed in PHASE 1 is the head block of no Deleted and of no
    Orphaned message. *)
Lemma consumed_block_is_no_head `{DateLibrary} (data : list Z) (info : msginfo)
    (total_blocks : Z) (s : scan_state) (b : Z) :
  scan_inv data info total_blocks s -> b ∈ active_blocks s ->
  (forall x, x ∈ st_deleted s -> d_block x.1 <> b)
  /\ (forall x, x ∈ st_orphaned s -> o_block x.1 <> b).
Proof.
  intros (HU & HD & HAD & HAO & HDO & HWA & HWD & HWO & HR & HA & HHD & HHO) Hb.
  split; intros x Hx Heq.
  - apply (HAD b Hb). unfold deleted_chain_blocks. apply elem_of_union_list.
    exists x.2. split; [apply list_elem_of_fmap; exists x; auto |].
    rewrite <- Heq. apply HHD, Hx.
  - apply (HAO b Hb). unfold orphaned_chain_blocks. apply elem_of_union_list.
    exists x.2. split; [apply list_elem_of_fmap; exists x; auto |].
    rewrite <- Heq. apply HHO, Hx.
Qed.

(** C1, as amended.  For every store with a header the scan returns; the
    sets of blocks consumed in the three phases are pairwise disjoint,
    their union is the claim set at the end of the scan, and the set of
    PHASE 2 is [deleted_all_blocks]; no block belongs to the chains of two
    messages; the head block of every message is in the union; and every
    block consumed for a message lies on the chain from its head block, by
    steps along a next-pointer or from a block that names itself to the
    block after it.  (The union need not hold every block that the
    next-pointers reach.) *)
Theorem claim_sets_exclusive `{DateLibrary} (data : list Z) (info : msginfo) :
  is_bytes data -> read_msginfo data = Ok (Some info) ->
  exists s,
    scan_bulletin_state data = Ok (Some (info, total_blocks_of data info, s))
    /\ active_blocks s ## deleted_chain_blocks s
    /\ active_blocks s ## orphaned_chain_blocks s
    /\ deleted_chain_blocks s ## orphaned_chain_blocks s
    /\ active_blocks s ∪ deleted_chain_blocks s ∪ orphaned_chain_blocks s = st_used_blocks s
    /\ deleted_chain_blocks s = st_deleted_all_blocks s
    /\ disjoint_chains (attributions s).*2
    /\ (forall h cb, (h, cb) ∈ attributions s ->
          h ∈ active_blocks s ∪ deleted_chain_blocks s ∪ orphaned_chain_blocks s)
    /\ (forall h cb b, (h, cb) ∈ attributions s -> b ∈ cb ->
          rtc (link data (total_blocks_of data info) (data_offset info)) h b).
Proof.
  intros Hbytes Hinfo.
  destruct (scan_bulletin_state_spec data info Hbytes Hinfo) as (_ & s & Hscan & Hinv & _).
  exists s. split; [exact Hscan |].
  destruct Hinv as (HU & HD & HAD & HAO & HDO & HWA & HWD & HWO & HR & HA & HHD & HHO).
  split; [exact HAD |]. split; [exact HAO |]. split; [exact HDO |].
  split; [symmetry; exact HU |]. split; [symmetry; exact HD |].
  split; [| split; [| exact HR]].
  - rewrite attributions_chains.
    apply disjoint_chains_app; [exact HWA | |].
    + apply disjoint_chains_app; [exact HWD | exact HWO | exact HDO].
    + rewrite union_list_app_L.
      unfold active_blocks, deleted_chain_blocks, orphaned_chain_blocks in *. set_solver.
  - intros h cb Hin. apply attributions_elem in Hin.
    destruct Hin as [(x & Hx & -> & ->) | [(x & Hx & -> & ->) | (x & Hx & -> & ->)]].
    + apply HA in Hx. set_solver.
    + pose proof (HHD x Hx) as Hhead.
      assert (d_block x.1 ∈ deleted_chain_blocks s); [| set_solver].
      unfold deleted_chain_blocks. apply elem_of_union_list. exists x.2.
      split; [apply list_elem_of_fmap; exists x; auto | exact Hhead].
    + pose proof (HHO x Hx) as Hhead.
      assert (o_block x.1 ∈ orphaned_chain_blocks s); [| set_solver].
      unfold orphaned_chain_blocks. apply elem_of_union_list. exists x.2.
      split; [apply list_elem_of_fmap; exists x; auto | exact Hhead].
Qed.

Lemma claim_sets_exclusive_witness :
  exists s,
    scan_bulletin_state (H := Fixture.no_dates) Fixture.three_kinds
    = Ok (Some (Fixture.bulletin_info,
                total_blocks_of Fixture.three_kinds Fixture.bulletin_info, s))
    /\ active_blocks s ## deleted_chain_blocks s
    /\ active_blocks s ## orphaned_chain_blocks s
    /\ deleted_chain_blocks s ## orphaned_chain_blocks s
    /\ active_blocks s ∪ deleted_chain_blocks s ∪ orphaned_chain_blocks s = st_used_blocks s
    /\ deleted_chain_blocks s = st_deleted_all_blocks s
    /\ disjoint_chains (attributions s).*2
    /\ (forall h cb, (h, cb) ∈ attributions s ->
          h ∈ active_blocks s ∪ deleted_chain_blocks s ∪ orphaned_chain_blocks s)
    /\ (forall h cb b, (h, cb) ∈ attributions s -> b ∈ cb ->
          rtc (link Fixture.three_kinds
                 (total_blocks_of Fixture.three_kinds Fixture.bulletin_info)
                 (data_offset Fixture.bulletin_info)) h b).
Proof.
  apply (claim_sets_exclusive (H := Fixture.no_dates) Fixture.three_kinds Fixture.bulletin_info).
  - apply bytes_check_sound. vm_compute. reflexivity.
  - vm_compute. reflexivity.
Defined.

(** The scan of [Fixture.three_kinds]: one message of each kind, one
    block each. *)
Example three_kinds_scan :
  exists s,
    scan_bulletin_state (H := Fixture.no_dates) Fixture.three_kinds
    = Ok (Some (Fixture.bulletin_info, 3, s))
    /\ (st_active s).*2 = [{[1]}] /\ (st_deleted s).*2 = [{[2]}]
    /\ (st_orphaned s).*2 = [{[3]}].
Proof. eexists. vm_compute. split_and!; reflexivity. Qed.

(** C1, as stated, fails: in [Fixture.false_continuation] the directory
    names block 1, whose next-pointer names block 2, whose next-pointer
    names block 3; the walk stops on block 2, which looks like a message
    start, and no phase consumes block 3, which holds four bytes of
    text.  Block 3 is reached from an entry point and is in none of the
    three sets. *)
Lemma reachable_block_not_covered :
  exists s,
    scan_bulletin_state (H := Fixture.no_dates) Fixture.false_continuation
    = Ok (Some (Fixture.bulletin_info, 3, s))
    /\ slot_block Fixture.false_continuation Fixture.bulletin_info 0 = Ok 1
    /\ points_to Fixture.false_continuation 3 264 1 2
    /\ points_to Fixture.false_continuation 3 264 2 3
    /\ active_blocks s ∪ deleted_chain_blocks s ∪ orphaned_chain_blocks s = {[1; 2]}
    /\ 3 ∉ active_blocks s ∪ deleted_chain_blocks s ∪ orphaned_chain_blocks s.
Proof.
  eexists. split; [vm_compute; reflexivity |].
  split; [vm_compute; reflexivity |].
  split; [split; vm_compute; reflexivity |].
  split; [split; vm_compute; reflexivity |].
  match goal with
  | |- ?X = _ /\ _ => assert (X = ({[1; 2]} : gset Z)) as Heq by (vm_compute; reflexivity)
  end.
  split; [exact Heq |]. rewrite Heq. set_solver.
Qed.

(** *** Priority of the directory *)

(** C4.  A block that a populated directory slot names is the block of
    an Active record of that slot, and it is the block of no Deleted and
    of no Orphaned record, whatever its content looks like. *)
Theorem directory_block_stays_active `{DateLibrary} (data : list Z) (info : msginfo)
    (e b : Z) :
  is_bytes data -> read_msginfo data = Ok (Some info) ->
  0 <= e < max_dir_entries info ->
  populated data info (total_blocks_of data info) e = true ->
  slot_block data info e = Ok b ->
  exists res,
    scan_database_bulletin data = Ok (Some res)
    /\ (exists m, m ∈ b_active_messages res /\ a_entry m = e /\ a_block m = b)
    /\ (b ∉ deleted_blocks res)
    /\ b ∉ orphaned_blocks res.
Proof.
  intros Hbytes Hinfo He Hpop Hslot.
  destruct (scan_bulletin_state_spec data info Hbytes Hinfo)
    as (_ & s & Hscan & Hinv & Hrec & Hent).
  eexists. split; [apply scan_database_bulletin_eq, Hscan |].
  assert (exists x, x ∈ st_active s /\ a_entry x.1 = e /\ a_block x.1 = b)
    as (x & Hx & Hxe & Hxb).
  { assert (e ∈ (fun x => a_entry x.1) <$> st_active s) as Hin.
    { rewrite Hent. apply list_elem_of_filter. split; [exact Hpop |].
      unfold range. apply elem_of_seqZ. lia. }
    apply list_elem_of_fmap in Hin. destruct Hin as (x & Hxe & Hx).
    exists x. split; [exact Hx |]. split; [symmetry; exact Hxe |].
    apply list_elem_of_lookup in Hx. destruct Hx as [i Hi].
    destruct (Hrec i x Hi) as (_ & Hslot' & _). rewrite <- Hxe, Hslot in Hslot'.
    injection Hslot' as <-. reflexivity. }
  assert (b ∈ active_blocks s) as Hactive.
  { destruct Hinv as (_ & _ & _ & _ & _ & _ & _ & _ & _ & HA & _).
    rewrite <- Hxb. apply HA, Hx. }
  destruct (consumed_block_is_no_head data info _ s b Hinv Hactive) as [Hdel Horph].
  cbn [b_active_messages]. split; [| split].
  - exists x.1. split; [| split; assumption]. apply list_elem_of_fmap. exists x. auto.
  - unfold deleted_blocks. cbn [b_deleted_messages]. intros Hin.
    apply elem_of_list_to_set, list_elem_of_fmap in Hin. destruct Hin as (d & Hd & Hin).
    apply sort_by_elem, list_elem_of_fmap in Hin. destruct Hin as (y & -> & Hy).
    apply (Hdel y Hy). symmetry. exact Hd.
  - unfold orphaned_blocks. cbn [b_orphaned_messages]. intros Hin.
    apply elem_of_list_to_set, list_elem_of_fmap in Hin. destruct Hin as (d & Hd & Hin).
    apply list_elem_of_fmap in Hin. destruct Hin as (y & -> & Hy).
    apply (Horph y Hy). symmetry. exact Hd.
Qed.

Lemma directory_block_stays_active_witness :
  is_message_start (block_text Fixture.two_blocks 264 1) = true
  /\ exists res,
      scan_database_bulletin (H := Fixture.no_dates) Fixture.two_blocks = Ok (Some res)
      /\ (exists m, m ∈ b_active_messages res /\ a_entry m = 0 /\ a_block m = 1)
      /\ (1 ∉ deleted_blocks res)
      /\ 1 ∉ orphaned_blocks res.
Proof.
  split; [vm_compute; reflexivity |].
  apply (directory_block_stays_active (H := Fixture.no_dates) Fixture.two_blocks
           Fixture.bulletin_info 0 1).
  - apply bytes_check_sound. vm_compute. reflexivity.
  - vm_compute. reflexivity.
  - vm_compute. split; [discriminate | reflexivity].
  - vm_compute. reflexivity.
  - vm_compute. reflexivity.
Defined.

(** *** The records of PHASE 1 *)

(** C10.  For every store with a header the scan returns, and its Active
    records are those of PHASE 1: their slots are the populated slots in
    ascending order; each record holds the block that its slot names, the
    date that [parse_date] reads in its text, and the text that the walk
    from that block returns, given the blocks that the records before it
    consumed; a record whose block was consumed before has an empty text
    and consumes no block. *)
Theorem phase1_one_record_per_slot `{DateLibrary} (data : list Z) (info : msginfo) :
  is_bytes data -> read_msginfo data = Ok (Some info) ->
  exists s res,
    scan_bulletin_state data = Ok (Some (info, total_blocks_of data info, s))
    /\ scan_database_bulletin data = Ok (Some res)
    /\ b_active_messages res = (st_active s).*1
    /\ a_entry <$> b_active_messages res
       = filter (fun e => populated data info (total_blocks_of data info) e = true)
           (range (max_dir_entries info))
    /\ forall (i : nat) (x : active_record * gset Z),
         st_active s !! i = Some x ->
         slot_block data info (a_entry x.1) = Ok (a_block x.1)
         /\ a_date x.1 = parse_date (a_message x.1)
         /\ follow_chain_with_tracking data (a_block x.1) (total_blocks_of data info)
              (⋃ (take i (st_active s)).*2) (data_offset info)
            = Ok (a_message x.1, x.2)
         /\ (a_block x.1 ∈ ⋃ (take i (st_active s)).*2 -> a_message x.1 = [] /\ x.2 = ∅).
Proof.
  intros Hbytes Hinfo.
  destruct (scan_bulletin_state_spec data info Hbytes Hinfo)
    as (Hoff & s & Hscan & Hinv & Hrec & Hent).
  eexists s, _. split; [exact Hscan |].
  split; [apply scan_database_bulletin_eq, Hscan |]. cbn [b_active_messages].
  split; [reflexivity |]. split.
  { rewrite <- Hent, <- list_fmap_compose. reflexivity. }
  intros i x Hi. destruct (Hrec i x Hi) as (Hpop & Hslot & Hdate & Hrun).
  split; [exact Hslot |]. split; [exact Hdate |]. split; [exact Hrun |].
  intros Hclaimed.
  assert (0 <= a_block x.1) as Hnonneg.
  { unfold slot_block in Hslot. apply unpack_H_bytes in Hslot; [lia |].
    apply is_bytes_slice, is_bytes_slice, Hbytes. }
  destruct (follow_chain_spec data (total_blocks_of data info) (⋃ (take i (st_active s)).*2)
              (data_offset info) Hbytes ltac:(lia) (a_block x.1) Hnonneg)
    as (message & cb & Hrun' & _ & _ & Hempty & _).
  rewrite Hrun in Hrun'. injection Hrun' as <- <-. apply Hempty, Hclaimed.
Qed.

Lemma phase1_one_record_per_slot_witness :
  exists s res,
    scan_bulletin_state (H := Fixture.no_dates) Fixture.shared_chain
    = Ok (Some (Fixture.bulletin_info,
                total_blocks_of Fixture.shared_chain Fixture.bulletin_info, s))
    /\ scan_database_bulletin (H := Fixture.no_dates) Fixture.shared_chain = Ok (Some res)
    /\ b_active_messages res = (st_active s).*1
    /\ a_entry <$> b_active_messages res
       = filter (fun e => populated Fixture.shared_chain Fixture.bulletin_info
                            (total_blocks_of Fixture.shared_chain Fixture.bulletin_info) e
                          = true)
           (range (max_dir_entries Fixture.bulletin_info))
    /\ forall (i : nat) (x : active_record * gset Z),
         st_active s !! i = Some x ->
         slot_block Fixture.shared_chain Fixture.bulletin_info (a_entry x.1) = Ok (a_block x.1)
         /\ a_date x.1 = parse_date (H := Fixture.no_dates) (a_message x.1)
         /\ follow_chain_with_tracking Fixture.shared_chain (a_block x.1)
              (total_blocks_of Fixture.shared_chain Fixture.bulletin_info)
              (⋃ (take i (st_active s)).*2) (data_offset Fixture.bulletin_info)
            = Ok (a_message x.1, x.2)
         /\ (a_block x.1 ∈ ⋃ (take i (st_active s)).*2 -> a_message x.1 = [] /\ x.2 = ∅).
Proof.
  apply (phase1_one_record_per_slot (H := Fixture.no_dates) Fixture.shared_chain
           Fixture.bulletin_info).
  - apply bytes_check_sound. vm_compute. reflexivity.
  - vm_compute. reflexivity.
Defined.

(** The scan of [Fixture.shared_chain]: the walk of slot 0 consumes
    blocks 1 and 2, and slot 1, which names block 2, gets a record with
    no text. *)
Example shared_chain_scan :
  exists res,
    scan_database_bulletin (H := Fixture.no_dates) Fixture.shared_chain = Ok (Some res)
    /\ b_active_messages res
       = [ActiveRecord 0 1 Fixture.body_text None; ActiveRecord 1 2 [] None]
    /\ b_deleted_messages res = [] /\ b_orphaned_messages res = [].
Proof. eexists. vm_compute. split_and!; reflexivity. Qed.

(** *** A data area that begins beyond the end of the file *)

(** C6, as amended.  When the header places the data area beyond the end
    of the file, the scan does not fail: it returns a result with a
    negative block count and no Active, Deleted or Orphaned message.
    (The scan reports a failure for a store of fewer than 8 bytes only,
    see [scan_short_file].) *)
Theorem scan_beyond_file `{DateLibrary} (data : list Z) (info : msginfo) :
  is_bytes data -> read_msginfo data = Ok (Some info) -> len data < data_offset info ->
  scan_database_bulletin data
  = Ok (Some (BulletinResult info (total_blocks_of data info) ∅ [] [] []))
  /\ total_blocks_of data info < 0.
Proof.
  intros Hbytes Hinfo Hbeyond.
  assert (total_blocks_of data info < 0) as Hneg.
  { unfold total_blocks_of. apply Z.div_lt_upper_bound; lia. }
  split; [| exact Hneg].
  assert (8 <= len data) as Hlen.
  { destruct (Z.lt_ge_cases (len data) 8) as [Hshort | Hlong]; [| exact Hlong].
    rewrite read_msginfo_short in Hinfo by exact Hshort. discriminate. }
  destruct (read_msginfo_long data Hbytes Hlen) as (info' & Hinfo' & Hoff & _).
  rewrite Hinfo in Hinfo'. injection Hinfo' as <-.
  destruct (phase1_loop data info (total_blocks_of data info) Hbytes ltac:(lia) ltac:(lia)
              (Z.to_nat (max_dir_entries info)) 0 initial_scan)
    as (s1 & Hrun1 & Hinv1 & Hdel1 & Horph1 & Hdall1 & _ & Hent1);
    try reflexivity; try lia.
  { apply initial_scan_inv. }
  { intros i x Hi. cbn in Hi. rewrite lookup_nil in Hi. discriminate. }
  assert (st_active s1 = []) as Hact1.
  { rewrite filter_none in Hent1.
    - cbn in Hent1. apply fmap_nil_inv in Hent1. exact Hent1.
    - apply Forall_forall. intros e He. apply elem_of_seqZ in He.
      unfold populated.
      destruct (Z.leb_spec (dir_offset info + e * 4 + 4) (len data)) as [Hin | Hout];
        [| cbn; discriminate].
      destruct (slot_block_ok data info Hbytes ltac:(lia) e ltac:(lia) Hin)
        as (_ & b & Hb & Hrange).
      rewrite Hb. cbn [andb].
      destruct (Z.leb_spec b (total_blocks_of data info)); [lia |].
      rewrite andb_false_r. discriminate. }
  assert (s1 = initial_scan) as ->.
  { destruct Hinv1 as (HU & _). unfold active_blocks, deleted_chain_blocks,
      orphaned_chain_blocks in HU. rewrite Hact1, Hdel1, Horph1 in HU. cbn in HU.
    destruct s1 as [u a d da o]. cbn in *. subst. unfold initial_scan. f_equal;
    set_solver. }
  assert (seqZ 0 (Z.of_nat (Z.to_nat (max_dir_entries info))) = range (max_dir_entries info))
    as Hseq.
  { unfold range, seqZ. rewrite Nat2Z.id. reflexivity. }
  rewrite Hseq in Hrun1.
  unfold scan_database_bulletin, scan_bulletin_state, run_phases, phase1, phase2, phase3.
  rewrite Hinfo. cbn [mbind outcome_bind bind]. rewrite Hrun1. cbn [mbind outcome_bind bind].
  rewrite sorted_unused_empty by lia. cbn [for_each mbind outcome_bind bind mret outcome_ret].
  rewrite sorted_unused_empty by lia. reflexivity.
Qed.

Lemma scan_beyond_file_witness :
  scan_database_bulletin (H := Fixture.no_dates) Fixture.header_only
  = Ok (Some (BulletinResult Fixture.bulletin_info
                (total_blocks_of Fixture.header_only Fixture.bulletin_info) ∅ [] [] []))
  /\ total_blocks_of Fixture.header_only Fixture.bulletin_info < 0.
Proof.
  apply (scan_beyond_file (H := Fixture.no_dates) Fixture.header_only Fixture.bulletin_info).
  - apply bytes_check_sound. vm_compute. reflexivity.
  - vm_compute. reflexivity.
  - vm_compute. reflexivity.
Defined.

(** C6, as stated, fails: the header of [Fixture.header_only] places the
    data area at offset 264 of a file of 8 bytes, and the scan returns a
    result. *)
Lemma header_only_scan_returns :
  len Fixture.header_only < data_offset Fixture.bulletin_info
  /\ read_msginfo Fixture.header_only = Ok (Some Fixture.bulletin_info)
  /\ scan_database_bulletin (H := Fixture.no_dates) Fixture.header_only
     = Ok (Some (BulletinResult Fixture.bulletin_info (-2) ∅ [] [] []))
  /\ scan_database_bulletin (H := Fixture.no_dates) Fixture.header_only <> Ok None.
Proof.
  split; [vm_compute; reflexivity |]. split; [vm_compute; reflexivity |].
  assert (scan_database_bulletin (H := Fixture.no_dates) Fixture.header_only
          = Ok (Some (BulletinResult Fixture.bulletin_info (-2) ∅ [] [] []))) as Heq
    by (vm_compute; reflexivity).
  split; [exact Heq |]. rewrite Heq. discriminate.
Qed.

(** *** The email scanner *)

Lemma lstrip_elem (t : text) (c : Z) : c ∈ lstrip t -> c ∈ t.
Proof.
  induction t as [| x t IH]; cbn [lstrip]; [intros Hc; exact Hc |].
  destruct (isspace x); [| intros Hc; exact Hc].
  intros Hc. apply elem_of_cons. right. apply IH, Hc.
Qed.

Lemma strip_elem (t : text) (c : Z) : c ∈ strip t -> c ∈ t.
Proof.
  unfold strip, rstrip. intros Hc.
  apply elem_of_reverse, lstrip_elem, elem_of_reverse, lstrip_elem in Hc. exact Hc.
Qed.

Lemma strip_no_null (t : text) : 0 ∉ strip (remove_char 0 t).
Proof.
  intros Hc. apply strip_elem in Hc. unfold remove_char in Hc.
  apply list_elem_of_filter in Hc. destruct Hc as [Hc _]. apply Hc. reflexivity.
Qed.

Section EmailProofs.
Context `{DateLibrary}.

(** The loop over the segments of one chain keeps the segments that are
    20 characters long or more once stripped, in order. *)
Lemma email_segments_filter (user_id : Z) (uinfo : option user_info) (messages : list text)
    (all_messages : list email_record) :
  email_segments user_id uinfo messages all_messages
  = all_messages
    ++ ((fun msg => EmailRecord user_id uinfo msg (parse_date msg))
          <$> filter (fun msg => 20 <= len msg)
                ((fun segment => strip (remove_char 0 segment)) <$> messages)).
Proof.
  unfold email_segments. revert all_messages.
  induction messages as [| msg messages IH]; intros all_messages; cbn [fold_left fmap list_fmap].
  - rewrite filter_nil. cbn. rewrite app_nil_r. reflexivity.
  - rewrite IH. unfold email_segment.
    destruct (Z.ltb_spec (len (strip (remove_char 0 msg))) 20) as [Hshort | Hlong].
    + rewrite filter_cons_False by lia. reflexivity.
    + rewrite filter_cons_True by lia. cbn [fmap list_fmap]. rewrite <- app_assoc.
      reflexivity.
Qed.

Variables (data : list Z) (users : option (gmap Z user_info)) (info : msginfo)
          (total_blocks : Z).
Hypothesis data_bytes : is_bytes data.
Hypothesis dir_nonneg : 0 <= dir_offset info.
Hypothesis data_nonneg : 0 <= data_offset info.

Abbreviation email_record_ok := (email_record_ok data info total_blocks).

Lemma email_body_spec (user_id : Z) (s : list email_record * gset Z) :
  0 <= user_id -> Forall email_record_ok s.1 ->
  exists r, email_body data users info total_blocks user_id s = Ok r
            /\ Forall email_record_ok (match r with Next s' => s' | Leave s' => s' end).1.
Proof.
  intros Hid Hs. destruct s as [all_messages used]. unfold email_body.
  rewrite Z.gtb_ltb.
  destruct (Z.ltb_spec (len data) (dir_offset info + user_id * 4 + 4)) as [Hout | Hin].
  { eexists. split; [reflexivity | exact Hs]. }
  destruct (slot_block_ok data info data_bytes dir_nonneg user_id Hid Hin)
    as (Hentry & b & Hb & Hrange).
  rewrite Hentry. cbn [Z.ltb Z.compare Pos.compare Pos.compare_cont].
  change (unpack_H (slice (slice data (dir_offset info + user_id * 4)
                             (dir_offset info + user_id * 4 + 4)) 2 4))
    with (slot_block data info user_id).
  rewrite Hb. cbn [mbind outcome_bind bind].
  destruct (Z.eqb_spec b 0) as [Hz | Hnz].
  { eexists. split; [reflexivity | exact Hs]. }
  destruct (follow_chain_spec data total_blocks ∅ (data_offset info) data_bytes data_nonneg
              b ltac:(lia)) as (chain_text & cb & Hrun & _).
  rewrite Hrun. cbn [mbind outcome_bind bind mret outcome_ret].
  eexists. split; [reflexivity |]. cbn [fst].
  rewrite email_segments_filter. apply Forall_app. split; [exact Hs |].
  apply Forall_fmap, Forall_forall. intros msg Hmsg.
  apply list_elem_of_filter in Hmsg. destruct Hmsg as [Hlong Hmsg].
  apply list_elem_of_fmap in Hmsg. destruct Hmsg as (segment & -> & Hseg).
  unfold Gbbs.email_record_ok. cbn [e_message e_user_id compose].
  split; [exact Hlong |]. split; [apply strip_no_null |].
  exists b, chain_text, cb, segment. auto.
Qed.
End EmailProofs.




(** ** Further properties of the codec *)

Lemma until_null_app (a b : text) :
  until_null (a ++ b) = if bool_decide (0 ∈ a) then until_null a else a ++ until_null b.
Proof.
  induction a as [| c a IH]; cbn [until_null app].
  - rewrite bool_decide_eq_false_2 by apply not_elem_of_nil. reflexivity.
  - destruct (Z.eqb_spec c 0) as [-> | Hc].
    + rewrite bool_decide_eq_true_2 by apply list_elem_of_here. reflexivity.
    + rewrite IH. destruct (decide (0 ∈ a)) as [Hin | Hout].
      * rewrite !bool_decide_eq_true_2; [reflexivity | | exact Hin].
        apply list_elem_of_further, Hin.
      * rewrite !bool_decide_eq_false_2; [reflexivity | | exact Hout].
        rewrite elem_of_cons. intros [Heq | Hin]; [congruence | exact (Hout Hin)].
Qed.

Lemma until_null_no_null (t : text) : 0 ∉ t -> until_null t = t.
Proof.
  intros Ht. rewrite <- (app_nil_r t) at 1. rewrite until_null_app.
  rewrite bool_decide_eq_false_2 by exact Ht. cbn [until_null]. apply app_nil_r.
Qed.

Lemma until_null_clean (t : text) : 0 ∉ until_null t.
Proof.
  induction t as [| c t IH]; simpl.
  - apply not_elem_of_nil.
  - destruct (Z.eqb_spec c 0) as [-> | Hc]; [apply not_elem_of_nil |].
    rewrite elem_of_cons. intros [Heq | Hin]; [congruence | exact (IH Hin)].
Qed.

(** The text is what [until_null] keeps, and then nothing or a null byte
    and more. *)
Lemma until_null_split (t : text) :
  exists q, t = until_null t ++ q /\ (q = [] \/ exists q', q = 0 :: q').
Proof.
  induction t as [| c t (q & IH & Hq)]; simpl.
  - exists []. split; [reflexivity | left; reflexivity].
  - destruct (Z.eqb_spec c 0) as [-> | Hc].
    + exists (0 :: t). split; [reflexivity | right; eexists; reflexivity].
    + exists q. split; [simpl; congruence | exact Hq].
Qed.

Lemma until_null_length (t : text) : len (until_null t) <= len t.
Proof.
  destruct (until_null_split t) as (q & Ht & _). rewrite Ht at 2.
  rewrite len_app. pose proof (len_nonneg q). lia.
Qed.

Lemma until_null_find (t : text) :
  until_null t = if find_char 0 t >=? 0 then slice t 0 (find_char 0 t) else t.
Proof.
  induction t as [| c t IH]; simpl; [reflexivity |].
  destruct (Z.eqb_spec c 0) as [-> | Hc]; [reflexivity |].
  assert (-1 <= find_char 0 t <= len t) as Hrange.
  { clear. induction t as [| x t IHt]; simpl; [unfold len; simpl; lia |].
    unfold len in *. simpl length.
    destruct (x =? 0); [lia |]. destruct (Z.ltb_spec (find_char 0 t) 0); lia. }
  rewrite IH. destruct (Z.ltb_spec (find_char 0 t) 0) as [Hneg | Hpos].
  - destruct (Z.geb_spec (find_char 0 t) 0); [lia |]. reflexivity.
  - destruct (Z.geb_spec (find_char 0 t) 0); [| lia].
    destruct (Z.geb_spec (find_char 0 t + 1) 0); [| lia].
    rewrite !slice_inside by (unfold len in *; simpl length; lia).
    rewrite !Z.sub_0_r. simpl drop.
    replace (Z.to_nat (find_char 0 t + 1)) with (S (Z.to_nat (find_char 0 t))) by lia.
    reflexivity.
Qed.

Lemma until_null_seven_bit (t : text) : Forall seven_bit t -> Forall seven_bit (until_null t).
Proof.
  intros Ht. destruct (until_null_split t) as (q & Heq & _). rewrite Heq in Ht.
  apply Forall_app in Ht. apply Ht.
Qed.

Lemma cr_to_lf_until_null (t : text) : cr_to_lf (until_null t) = until_null (cr_to_lf t).
Proof.
  induction t as [| c t IH]; simpl; [reflexivity |].
  destruct (Z.eqb_spec c 0) as [-> | Hc]; [reflexivity |].
  destruct (Z.eqb_spec c 13) as [-> | Hc']; simpl.
  - f_equal. exact IH.
  - destruct (Z.eqb_spec c 0); [lia |]. simpl.
    destruct (Z.eqb_spec c 13); [lia |]. f_equal. exact IH.
Qed.

Lemma emit_stop (chars result : list Z) :
  emit true chars result = (result ++ until_null chars, bool_decide (0 ∈ chars)).
Proof.
  revert result. induction chars as [| c chars IH]; intros result;
    cbn [emit until_null andb].
  - rewrite app_nil_r, bool_decide_eq_false_2 by apply not_elem_of_nil. reflexivity.
  - destruct (Z.eqb_spec c 0) as [-> | Hc].
    + rewrite app_nil_r, bool_decide_eq_true_2 by apply list_elem_of_here. reflexivity.
    + rewrite IH, <- app_assoc. cbn [app]. f_equal.
      apply bool_decide_ext. rewrite elem_of_cons. intuition congruence.
Qed.

(** The loop from position [len pre] on, under [stop_at_null]. *)
Lemma decode_loop_stop (fuel : nat) :
  forall (pre rest result : list Z),
    (length rest <= fuel)%nat ->
    decode_loop fuel (pre ++ rest) true (len pre) result
    = finish (result ++ until_null (concat (map expand_group (groups_of_7 rest)))).
Proof.
  induction fuel as [| fuel IH]; intros pre rest result Hfuel.
  - rewrite decode_loop_short, groups_of_7_short by (rewrite ?len_app; unfold len; lia).
    simpl. rewrite app_nil_r. reflexivity.
  - destruct (decide (length rest < 7)%nat) as [Hshort | Hlong].
    + rewrite decode_loop_short, groups_of_7_short by (rewrite ?len_app; unfold len; lia).
      simpl. rewrite app_nil_r. reflexivity.
    + destruct rest as [| b0 [| b1 [| b2 [| b3 [| b4 [| b5 [| b6 rest]]]]]]];
        try (simpl in Hlong; lia).
      cbn [decode_loop groups_of_7 map concat].
      assert ((len pre + 6 <? len (pre ++ b0 :: b1 :: b2 :: b3 :: b4 :: b5 :: b6 :: rest)) = true)
        as ->.
      { apply Z.ltb_lt. rewrite len_app. unfold len. simpl length. lia. }
      change (pre ++ b0 :: b1 :: b2 :: b3 :: b4 :: b5 :: b6 :: rest)
        with (pre ++ [b0; b1; b2; b3; b4; b5; b6] ++ rest).
      change (len pre + 7) with (len pre + len [b0; b1; b2; b3; b4; b5; b6]).
      rewrite slice_middle, group_chars_expand, emit_stop, until_null_app.
      destruct (decide (0 ∈ expand_group [b0; b1; b2; b3; b4; b5; b6])) as [Hin | Hout].
      * rewrite !bool_decide_eq_true_2 by exact Hin. reflexivity.
      * rewrite !bool_decide_eq_false_2 by exact Hout.
        rewrite (until_null_no_null _ Hout).
        replace (len pre + len [b0; b1; b2; b3; b4; b5; b6])
          with (len (pre ++ [b0; b1; b2; b3; b4; b5; b6])) by (rewrite len_app; reflexivity).
        rewrite (app_assoc pre). rewrite IH by (simpl in Hfuel; lia).
        rewrite <- app_assoc. reflexivity.
Qed.

Lemma decode_7bit_true (d : list Z) :
  decode_7bit d true = Ok (until_null (decode_fully_spec d)).
Proof.
  unfold decode_7bit, decode_fully_spec.
  change (decode_loop (length d) d true 0 [])
    with (decode_loop (length d) ([] ++ d) true (len (@nil Z)) []).
  rewrite decode_loop_stop by lia. simpl app.
  rewrite <- cr_to_lf_until_null.
  apply finish_seven_bit, until_null_seven_bit, expand_groups_seven_bit.
Qed.

Lemma expand_groups_length (d : list Z) :
  len (concat (map expand_group (groups_of_7 d))) = 8 * (len d / 7).
Proof.
  induction d as [d IH] using (induction_ltof1 _ (@length Z)). unfold ltof in IH.
  destruct (decide (length d < 7)%nat) as [Hshort | Hlong].
  - rewrite groups_of_7_short by exact Hshort. simpl.
    rewrite Z.div_small by (unfold len; lia). reflexivity.
  - destruct d as [| b0 [| b1 [| b2 [| b3 [| b4 [| b5 [| b6 rest]]]]]]];
      try (simpl in Hlong; lia).
    cbn [groups_of_7 map concat]. rewrite len_app, IH by (simpl; lia).
    replace (len (b0 :: b1 :: b2 :: b3 :: b4 :: b5 :: b6 :: rest)) with (len rest + 1 * 7)
      by (unfold len; simpl length; lia).
    rewrite Z.div_add by lia. unfold len at 1. simpl. lia.
Qed.

Lemma decode_fully_length (d : list Z) : len (decode_fully_spec d) = 8 * (len d / 7).
Proof.
  unfold decode_fully_spec, cr_to_lf. unfold len at 1. rewrite length_map.
  apply expand_groups_length.
Qed.

(** X1: under [stop_at_null] the decoder returns the text that it returns
    without it, cut before the first null byte; so the text of that mode
    holds no null byte, and equals the full text when that holds none. *)
Theorem decode_7bit_stop_is_prefix (d : list Z) :
  exists t_full, decode_7bit d false = Ok t_full
    /\ decode_7bit d true = Ok (until_null t_full)
    /\ (0 ∉ until_null t_full)
    /\ exists rest, t_full = until_null t_full ++ rest
         /\ (rest = [] \/ exists rest', rest = 0 :: rest').
Proof.
  exists (decode_fully_spec d).
  split; [apply decode_7bit_false |].
  split; [apply decode_7bit_true |].
  split; [apply until_null_clean | apply until_null_split].
Qed.

(** X2: the decoder turns every full group of seven bytes into eight
    characters and drops a shorter remainder: without [stop_at_null] the
    text has [8 * (len(compressed_data) // 7)] characters, with it at
    most as many. *)
Theorem decode_7bit_length (d : list Z) (stop_at_null : bool) :
  exists t, decode_7bit d stop_at_null = Ok t
    /\ len t <= 8 * (len d / 7)
    /\ (stop_at_null = false -> len t = 8 * (len d / 7)).
Proof.
  destruct stop_at_null.
  - exists (until_null (decode_fully_spec d)).
    split; [apply decode_7bit_true |]. split; [| discriminate].
    rewrite <- decode_fully_length. apply until_null_length.
  - exists (decode_fully_spec d).
    split; [apply decode_7bit_false |].
    rewrite decode_fully_length. split; [lia | reflexivity].
Qed.

(** ** The codec is onto *)

Lemma testbit_above_7 (c n : Z) : 0 <= c < 128 -> 7 <= n -> Z.testbit c n = false.
Proof.
  intros Hc Hn. rewrite <- (Z.mod_small c (2 ^ 7)) by (simpl; lia).
  apply Z.mod_pow2_bits_high. lia.
Qed.

Lemma packed_low (c x : Z) : 0 <= c < 128 -> Z.lor c (Z.shiftl x 7) `mod` 128 = c.
Proof.
  intros Hc. apply Z.bits_inj'. intros n Hn. change 128 with (2 ^ 7).
  destruct (Z.lt_ge_cases n 7) as [Hlow | Hhigh].
  - rewrite Z.mod_pow2_bits_low, Z.lor_spec, Z.shiftl_spec_low by lia. apply orb_false_r.
  - rewrite Z.mod_pow2_bits_high by lia. symmetry. apply testbit_above_7; lia.
Qed.

Lemma packed_high (c c8 k : Z) :
  0 <= c < 128 -> 0 <= k ->
  Z.testbit (Z.lor c (Z.shiftl (Z.land (Z.shiftr c8 k) 1) 7)) 7 = Z.testbit c8 k.
Proof.
  intros Hc Hk. rewrite Z.lor_spec, Z.shiftl_spec, Z.land_spec, Z.shiftr_spec by lia.
  rewrite (testbit_above_7 c 7) by lia. simpl. apply andb_true_r.
Qed.

Lemma packed_range (c y : Z) :
  0 <= c < 128 -> 0 <= Z.lor c (Z.shiftl (Z.land y 1) 7) < 256.
Proof.
  intros Hc. change 1 with (Z.ones 1). rewrite Z.land_ones by lia.
  change (2 ^ 1) with 2. pose proof (Z.mod_pos_bound y 2 ltac:(lia)) as Hy.
  assert (forall z, 0 <= z < 256 -> 0 <= Z.lor c z < 256) as Hlor.
  { intros z Hz. split; [apply Z.lor_nonneg; lia |].
    destruct (Z.eq_dec (Z.lor c z) 0) as [-> | Hne]; [lia |].
    change 256 with (2 ^ 8). apply Z.log2_lt_pow2; [pose proof (Z.lor_nonneg c z); lia |].
    rewrite Z.log2_lor by lia.
    apply Z.max_lub_lt.
    - destruct (Z.eq_dec c 0) as [-> | Hc0]; [simpl; lia |].
      apply Z.log2_lt_pow2; simpl; lia.
    - destruct (Z.eq_dec z 0) as [-> | Hz0]; [simpl; lia |].
      apply Z.log2_lt_pow2; simpl; lia. }
  apply Hlor. rewrite Z.shiftl_mul_pow2 by lia. simpl. lia.
Qed.

Lemma pack_group_expand (c0 c1 c2 c3 c4 c5 c6 c7 : Z) :
  Forall seven_bit [c0; c1; c2; c3; c4; c5; c6; c7] ->
  exists b0 b1 b2 b3 b4 b5 b6,
    Fixture.pack_group [c0; c1; c2; c3; c4; c5; c6; c7] = [b0; b1; b2; b3; b4; b5; b6]
    /\ is_bytes [b0; b1; b2; b3; b4; b5; b6]
    /\ expand_group [b0; b1; b2; b3; b4; b5; b6] = [c0; c1; c2; c3; c4; c5; c6; c7].
Proof.
  intros Hc. unfold seven_bit in Hc.
  repeat (apply Forall_cons in Hc; destruct Hc as [? Hc]).
  exists (Z.lor c0 (Z.shiftl (Z.land (Z.shiftr c7 0) 1) 7)),
         (Z.lor c1 (Z.shiftl (Z.land (Z.shiftr c7 1) 1) 7)),
         (Z.lor c2 (Z.shiftl (Z.land (Z.shiftr c7 2) 1) 7)),
         (Z.lor c3 (Z.shiftl (Z.land (Z.shiftr c7 3) 1) 7)),
         (Z.lor c4 (Z.shiftl (Z.land (Z.shiftr c7 4) 1) 7)),
         (Z.lor c5 (Z.shiftl (Z.land (Z.shiftr c7 5) 1) 7)),
         (Z.lor c6 (Z.shiftl (Z.land (Z.shiftr c7 6) 1) 7)).
  split; [reflexivity |]. split.
  - unfold is_bytes, byte_ok. repeat (apply Forall_cons; split; [apply packed_range; lia |]).
    apply Forall_nil. exact I.
  - unfold expand_group. cbn [map app]. rewrite !packed_low by lia.
    do 7 f_equal. f_equal.
    apply Z.bits_inj'. intros n Hn.
    destruct (Z.lt_ge_cases n 7) as [Hlow | Hhigh].
    + rewrite <- (Z2Nat.id n) by lia.
      rewrite assemble_high_bits by lia.
      assert (Z.to_nat n < 7)%nat as Hk by lia.
      destruct (Z.to_nat n) as [| [| [| [| [| [| [| k]]]]]]]; try lia.
      all: cbv [lookup list_lookup default from_option id].
      all: rewrite packed_high by lia; reflexivity.
    + rewrite (testbit_above_7 c7 n) by lia.
      match goal with |- Z.testbit (assemble_high ?g) n = false =>
        pose proof (assemble_high_range g) as Hr end.
      apply testbit_above_7; [exact Hr | lia].
Qed.

Lemma pack_decode (n : nat) :
  forall t : text,
    length t = (8 * n)%nat -> Forall seven_bit t ->
    is_bytes (Fixture.pack n t)
    /\ length (Fixture.pack n t) = (7 * n)%nat
    /\ concat (map expand_group (groups_of_7 (Fixture.pack n t))) = t.
Proof.
  induction n as [| n IH]; intros t Hlen Ht.
  - destruct t; [| simpl in Hlen; lia]. simpl.
    split; [apply Forall_nil; exact I |]. split; reflexivity.
  - destruct t as [| c0 [| c1 [| c2 [| c3 [| c4 [| c5 [| c6 [| c7 t]]]]]]]];
      try (simpl in Hlen; lia).
    change (c0 :: c1 :: c2 :: c3 :: c4 :: c5 :: c6 :: c7 :: t)
      with ([c0; c1; c2; c3; c4; c5; c6; c7] ++ t) in Ht.
    apply Forall_app in Ht. destruct Ht as [Hc Ht].
    destruct (pack_group_expand _ _ _ _ _ _ _ _ Hc)
      as (b0 & b1 & b2 & b3 & b4 & b5 & b6 & Hpack & Hbytes & Hexp).
    destruct (IH t) as (IHb & IHl & IHd); [simpl in Hlen; lia | exact Ht |].
    assert (Fixture.pack (S n) (c0 :: c1 :: c2 :: c3 :: c4 :: c5 :: c6 :: c7 :: t)
            = Fixture.pack_group [c0; c1; c2; c3; c4; c5; c6; c7] ++ Fixture.pack n t) as ->.
    { cbn [Fixture.pack take drop]. rewrite take_0. reflexivity. }
    rewrite Hpack. split_and!.
    + apply Forall_app. split; [exact Hbytes | exact IHb].
    + rewrite length_app, IHl. simpl. lia.
    + cbn [app groups_of_7 map concat]. rewrite Hexp, IHd. reflexivity.
Qed.

Lemma cr_to_lf_id (t : text) : 13 ∉ t -> cr_to_lf t = t.
Proof.
  intros Ht. unfold cr_to_lf. rewrite <- (map_id t) at 2. apply map_ext_in.
  intros c Hc. apply list_elem_of_In in Hc.
  destruct (Z.eqb_spec c 13) as [-> | _]; [contradiction | reflexivity].
Qed.

(** X3: the decoder reaches every text that its output format allows: a
    text of [8 * n] seven-bit characters with no carriage return is what
    the decoder returns for some [7 * n] bytes. *)
Theorem decode_7bit_onto (t : text) (n : Z) :
  Forall seven_bit t -> (13 ∉ t) -> len t = 8 * n ->
  exists d, is_bytes d /\ len d = 7 * n /\ decode_7bit d false = Ok t.
Proof.
  intros Ht Hcr Hlen.
  destruct (pack_decode (Z.to_nat n) t) as (Hb & Hl & Hd);
    [unfold len in Hlen; lia | exact Ht |].
  exists (Fixture.pack (Z.to_nat n) t). split; [exact Hb |].
  split; [unfold len in *; lia |].
  rewrite decode_7bit_false. unfold decode_fully_spec. rewrite Hd.
  f_equal. apply cr_to_lf_id, Hcr.
Qed.

Lemma decode_7bit_onto_witness :
  exists d, is_bytes d /\ len d = 7 * 1
            /\ decode_7bit d false = Ok (str "Subject" ++ [10]).
Proof.
  apply (decode_7bit_onto (str "Subject" ++ [10]) 1).
  - unfold seven_bit. apply (bool_decide_unpack _). vm_compute. exact I.
  - apply (bool_decide_unpack _). vm_compute. exact I.
  - reflexivity.
Defined.

(** ** The message-start test in the two decoder modes *)

Lemma split_on_app (sep : Z) (p q : text) :
  exists ls l m ms,
    split_on sep p = ls ++ [l]
    /\ split_on sep q = m :: ms
    /\ split_on sep (p ++ q) = ls ++ [l ++ m] ++ ms.
Proof.
  induction p as [| c p (ls & l & m & ms & Hp & Hq & Hpq)].
  - assert (exists m ms, split_on sep q = m :: ms) as (m & ms & Hq).
    { destruct q as [| c q]; simpl; [eauto |].
      destruct (c =? sep); [eauto |]. destruct (split_on sep q); eauto. }
    exists [], [], m, ms. split; [reflexivity |]. split; [exact Hq |].
    simpl. exact Hq.
  - cbn [split_on app]. destruct (c =? sep).
    + exists ([] :: ls), l, m, ms. rewrite Hp, Hpq. split_and!; [reflexivity | exact Hq | reflexivity].
    + rewrite Hp, Hpq. destruct ls as [| x ls]; simpl.
      * exists [], (c :: l), m, ms. split_and!; [reflexivity | exact Hq | reflexivity].
      * exists ((c :: x) :: ls), l, m, ms. split_and!; [reflexivity | exact Hq | reflexivity].
Qed.

Lemma starts_with_app (pat l m : text) :
  starts_with pat l = true -> starts_with pat (l ++ m) = true.
Proof.
  revert l. induction pat as [| p pat IH]; intros l Hl; [reflexivity |].
  destruct l as [| c l]; simpl in *; [discriminate |].
  apply andb_true_iff in Hl. destruct Hl as [-> Hl]. simpl. apply IH, Hl.
Qed.

Lemma contains_app (pat l m : text) :
  contains pat l = true -> contains pat (l ++ m) = true.
Proof.
  induction l as [| c l IH]; intros Hl.
  - simpl in Hl. rewrite orb_false_r in Hl.
    destruct pat; [| discriminate]. destruct m; reflexivity.
  - cbn [contains app] in *. apply orb_true_iff in Hl. apply orb_true_iff.
    destruct Hl as [Hl | Hl]; [left | right; apply IH, Hl].
    change (c :: l ++ m) with ((c :: l) ++ m). apply starts_with_app, Hl.
Qed.

Lemma is_message_start_app (p q : text) :
  is_message_start p = true -> is_message_start (p ++ q) = true.
Proof.
  unfold is_message_start.
  destruct (split_on_app 10 p q) as (ls & l & m & ms & -> & _ & ->).
  destruct (Z.ltb_spec (len (ls ++ [l])) 4) as [| Hlen]; [discriminate |].
  unfold len in *. rewrite length_app in Hlen. simpl in Hlen.
  destruct (Z.ltb_spec (Z.of_nat (length (ls ++ [l ++ m] ++ ms))) 4) as [Hshort |].
  { rewrite !length_app in Hshort. simpl in Hshort. lia. }
  destruct ls as [| l0 [| l1 [| l2 ls]]]; try (simpl in Hlen; lia).
  unfold line_at. cbn [app lookup list_lookup default from_option id].
  destruct (match_number_comma l1 && match_number_comma l2); [| discriminate].
  cbn [negb].
  destruct ls as [| l3 ls]; cbn [app lookup list_lookup default from_option id];
    [| exact (fun H => H)].
  intros Hl.
  destruct (contains (str "Date") l) eqn:Hdate; [| discriminate].
  rewrite (contains_app _ _ m Hdate). cbn [andb] in *.
  destruct (contains (str ":") l) eqn:Hcolon.
  - rewrite (contains_app _ _ m Hcolon). reflexivity.
  - destruct (contains (str "->") l) eqn:Harrow; [| discriminate].
    rewrite (contains_app _ _ m Harrow). rewrite orb_true_r. reflexivity.
Qed.

(** X4: a payload that passes the message-start test of PHASE 2, which
    reads the text decoded under [stop_at_null], also passes the test of
    the chain follower, which reads the text decoded in full: a walk that
    runs into such a block after its first block stops there. *)
Theorem message_start_in_both_modes (d : list Z) (t_stop t_full : text) :
  decode_7bit d true = Ok t_stop ->
  decode_7bit d false = Ok t_full ->
  is_message_start t_stop = true ->
  is_message_start t_full = true.
Proof.
  rewrite decode_7bit_true, decode_7bit_false. intros [= <-] [= <-] Hstart.
  destruct (until_null_split (decode_fully_spec d)) as (q & Heq & _).
  rewrite Heq. apply is_message_start_app, Hstart.
Qed.

Lemma message_start_in_both_modes_witness :
  let d := Fixture.pack 18 (take 144 (Fixture.header_text ++ replicate 144 0)) in
  decode_7bit d true = Ok (replace_char 13 10 Fixture.header_text)
  /\ is_message_start (replace_char 13 10 Fixture.header_text) = true
  /\ is_message_start
       (replace_char 13 10 (take 144 (Fixture.header_text ++ replicate 144 0))) = true.
Proof.
  split; [vm_compute; reflexivity |]. split; [vm_compute; reflexivity |].
  apply (message_start_in_both_modes
           (Fixture.pack 18 (take 144 (Fixture.header_text ++ replicate 144 0)))
           (replace_char 13 10 Fixture.header_text)
           (replace_char 13 10 (take 144 (Fixture.header_text ++ replicate 144 0))));
    vm_compute; reflexivity.
Defined.

(** ** The text that the chain follower returns *)

(** A text of the program: 7-bit code points, no carriage return. *)
Lemma cr_to_lf_no_cr (t : text) : 13 ∉ cr_to_lf t.
Proof.
  unfold cr_to_lf. intros Hin. apply list_elem_of_fmap in Hin.
  destruct Hin as (c & Hc & _). destruct (Z.eqb_spec c 13); lia.
Qed.

Lemma lstrip_char_suffix (c : Z) (t : text) : exists pre, t = pre ++ lstrip_char c t.
Proof.
  induction t as [| x t (pre & IH)]; simpl.
  - exists []. reflexivity.
  - destruct (x =? c).
    + exists (x :: pre). simpl. congruence.
    + exists []. reflexivity.
Qed.

Lemma full_message_until_null (w : walk) :
  full_message w = until_null (concat (message_parts w)).
Proof. unfold full_message. rewrite until_null_find. reflexivity. Qed.

Section Text.
Variables (data : list Z) (total_blocks : Z) (stop_blocks : gset Z) (data_offset : Z).
Hypothesis data_bytes : is_bytes data.
Hypothesis offset_nonneg : 0 <= data_offset.

Abbreviation loop_body := (loop_body data total_blocks stop_blocks data_offset).
Abbreviation run_loop := (run_loop data total_blocks stop_blocks data_offset).
Abbreviation body_rel := (body_rel data total_blocks stop_blocks data_offset).
Abbreviation walk_inv := (walk_inv total_blocks stop_blocks).
Abbreviation in_range := (in_range data total_blocks data_offset).
Abbreviation block_text := (block_text data data_offset).
Abbreviation part_of := (part_of data data_offset).

Lemma block_text_clean (b : Z) : Forall seven_bit (block_text b) /\ 13 ∉ block_text b.
Proof.
  unfold Gbbs.block_text, decode_fully_spec. split.
  - apply cr_to_lf_seven_bit, expand_groups_seven_bit.
  - apply cr_to_lf_no_cr.
Qed.

Lemma part_of_clean (w : walk) : Forall seven_bit (part_of w) /\ 13 ∉ part_of w.
Proof.
  unfold Gbbs.part_of. destruct (block_text_clean (current_block w)) as [H7 Hcr].
  destruct (first_block w); [split; assumption |].
  destruct (lstrip_char_suffix 0 (block_text (current_block w))) as (pre & Heq).
  rewrite Heq in H7, Hcr. apply Forall_app in H7. rewrite elem_of_app in Hcr.
  split; [apply H7 | tauto].
Qed.

(** What the parts of the message are when the loop is left. *)
Lemma run_loop_parts (start_block : Z) (fuel : nat) (w' : walk) :
  0 <= start_block ->
  run_loop fuel (initial_walk start_block) = Ok w' ->
  Forall (fun p => Forall seven_bit p /\ 13 ∉ p) (message_parts w')
  /\ ((message_parts w' = []
       /\ (start_block = 0 \/ start_block ∈ stop_blocks \/ in_range start_block = false))
      \/ (start_block <> 0 /\ (start_block ∉ stop_blocks) /\ in_range start_block = true
          /\ exists rest, concat (message_parts w') = block_text start_block ++ rest)).
Proof.
  intros Hstart.
  set (clean := fun w : walk =>
         Forall (fun p => Forall seven_bit p /\ 13 ∉ p) (message_parts w)).
  set (begun := fun w : walk =>
         start_block <> 0 /\ (start_block ∉ stop_blocks) /\ in_range start_block = true
         /\ exists rest, concat (message_parts w) = block_text start_block ++ rest).
  set (Inv := fun w : walk =>
         walk_inv w /\ clean w
         /\ ((first_block w = true /\ message_parts w = [] /\ current_block w = start_block
              /\ visited w = ∅)
             \/ (first_block w = false /\ begun w))).
  set (Q := fun w : walk =>
         clean w
         /\ ((message_parts w = []
              /\ (start_block = 0 \/ start_block ∈ stop_blocks \/ in_range start_block = false))
             \/ begun w)).
  assert (forall w next, Inv w -> loop_condition w = true ->
            (current_block w ∉ stop_blocks) -> in_range (current_block w) = true ->
            clean (goto next (append_part (part_of w) (mark w)))
            /\ begun (goto next (append_part (part_of w) (mark w)))) as Happend.
  { intros w next (Hinv & Hclean & Hcase) Hcond Hstop Hrange.
    apply loop_condition_true in Hcond. destruct Hcond as [Hnz _].
    unfold clean, begun. cbn [goto append_part mark message_parts]. split.
    - apply Forall_app. split; [exact Hclean |]. apply Forall_singleton, part_of_clean.
    - destruct Hcase as [(Hfirst & Hparts & Hcur & _) | (Hfirst & Hnz' & Hfree & Hin & rest & Hrest)].
      + rewrite <- Hcur. split; [exact Hnz |]. split; [exact Hstop |]. split; [exact Hrange |].
        exists []. rewrite Hparts. unfold Gbbs.part_of. rewrite Hfirst. simpl.
        rewrite !app_nil_r. reflexivity.
      + split; [exact Hnz' |]. split; [exact Hfree |]. split; [exact Hin |].
        exists (rest ++ part_of w). rewrite concat_app, Hrest. simpl.
        rewrite app_nil_r, app_assoc. reflexivity. }
  assert (forall w w', Inv w -> run_loop fuel w = Ok w' -> Q w') as Hpost.
  { apply (run_loop_post data total_blocks stop_blocks data_offset Inv Q).
    - intros w (Hinv & Hclean & Hcase) Hcond. split; [exact Hclean |].
      destruct Hcase as [(_ & Hparts & Hcur & Hvis) | (_ & Hb)]; [left | right; exact Hb].
      split; [exact Hparts |]. left.
      unfold loop_condition in Hcond. rewrite Hvis, Hcur in Hcond.
      rewrite bool_decide_eq_false_2 in Hcond by set_solver.
      rewrite andb_true_r in Hcond. apply negb_false_iff, Z.eqb_eq in Hcond. exact Hcond.
    - intros w w1 HI Hcond Hbody.
      pose proof HI as (Hinv & Hclean & Hcase).
      destruct (loop_body_at_head data total_blocks stop_blocks data_offset offset_nonneg
                  w Hinv Hcond) as (s & Hs & Hrel).
      rewrite Hbody in Hs. injection Hs as <-.
      destruct (body_continue data total_blocks stop_blocks data_offset data_bytes
                  w w1 Hinv Hcond Hrel) as (Hinv1 & _).
      split; [exact Hinv1 |].
      inversion Hrel; subst w1;
        (edestruct Happend as [Hc Hb]; [exact HI | exact Hcond | eassumption | eassumption |]);
        (split; [exact Hc | right; split; [reflexivity | exact Hb]]).
    - intros w w1 HI Hcond Hbody.
      pose proof HI as (Hinv & Hclean & Hcase).
      destruct (loop_body_at_head data total_blocks stop_blocks data_offset offset_nonneg
                  w Hinv Hcond) as (s & Hs & Hrel).
      rewrite Hbody in Hs. injection Hs as <-.
      inversion Hrel as [Hstop | Hstop Hrange | Hstop Hrange Hfirst Hms | | | | |]; subst w1.
      + split; [exact Hclean |].
        destruct Hcase as [(_ & Hparts & Hcur & _) | (_ & Hb)]; [left | right; exact Hb].
        split; [exact Hparts |]. right. left. rewrite <- Hcur. exact Hstop.
      + split; [exact Hclean |].
        destruct Hcase as [(_ & Hparts & Hcur & _) | (_ & Hb)]; [left | right; exact Hb].
        split; [exact Hparts |]. right. right. rewrite <- Hcur. exact Hrange.
      + split; [exact Hclean |].
        destruct Hcase as [(Hf & _) | (_ & Hb)]; [congruence | right; exact Hb].
      + edestruct (Happend w 0) as [Hc Hb];
          [exact HI | exact Hcond | eassumption | eassumption |].
        split; [exact Hc | right; exact Hb].
      + edestruct (Happend w 0) as [Hc Hb];
          [exact HI | exact Hcond | eassumption | eassumption |].
        split; [exact Hc | right; exact Hb].
      + edestruct (Happend w 0) as [Hc Hb];
          [exact HI | exact Hcond | eassumption | eassumption |].
        split; [exact Hc | right; exact Hb]. }
  intros Hrun. apply (Hpost (initial_walk start_block)); [| exact Hrun].
  split; [apply initial_walk_inv, Hstart |]. split; [apply Forall_nil; exact I |].
  left. cbn. repeat split; reflexivity.
Qed.

(** What a caller may rely on for the text. *)
Lemma follow_chain_text (start_block : Z) :
  0 <= start_block ->
  exists message chain_blocks,
    follow_chain_with_tracking data start_block total_blocks stop_blocks data_offset
    = Ok (message, chain_blocks)
    /\ Forall seven_bit message /\ (0 ∉ message) /\ (13 ∉ message)
    /\ ((start_block = 0 \/ start_block ∈ stop_blocks \/ in_range start_block = false)
        -> message = [])
    /\ (start_block <> 0 -> start_block ∉ stop_blocks -> in_range start_block = true ->
        exists rest, message = until_null (block_text start_block ++ rest)).
Proof.
  intros Hstart.
  destruct (follow_chain_returns data total_blocks stop_blocks data_offset data_bytes
              offset_nonneg start_block Hstart) as [w Hw].
  specialize (Hw (walk_fuel total_blocks)). unfold walk_fuel in Hw.
  specialize (Hw ltac:(lia)).
  destruct (run_loop_parts start_block _ w Hstart Hw) as (Hclean & Hcase).
  exists (full_message w), (blocks_used w).
  split. { unfold follow_chain_with_tracking, Gbbs.follow_chain_fuel, walk_fuel.
           rewrite Hw. reflexivity. }
  rewrite full_message_until_null.
  assert (Forall seven_bit (concat (message_parts w)) /\ 13 ∉ concat (message_parts w))
    as [H7 Hcr].
  { split.
    - apply Forall_concat. eapply Forall_impl; [exact Hclean |]. intros p Hp. apply Hp.
    - intros Hin. apply list_elem_of_In, in_concat in Hin. destruct Hin as (p & Hp & Hin).
      rewrite Forall_forall in Hclean.
      apply list_elem_of_In in Hp, Hin. apply (Hclean p Hp), Hin. }
  split; [apply until_null_seven_bit, H7 |].
  split; [apply until_null_clean |].
  split.
  { destruct (until_null_split (concat (message_parts w))) as (q & Heq & _).
    rewrite Heq in Hcr. rewrite elem_of_app in Hcr. tauto. }
  split.
  - intros Hbad. destruct Hcase as [(-> & _) | (Hnz & Hfree & Hin & _)]; [reflexivity |].
    destruct Hbad as [? | [? | ?]]; [contradiction | contradiction | congruence].
  - intros Hnz Hfree Hin.
    destruct Hcase as [(_ & [? | [? | ?]]) | (_ & _ & _ & rest & Hrest)];
      [contradiction | contradiction | congruence |].
    exists rest. rewrite Hrest. reflexivity.
Qed.
End Text.

(** X5: the text of a message holds 7-bit characters only, no null byte
    and no carriage return, whatever the bytes of the store and wherever
    the walk starts. *)
Theorem message_text_is_clean (data : list Z) (start_block total_blocks : Z)
    (stop_blocks : gset Z) (data_offset : Z) :
  is_bytes data -> 0 <= data_offset -> 0 <= start_block ->
  exists message chain_blocks,
    follow_chain_with_tracking data start_block total_blocks stop_blocks data_offset
    = Ok (message, chain_blocks)
    /\ Forall seven_bit message /\ (0 ∉ message) /\ (13 ∉ message).
Proof.
  intros Hb Ho Hs.
  destruct (follow_chain_text data total_blocks stop_blocks data_offset Hb Ho start_block Hs)
    as (message & blocks & Hrun & H7 & Hnull & Hcr & _).
  exists message, blocks. split_and!; assumption.
Qed.

Lemma message_text_is_clean_witness :
  exists message chain_blocks,
    follow_chain_with_tracking Fixture.two_blocks 1 2 ∅ 264 = Ok (message, chain_blocks)
    /\ Forall seven_bit message /\ (0 ∉ message) /\ (13 ∉ message).
Proof.
  apply (message_text_is_clean Fixture.two_blocks 1 2 ∅ 264).
  - apply bytes_check_sound. vm_compute. reflexivity.
  - lia.
  - lia.
Defined.

(** X6: the text of a message is the text of its first block followed by
    what the later blocks add, cut before the first null byte: when the
    text of the first block holds a null byte, the message ends there and
    the texts of the later blocks of the chain are not in it.  A walk
    that starts at block 0, at a claimed block or at a block outside the
    data area returns the empty text. *)
Theorem message_text_starts_with_head (data : list Z) (start_block total_blocks : Z)
    (stop_blocks : gset Z) (data_offset : Z) :
  is_bytes data -> 0 <= data_offset -> 0 <= start_block ->
  exists message chain_blocks,
    follow_chain_with_tracking data start_block total_blocks stop_blocks data_offset
    = Ok (message, chain_blocks)
    /\ ((start_block = 0 \/ start_block ∈ stop_blocks
         \/ in_range data total_blocks data_offset start_block = false)
        -> message = [])
    /\ (start_block <> 0 -> start_block ∉ stop_blocks ->
        in_range data total_blocks data_offset start_block = true ->
        (exists rest, message = until_null (block_text data data_offset start_block ++ rest))
        /\ (0 ∈ block_text data data_offset start_block ->
            message = until_null (block_text data data_offset start_block))).
Proof.
  intros Hb Ho Hs.
  destruct (follow_chain_text data total_blocks stop_blocks data_offset Hb Ho start_block Hs)
    as (message & blocks & Hrun & _ & _ & _ & Hempty & Hhead).
  exists message, blocks. split; [exact Hrun |]. split; [exact Hempty |].
  intros Hnz Hfree Hin. destruct (Hhead Hnz Hfree Hin) as (rest & ->).
  split; [exists rest; reflexivity |].
  intros Hnull. rewrite until_null_app, bool_decide_eq_true_2 by exact Hnull. reflexivity.
Qed.

Lemma message_text_starts_with_head_witness :
  exists message chain_blocks,
    follow_chain_with_tracking Fixture.two_blocks 1 2 ∅ 264 = Ok (message, chain_blocks)
    /\ ((1 = 0 \/ 1 ∈ (∅ : gset Z) \/ in_range Fixture.two_blocks 2 264 1 = false)
        -> message = [])
    /\ (1 <> 0 -> 1 ∉ (∅ : gset Z) -> in_range Fixture.two_blocks 2 264 1 = true ->
        (exists rest, message = until_null (block_text Fixture.two_blocks 264 1 ++ rest))
        /\ (0 ∈ block_text Fixture.two_blocks 264 1 ->
            message = until_null (block_text Fixture.two_blocks 264 1))).
Proof.
  apply (message_text_starts_with_head Fixture.two_blocks 1 2 ∅ 264).
  - apply bytes_check_sound. vm_compute. reflexivity.
  - lia.
  - lia.
Defined.

(** The header block of [two_blocks] is padded with null bytes: the walk
    consumes both blocks, and the text is that of the header alone. *)
Example padded_head_walk :
  follow_chain_with_tracking Fixture.two_blocks 1 2 ∅ 264
  = Ok (replace_char 13 10 Fixture.header_text, {[1; 2]}).
Proof. vm_compute. reflexivity. Qed.

(** ** The classification of blocks by the bulletin scanner *)

(** The rule for a [for] loop whose body never leaves the loop; the
    invariant may speak of the elements still to come. *)
Lemma for_each_rest {A S : Type} (body : A -> S -> outcome (flow S))
    (I : list A -> S -> Prop) :
  (forall x l s, I (x :: l) s -> exists s', body x s = Ok (Next s') /\ I l s') ->
  forall l s, I l s -> exists s', for_each body l s = Ok s' /\ I [] s'.
Proof.
  intros Hbody. induction l as [| x l IH]; intros s Hs.
  - exists s. split; [reflexivity | exact Hs].
  - destruct (Hbody x l s Hs) as (s1 & Hrun & Hs1). cbn [for_each]. rewrite Hrun.
    cbn [mbind outcome_bind bind]. apply IH, Hs1.
Qed.

Lemma strictly_sorted (l : list Z) :
  StronglySorted Z.le l -> NoDup l -> StronglySorted Z.lt l.
Proof.
  induction 1 as [| a l Hl IH Ha]; intros Hnd; [constructor |].
  apply NoDup_cons in Hnd. destruct Hnd as [Hnew Hnd].
  constructor; [apply IH, Hnd |].
  rewrite Forall_forall in Ha. apply Forall_forall. intros y Hy.
  specialize (Ha y Hy). assert (a <> y) by (intros ->; contradiction). lia.
Qed.

Lemma sorted_unused_sorted (total_blocks : Z) (used : gset Z) :
  StronglySorted Z.lt (sorted_unused total_blocks used).
Proof.
  unfold sorted_unused. apply strictly_sorted.
  - apply StronglySorted_merge_sort; apply _.
  - rewrite merge_sort_Permutation. apply NoDup_elements.
Qed.

Lemma sorted_unused_elem (total_blocks : Z) (used : gset Z) (b : Z) :
  b ∈ sorted_unused total_blocks used <-> 1 <= b <= total_blocks /\ b ∉ used.
Proof.
  unfold sorted_unused. rewrite merge_sort_Permutation, elem_of_elements, elem_of_difference.
  unfold all_blocks, range2. rewrite elem_of_list_to_set, elem_of_seqZ.
  split; intros [? ?]; (split; [lia | assumption]).
Qed.

(** The blocks that the scanner counts all lie in the file. *)
Lemma total_blocks_in_file (data : list Z) (info : msginfo) (b : Z) :
  1 <= b <= total_blocks_of data info ->
  data_offset info + (b - 1) * 128 + 128 <= len data.
Proof.
  unfold total_blocks_of. intros Hb.
  pose proof (Z.mul_div_le (len data - data_offset info) 128 ltac:(lia)). lia.
Qed.

Section Classes.
Context `{DateLibrary}.
Variables (data : list Z) (info : msginfo) (total_blocks : Z).
Hypothesis data_bytes : is_bytes data.
Hypothesis dir_nonneg : 0 <= dir_offset info.
Hypothesis data_nonneg : 0 <= data_offset info.
Hypothesis blocks_in_file :
  forall b, 1 <= b <= total_blocks -> data_offset info + (b - 1) * 128 + 128 <= len data.

Abbreviation phase2_body := (phase2_body data info total_blocks).
Abbreviation phase3_body := (phase3_body data info total_blocks).
Abbreviation dense := (dense data (data_offset info)).
Abbreviation passes_heuristic := (passes_heuristic data (data_offset info)).
Abbreviation follow b used :=
  (follow_chain_with_tracking data b total_blocks used (data_offset info)).

(** What one execution of the body of PHASE 2 does to a block. *)
Lemma phase2_body_cases (b : Z) (s : scan_state) :
  1 <= b <= total_blocks ->
  (phase2_body b s = Ok (Next s)
   /\ (b ∈ st_used_blocks s \/ dense b = false \/ passes_heuristic b = false))
  \/ ((b ∉ st_used_blocks s) /\ dense b = true /\ passes_heuristic b = true
      /\ exists message chain_blocks,
          follow b (st_used_blocks s) = Ok (message, chain_blocks)
          /\ b ∈ chain_blocks
          /\ phase2_body b s
             = Ok (Next (ScanState (st_used_blocks s ∪ chain_blocks) (st_active s)
                           (st_deleted s
                            ++ [(DeletedRecord b message (parse_date message), chain_blocks)])
                           (st_deleted_all_blocks s ∪ chain_blocks) (st_orphaned s)))).
Proof.
  intros Hb. unfold Gbbs.phase2_body, Gbbs.dense, Gbbs.passes_heuristic, payload, offset_of.
  destruct (bool_decide_reflect (b ∈ st_used_blocks s)) as [Hused | Hfree].
  { left. split; [reflexivity | left; exact Hused]. }
  rewrite Z.gtb_ltb.
  destruct (Z.ltb_spec (len data) (data_offset info + (b - 1) * 128 + 128)) as [Hout | _].
  { specialize (blocks_in_file b Hb). lia. }
  destruct (non_null_count _ <? 10).
  { left. split; [reflexivity | right; left; reflexivity]. }
  destruct (decode_7bit_total
              (slice data (data_offset info + (b - 1) * 128)
                 (data_offset info + (b - 1) * 128 + 126)) true) as (decoded & Hdec & _).
  rewrite Hdec. cbn [mbind outcome_bind bind].
  destruct (is_message_start decoded).
  2: { left. split; [reflexivity | right; right; reflexivity]. }
  right. cbn [negb].
  destruct (follow_chain_spec data total_blocks (st_used_blocks s) (data_offset info)
              data_bytes data_nonneg b ltac:(lia))
    as (message & cb & Hrun & _ & Hhead & _).
  rewrite Hrun. cbn [mbind outcome_bind bind mret outcome_ret].
  split; [exact Hfree |]. split; [reflexivity |]. split; [reflexivity |].
  exists message, cb. split; [reflexivity |]. split; [apply Hhead; [lia | exact Hfree] |].
  reflexivity.
Qed.

(** What one execution of the body of PHASE 3 does to a block. *)
Lemma phase3_body_cases (b : Z) (s : scan_state) :
  1 <= b <= total_blocks ->
  (phase3_body b s = Ok (Next s) /\ (b ∈ st_used_blocks s \/ dense b = false))
  \/ ((b ∉ st_used_blocks s) /\ dense b = true
      /\ exists message chain_blocks,
          follow b (st_used_blocks s) = Ok (message, chain_blocks)
          /\ b ∈ chain_blocks
          /\ phase3_body b s
             = Ok (Next (ScanState (st_used_blocks s ∪ chain_blocks) (st_active s)
                           (st_deleted s) (st_deleted_all_blocks s)
                           (st_orphaned s ++ [(OrphanedRecord b message, chain_blocks)])))).
Proof.
  intros Hb. unfold Gbbs.phase3_body, Gbbs.dense, payload, offset_of.
  destruct (bool_decide_reflect (b ∈ st_used_blocks s)) as [Hused | Hfree].
  { left. split; [reflexivity | left; exact Hused]. }
  rewrite Z.gtb_ltb.
  destruct (Z.ltb_spec (len data) (data_offset info + (b - 1) * 128 + 128)) as [Hout | _].
  { specialize (blocks_in_file b Hb). lia. }
  destruct (non_null_count _ <? 10).
  { left. split; [reflexivity | right; reflexivity]. }
  right.
  destruct (follow_chain_spec data total_blocks (st_used_blocks s) (data_offset info)
              data_bytes data_nonneg b ltac:(lia))
    as (message & cb & Hrun & _ & Hhead & _).
  rewrite Hrun. cbn [mbind outcome_bind bind mret outcome_ret].
  split; [exact Hfree |]. split; [reflexivity |].
  exists message, cb. split; [reflexivity |]. split; [apply Hhead; [lia | exact Hfree] |].
  reflexivity.
Qed.

(** PHASE 2 over the blocks [l], in ascending order. *)
Lemma phase2_loop (active : list (active_record * gset Z))
    (orphaned : list (orphaned_record * gset Z)) (used0 : gset Z) :
  forall (l : list Z) (s : scan_state),
    StronglySorted Z.lt l -> Forall (fun b => 1 <= b <= total_blocks) l ->
    st_active s = active -> st_orphaned s = orphaned -> st_deleted s = [] ->
    st_used_blocks s = used0 ->
    exists s',
      for_each phase2_body l s = Ok s'
      /\ st_active s' = active /\ st_orphaned s' = orphaned
      /\ used0 ⊆ st_used_blocks s'
      /\ (forall b, b ∈ l ->
            b ∈ st_used_blocks s' \/ dense b = false \/ passes_heuristic b = false)
      /\ Forall (fun x => 1 <= d_block x.1 <= total_blocks
                          /\ (d_block x.1 ∉ used0)
                          /\ dense (d_block x.1) = true
                          /\ passes_heuristic (d_block x.1) = true
                          /\ d_date x.1 = parse_date (d_message x.1)) (st_deleted s')
      /\ StronglySorted Z.lt (d_block <$> (st_deleted s').*1).
Proof.
  intros l s Hsorted Hrange Hact Horph Hdel Hused.
  set (good := fun x : deleted_record * gset Z =>
         1 <= d_block x.1 <= total_blocks /\ (d_block x.1 ∉ used0)
         /\ dense (d_block x.1) = true /\ passes_heuristic (d_block x.1) = true
         /\ d_date x.1 = parse_date (d_message x.1)).
  set (Inv := fun (rest : list Z) (s' : scan_state) =>
         StronglySorted Z.lt rest /\ Forall (fun b => 1 <= b <= total_blocks) rest
         /\ st_active s' = active /\ st_orphaned s' = orphaned
         /\ used0 ⊆ st_used_blocks s'
         /\ (forall b, b ∈ l -> b ∈ rest \/ b ∈ st_used_blocks s' \/ dense b = false
                                \/ passes_heuristic b = false)
         /\ Forall good (st_deleted s')
         /\ StronglySorted Z.lt (d_block <$> (st_deleted s').*1)
         /\ (forall x b, x ∈ st_deleted s' -> b ∈ rest -> d_block x.1 < b)).
  destruct (for_each_rest phase2_body Inv) with (l := l) (s := s)
    as (s' & Hrun & _ & _ & Hact' & Horph' & Hused' & Hcov & Hgood & Hheads & _).
  - clear s Hact Horph Hdel Hused.
    intros b rest s (Hs & Hr & Hact & Horph & Hused & Hcov & Hgood & Hheads & Hbelow).
    apply StronglySorted_inv in Hs. destruct Hs as [Hs Hb_lt].
    apply Forall_cons in Hr. destruct Hr as [Hb Hr].
    destruct (phase2_body_cases b s Hb)
      as [[Hbody Hskip] | (Hfree & Hdense & Hpass & message & cb & Hfollow & Hhead & Hbody)];
      rewrite Hbody; eexists; (split; [reflexivity |]).
    + unfold Inv. split_and!; try assumption.
      * intros b' Hb'. destruct (Hcov b' Hb') as [Hin | Hdone]; [| right; exact Hdone].
        apply elem_of_cons in Hin. destruct Hin as [-> | Hin]; [right; exact Hskip | left; exact Hin].
      * intros x b' Hx Hb'. apply Hbelow; [exact Hx | apply list_elem_of_further, Hb'].
    + unfold Inv. cbn [st_active st_orphaned st_used_blocks st_deleted]. split_and!; try assumption.
      * set_solver.
      * intros b' Hb'. destruct (Hcov b' Hb') as [Hin | [Hin | Hdone]].
        -- apply elem_of_cons in Hin. destruct Hin as [-> | Hin]; [| left; exact Hin].
           right. left. set_solver.
        -- right. left. set_solver.
        -- right. right. exact Hdone.
      * apply Forall_app. split; [exact Hgood |]. apply Forall_singleton.
        unfold good. cbn [fst d_block d_date d_message].
        split_and!; try assumption; try reflexivity. all: first [lia | set_solver].
      * rewrite !fmap_app. cbn [fmap list_fmap fst d_block].
        apply StronglySorted_app_2; [| exact Hheads | repeat constructor].
        intros x1 x2 Hx1 Hx2. apply list_elem_of_singleton in Hx2. subst x2.
        apply list_elem_of_fmap in Hx1. destruct Hx1 as (r & -> & Hr1).
        apply list_elem_of_fmap in Hr1. destruct Hr1 as (x & -> & Hx).
        apply Hbelow; [exact Hx | apply list_elem_of_here].
      * intros x b' Hx Hb'. apply elem_of_app in Hx. destruct Hx as [Hx | Hx].
        -- apply Hbelow; [exact Hx | apply list_elem_of_further, Hb'].
        -- apply list_elem_of_singleton in Hx. subst x. cbn [fst d_block].
           rewrite Forall_forall in Hb_lt. apply Hb_lt, Hb'.
  - unfold Inv. rewrite Hdel, Hused. split_and!; try assumption; try reflexivity.
    + intros b Hb. left. exact Hb.
    + apply Forall_nil. exact I.
    + constructor.
    + intros x b Hx. apply elem_of_nil in Hx. contradiction.
  - exists s'. split_and!; try assumption.
    intros b Hb. destruct (Hcov b Hb) as [Hin | Hdone]; [| exact Hdone].
    apply elem_of_nil in Hin. contradiction.
Qed.

(** PHASE 3 over the blocks [l], in ascending order. *)
Lemma phase3_loop (active : list (active_record * gset Z))
    (deleted : list (deleted_record * gset Z)) (used0 : gset Z) :
  forall (l : list Z) (s : scan_state),
    StronglySorted Z.lt l -> Forall (fun b => 1 <= b <= total_blocks) l ->
    st_active s = active -> st_deleted s = deleted -> st_orphaned s = [] ->
    st_used_blocks s = used0 ->
    exists s',
      for_each phase3_body l s = Ok s'
      /\ st_active s' = active /\ st_deleted s' = deleted
      /\ used0 ⊆ st_used_blocks s'
      /\ (forall b, b ∈ l -> b ∈ st_used_blocks s' \/ dense b = false)
      /\ Forall (fun x => 1 <= o_block x.1 <= total_blocks
                          /\ (o_block x.1 ∉ used0)
                          /\ dense (o_block x.1) = true) (st_orphaned s')
      /\ StronglySorted Z.lt (o_block <$> (st_orphaned s').*1).
Proof.
  intros l s Hsorted Hrange Hact Hdel Horph Hused.
  set (good := fun x : orphaned_record * gset Z =>
         1 <= o_block x.1 <= total_blocks /\ (o_block x.1 ∉ used0)
         /\ dense (o_block x.1) = true).
  set (Inv := fun (rest : list Z) (s' : scan_state) =>
         StronglySorted Z.lt rest /\ Forall (fun b => 1 <= b <= total_blocks) rest
         /\ st_active s' = active /\ st_deleted s' = deleted
         /\ used0 ⊆ st_used_blocks s'
         /\ (forall b, b ∈ l -> b ∈ rest \/ b ∈ st_used_blocks s' \/ dense b = false)
         /\ Forall good (st_orphaned s')
         /\ StronglySorted Z.lt (o_block <$> (st_orphaned s').*1)
         /\ (forall x b, x ∈ st_orphaned s' -> b ∈ rest -> o_block x.1 < b)).
  destruct (for_each_rest phase3_body Inv) with (l := l) (s := s)
    as (s' & Hrun & _ & _ & Hact' & Hdel' & Hused' & Hcov & Hgood & Hheads & _).
  - clear s Hact Horph Hdel Hused.
    intros b rest s (Hs & Hr & Hact & Hdel & Hused & Hcov & Hgood & Hheads & Hbelow).
    apply StronglySorted_inv in Hs. destruct Hs as [Hs Hb_lt].
    apply Forall_cons in Hr. destruct Hr as [Hb Hr].
    destruct (phase3_body_cases b s Hb)
      as [[Hbody Hskip] | (Hfree & Hdense & message & cb & Hfollow & Hhead & Hbody)];
      rewrite Hbody; eexists; (split; [reflexivity |]).
    + unfold Inv. split_and!; try assumption.
      * intros b' Hb'. destruct (Hcov b' Hb') as [Hin | Hdone]; [| right; exact Hdone].
        apply elem_of_cons in Hin. destruct Hin as [-> | Hin]; [right; exact Hskip | left; exact Hin].
      * intros x b' Hx Hb'. apply Hbelow; [exact Hx | apply list_elem_of_further, Hb'].
    + unfold Inv. cbn [st_active st_orphaned st_used_blocks st_deleted]. split_and!; try assumption.
      * set_solver.
      * intros b' Hb'. destruct (Hcov b' Hb') as [Hin | [Hin | Hdone]].
        -- apply elem_of_cons in Hin. destruct Hin as [-> | Hin]; [| left; exact Hin].
           right. left. set_solver.
        -- right. left. set_solver.
        -- right. right. exact Hdone.
      * apply Forall_app. split; [exact Hgood |]. apply Forall_singleton.
        unfold good. cbn [fst o_block].
        split_and!; try assumption; try reflexivity. all: first [lia | set_solver].
      * rewrite !fmap_app. cbn [fmap list_fmap fst o_block].
        apply StronglySorted_app_2; [| exact Hheads | repeat constructor].
        intros x1 x2 Hx1 Hx2. apply list_elem_of_singleton in Hx2. subst x2.
        apply list_elem_of_fmap in Hx1. destruct Hx1 as (r & -> & Hr1).
        apply list_elem_of_fmap in Hr1. destruct Hr1 as (x & -> & Hx).
        apply Hbelow; [exact Hx | apply list_elem_of_here].
      * intros x b' Hx Hb'. apply elem_of_app in Hx. destruct Hx as [Hx | Hx].
        -- apply Hbelow; [exact Hx | apply list_elem_of_further, Hb'].
        -- apply list_elem_of_singleton in Hx. subst x. cbn [fst o_block].
           rewrite Forall_forall in Hb_lt. apply Hb_lt, Hb'.
  - unfold Inv. rewrite Horph, Hused. split_and!; try assumption; try reflexivity.
    + intros b Hb. left. exact Hb.
    + apply Forall_nil. exact I.
    + constructor.
    + intros x b Hx. apply elem_of_nil in Hx. contradiction.
  - exists s'. split_and!; try assumption.
    intros b Hb. destruct (Hcov b Hb) as [Hin | Hdone]; [| exact Hdone].
    apply elem_of_nil in Hin. contradiction.
Qed.

(** The three phases: which blocks they leave unclaimed, and what the
    head blocks of the Deleted and Orphaned records are. *)
Lemma run_phases_classes :
  exists s,
    run_phases data info total_blocks = Ok s
    /\ (forall b, 1 <= b <= total_blocks -> b ∈ st_used_blocks s \/ dense b = false)
    /\ Forall (fun x => 1 <= d_block x.1 <= total_blocks
                        /\ dense (d_block x.1) = true
                        /\ passes_heuristic (d_block x.1) = true
                        /\ d_date x.1 = parse_date (d_message x.1)) (st_deleted s)
    /\ Forall (fun x => 1 <= o_block x.1 <= total_blocks
                        /\ dense (o_block x.1) = true
                        /\ passes_heuristic (o_block x.1) = false) (st_orphaned s)
    /\ StronglySorted Z.lt (d_block <$> (st_deleted s).*1)
    /\ StronglySorted Z.lt (o_block <$> (st_orphaned s).*1).
Proof.
  unfold run_phases, phase1, phase2, phase3.
  destruct (phase1_loop data info total_blocks data_bytes dir_nonneg data_nonneg
              (Z.to_nat (max_dir_entries info)) 0 initial_scan)
    as (s1 & Hrun1 & _ & Hdel1 & Horph1 & _);
    try reflexivity; try lia.
  { apply initial_scan_inv. }
  { intros i x Hi. cbn in Hi. rewrite lookup_nil in Hi. discriminate. }
  assert (seqZ 0 (Z.of_nat (Z.to_nat (max_dir_entries info))) = range (max_dir_entries info))
    as Hseq.
  { unfold range, seqZ. rewrite Nat2Z.id. reflexivity. }
  rewrite Hseq in Hrun1. rewrite Hrun1. cbn [mbind outcome_bind bind].
  destruct (phase2_loop (st_active s1) (st_orphaned s1) (st_used_blocks s1)
              (sorted_unused total_blocks (st_used_blocks s1)) s1)
    as (s2 & Hrun2 & Hact2 & Horph2 & Hused2 & Hcov2 & Hgood2 & Hheads2);
    try reflexivity; try assumption.
  { apply sorted_unused_sorted. }
  { eapply Forall_impl; [apply sorted_unused_range |]. intros b [Hb _]. exact Hb. }
  rewrite Hrun2. cbn [mbind outcome_bind bind].
  destruct (phase3_loop (st_active s2) (st_deleted s2) (st_used_blocks s2)
              (sorted_unused total_blocks (st_used_blocks s2)) s2)
    as (s3 & Hrun3 & Hact3 & Hdel3 & Hused3 & Hcov3 & Hgood3 & Hheads3);
    try reflexivity.
  { apply sorted_unused_sorted. }
  { eapply Forall_impl; [apply sorted_unused_range |]. intros b [Hb _]. exact Hb. }
  { rewrite Horph2. exact Horph1. }
  assert (forall b, 1 <= b <= total_blocks ->
                    b ∈ st_used_blocks s2 \/ dense b = false \/ passes_heuristic b = false)
    as Hafter2.
  { intros b Hb. destruct (decide (b ∈ st_used_blocks s1)) as [Hin | Hout].
    - left. apply Hused2, Hin.
    - apply Hcov2, sorted_unused_elem. split; assumption. }
  exists s3. split; [exact Hrun3 |]. split_and!.
  - intros b Hb. destruct (decide (b ∈ st_used_blocks s2)) as [Hin | Hout].
    + left. apply Hused3, Hin.
    + apply Hcov3, sorted_unused_elem. split; assumption.
  - rewrite Hdel3. eapply Forall_impl; [exact Hgood2 |].
    intros x (? & ? & ? & ? & ?). split_and!; first [assumption | lia].
  - eapply Forall_impl; [exact Hgood3 |].
    intros x (Hb & Hfree & Hdense).
    split; [exact Hb |]. split; [exact Hdense |].
    destruct (Hafter2 _ Hb) as [Hin | [Hsparse | Hfail]];
      [contradiction | congruence | exact Hfail].
  - rewrite Hdel3. exact Hheads2.
  - exact Hheads3.
Qed.
End Classes.

(** ** The lists that the bulletin scanner returns *)

(** *** Sorting by key *)

Lemma insert_by_lex {A} (key : A -> Z) (before : A -> A -> Prop) (x : A) (l : list A) :
  StronglySorted (fun a b => key a < key b \/ (key a = key b /\ before a b)) l ->
  (forall y, y ∈ l -> before x y) ->
  StronglySorted (fun a b => key a < key b \/ (key a = key b /\ before a b))
    (insert_by key x l).
Proof.
  induction 1 as [| y l Hl IH Hy]; intros Hx; cbn [insert_by].
  - repeat constructor.
  - rewrite Forall_forall in Hy.
    destruct (Z.leb_spec (key x) (key y)) as [Hle | Hgt].
    + constructor; [constructor; [exact Hl | apply Forall_forall, Hy] |].
      apply Forall_forall. intros w Hw.
      assert (key x <= key w) as Hkey.
      { apply elem_of_cons in Hw. destruct Hw as [-> | Hw]; [exact Hle |].
        specialize (Hy w Hw). lia. }
      specialize (Hx w Hw).
      destruct (Z.eq_dec (key x) (key w)) as [Heq | Hne]; [right; split; assumption | left; lia].
    + constructor.
      * apply IH. intros w Hw. apply Hx, list_elem_of_further, Hw.
      * apply Forall_forall. intros w Hw. apply insert_by_elem in Hw.
        destruct Hw as [-> | Hw]; [left; lia | apply Hy, Hw].
Qed.

(** Sorting orders a list by key, and keeps the order that it had among
    the elements of equal key. *)
Lemma sort_by_lex {A} (key : A -> Z) (before : A -> A -> Prop) (l : list A) :
  StronglySorted before l ->
  StronglySorted (fun a b => key a < key b \/ (key a = key b /\ before a b))
    (sort_by key l).
Proof.
  unfold sort_by. induction 1 as [| x l Hl IH Hx]; cbn [foldr]; [constructor |].
  apply insert_by_lex; [exact IH |].
  intros y Hy. rewrite Forall_forall in Hx. apply Hx.
  change (foldr (insert_by key) [] l) with (sort_by key l) in Hy.
  apply sort_by_elem in Hy. exact Hy.
Qed.

Lemma insert_by_Permutation {A} (key : A -> Z) (x : A) (l : list A) :
  insert_by key x l ≡ₚ x :: l.
Proof.
  induction l as [| y l IH]; cbn [insert_by]; [reflexivity |].
  destruct (key x <=? key y); [reflexivity |].
  rewrite IH. apply Permutation_swap.
Qed.

Lemma sort_by_Permutation {A} (key : A -> Z) (l : list A) : sort_by key l ≡ₚ l.
Proof.
  unfold sort_by. induction l as [| x l IH]; cbn [foldr]; [reflexivity |].
  rewrite insert_by_Permutation, IH. reflexivity.
Qed.

Lemma strictly_sorted_NoDup (l : list Z) : StronglySorted Z.lt l -> NoDup l.
Proof.
  induction 1 as [| x l Hl IH Hx]; [constructor |].
  apply NoDup_cons. split; [| exact IH].
  intros Hin. rewrite Forall_forall in Hx. specialize (Hx x Hin). lia.
Qed.

Lemma sorted_fmap {A} (f : A -> Z) (l : list A) :
  StronglySorted Z.lt (f <$> l) -> StronglySorted (fun a b => f a < f b) l.
Proof.
  induction l as [| x l IH]; intros Hs; [constructor |].
  cbn [fmap list_fmap] in Hs. apply StronglySorted_inv in Hs. destruct Hs as [Hs Hx].
  constructor; [apply IH, Hs |].
  apply Forall_forall. intros y Hy. rewrite Forall_forall in Hx.
  apply Hx, list_elem_of_fmap. exists y. split; [reflexivity | exact Hy].
Qed.

Lemma dense_false (data : list Z) (data_offset b : Z) :
  dense data data_offset b = false <-> non_null_count (payload data data_offset b) < 10.
Proof. unfold dense. rewrite negb_false_iff, Z.ltb_lt. reflexivity. Qed.

Lemma dense_true (data : list Z) (data_offset b : Z) :
  dense data data_offset b = true <-> 10 <= non_null_count (payload data data_offset b).
Proof. unfold dense. rewrite negb_true_iff, Z.ltb_ge. reflexivity. Qed.

(** *** The scan with the facts of the three phases *)

Lemma scan_bulletin_classes `{DateLibrary} (data : list Z) (info : msginfo) :
  is_bytes data -> read_msginfo data = Ok (Some info) ->
  exists s,
    scan_bulletin_state data = Ok (Some (info, total_blocks_of data info, s))
    /\ scan_inv data info (total_blocks_of data info) s
    /\ (forall b, 1 <= b <= total_blocks_of data info ->
          b ∈ st_used_blocks s \/ dense data (data_offset info) b = false)
    /\ Forall (fun x => 1 <= d_block x.1 <= total_blocks_of data info
                        /\ dense data (data_offset info) (d_block x.1) = true
                        /\ passes_heuristic data (data_offset info) (d_block x.1) = true
                        /\ d_date x.1 = parse_date (d_message x.1)) (st_deleted s)
    /\ Forall (fun x => 1 <= o_block x.1 <= total_blocks_of data info
                        /\ dense data (data_offset info) (o_block x.1) = true
                        /\ passes_heuristic data (data_offset info) (o_block x.1) = false)
         (st_orphaned s)
    /\ StronglySorted Z.lt (d_block <$> (st_deleted s).*1)
    /\ StronglySorted Z.lt (o_block <$> (st_orphaned s).*1).
Proof.
  intros Hbytes Hinfo.
  destruct (scan_bulletin_state_spec data info Hbytes Hinfo)
    as (Hoff & s & Hscan & Hinv & _).
  destruct (run_phases_classes data info (total_blocks_of data info) Hbytes
              ltac:(lia) ltac:(lia) (total_blocks_in_file data info))
    as (s' & Hrun & Hcov & Hdel & Horph & Hdh & Hoh).
  assert (s' = s) as ->.
  { unfold scan_bulletin_state in Hscan. rewrite Hinfo in Hscan.
    cbn [mbind outcome_bind bind] in Hscan. rewrite Hrun in Hscan.
    cbn [mbind outcome_bind bind mret outcome_ret] in Hscan.
    injection Hscan as Hs. exact Hs. }
  exists s. split_and!; assumption.
Qed.

(** X7: when the bulletin scan ends, every block of the data area that
    no message has consumed holds fewer than ten bytes that are not null
    in its payload: the three phases leave no block with content
    unclaimed. *)
Theorem bulletin_blocks_covered `{DateLibrary} (data : list Z) (info : msginfo) :
  is_bytes data -> read_msginfo data = Ok (Some info) ->
  exists s,
    scan_bulletin_state data = Ok (Some (info, total_blocks_of data info, s))
    /\ forall b, 1 <= b <= total_blocks_of data info ->
         b ∈ active_blocks s ∪ deleted_chain_blocks s ∪ orphaned_chain_blocks s
         \/ non_null_count (payload data (data_offset info) b) < 10.
Proof.
  intros Hbytes Hinfo.
  destruct (scan_bulletin_classes data info Hbytes Hinfo)
    as (s & Hscan & Hinv & Hcov & _).
  exists s. split; [exact Hscan |]. intros b Hb.
  destruct Hinv as (HU & _). rewrite <- HU.
  destruct (Hcov b Hb) as [Hin | Hsparse]; [left; exact Hin | right].
  apply dense_false, Hsparse.
Qed.

Lemma bulletin_blocks_covered_witness :
  exists s,
    scan_bulletin_state (H := Fixture.no_dates) Fixture.three_kinds
    = Ok (Some (Fixture.bulletin_info,
                total_blocks_of Fixture.three_kinds Fixture.bulletin_info, s))
    /\ forall b, 1 <= b <= total_blocks_of Fixture.three_kinds Fixture.bulletin_info ->
         b ∈ active_blocks s ∪ deleted_chain_blocks s ∪ orphaned_chain_blocks s
         \/ non_null_count
              (payload Fixture.three_kinds (data_offset Fixture.bulletin_info) b) < 10.
Proof.
  apply (bulletin_blocks_covered (H := Fixture.no_dates) Fixture.three_kinds
           Fixture.bulletin_info).
  - apply bytes_check_sound. vm_compute. reflexivity.
  - vm_compute. reflexivity.
Defined.

(** X8: what tells the Deleted from the Orphaned messages of the result.
    The head block of each lies in the data area and holds at least ten
    payload bytes that are not null; the payload of a Deleted head,
    decoded under [stop_at_null], passes [is_message_start], and that of
    an Orphaned head fails it; and the date of a Deleted message is what
    [parse_date] finds in its text. *)
Theorem deleted_and_orphaned_heads `{DateLibrary} (data : list Z) (info : msginfo) :
  is_bytes data -> read_msginfo data = Ok (Some info) ->
  exists r,
    scan_database_bulletin data = Ok (Some r)
    /\ (forall m, m ∈ b_deleted_messages r ->
          1 <= d_block m <= b_total_blocks r
          /\ 10 <= non_null_count (payload data (data_offset info) (d_block m))
          /\ passes_heuristic data (data_offset info) (d_block m) = true
          /\ d_date m = parse_date (d_message m))
    /\ (forall m, m ∈ b_orphaned_messages r ->
          1 <= o_block m <= b_total_blocks r
          /\ 10 <= non_null_count (payload data (data_offset info) (o_block m))
          /\ passes_heuristic data (data_offset info) (o_block m) = false).
Proof.
  intros Hbytes Hinfo.
  destruct (scan_bulletin_classes data info Hbytes Hinfo)
    as (s & Hscan & _ & _ & Hdel & Horph & _).
  eexists. split; [apply scan_database_bulletin_eq, Hscan |].
  cbn [b_deleted_messages b_orphaned_messages b_total_blocks].
  rewrite Forall_forall in Hdel. rewrite Forall_forall in Horph. split.
  - intros m Hm. apply sort_by_elem, list_elem_of_fmap in Hm.
    destruct Hm as (x & -> & Hx). destruct (Hdel x Hx) as (Hb & Hd & Hp & Hdate).
    split; [exact Hb |]. split; [apply dense_true, Hd |]. split; assumption.
  - intros m Hm. apply list_elem_of_fmap in Hm.
    destruct Hm as (x & -> & Hx). destruct (Horph x Hx) as (Hb & Hd & Hp).
    split; [exact Hb |]. split; [apply dense_true, Hd | exact Hp].
Qed.

Lemma deleted_and_orphaned_heads_witness :
  exists r,
    scan_database_bulletin (H := Fixture.no_dates) Fixture.three_kinds = Ok (Some r)
    /\ (forall m, m ∈ b_deleted_messages r ->
          1 <= d_block m <= b_total_blocks r
          /\ 10 <= non_null_count
                     (payload Fixture.three_kinds (data_offset Fixture.bulletin_info)
                        (d_block m))
          /\ passes_heuristic Fixture.three_kinds (data_offset Fixture.bulletin_info)
               (d_block m) = true
          /\ d_date m = parse_date (H := Fixture.no_dates) (d_message m))
    /\ (forall m, m ∈ b_orphaned_messages r ->
          1 <= o_block m <= b_total_blocks r
          /\ 10 <= non_null_count
                     (payload Fixture.three_kinds (data_offset Fixture.bulletin_info)
                        (o_block m))
          /\ passes_heuristic Fixture.three_kinds (data_offset Fixture.bulletin_info)
               (o_block m) = false).
Proof.
  apply (deleted_and_orphaned_heads (H := Fixture.no_dates) Fixture.three_kinds
           Fixture.bulletin_info).
  - apply bytes_check_sound. vm_compute. reflexivity.
  - vm_compute. reflexivity.
Defined.

(** X9: the order of the lists of the result.  The Deleted messages come
    in ascending order of date, an undated one counting as
    [datetime.min], and those of equal date in ascending order of head
    block; the Orphaned messages come in ascending order of head block;
    and sorting the Deleted messages loses and adds none. *)
Theorem bulletin_result_order `{DateLibrary} (data : list Z) (info : msginfo) :
  is_bytes data -> read_msginfo data = Ok (Some info) ->
  exists s r,
    scan_bulletin_state data = Ok (Some (info, total_blocks_of data info, s))
    /\ scan_database_bulletin data = Ok (Some r)
    /\ StronglySorted
         (fun x y => date_key (d_date x) < date_key (d_date y)
                     \/ (date_key (d_date x) = date_key (d_date y)
                         /\ d_block x < d_block y))
         (b_deleted_messages r)
    /\ b_deleted_messages r ≡ₚ (st_deleted s).*1
    /\ StronglySorted (fun x y => o_block x < o_block y) (b_orphaned_messages r).
Proof.
  intros Hbytes Hinfo.
  destruct (scan_bulletin_classes data info Hbytes Hinfo)
    as (s & Hscan & _ & _ & _ & _ & Hdh & Hoh).
  exists s. eexists. split; [exact Hscan |].
  split; [apply scan_database_bulletin_eq, Hscan |].
  cbn [b_deleted_messages b_orphaned_messages]. split_and!.
  - apply (sort_by_lex (fun x => date_key (d_date x)) (fun x y => d_block x < d_block y)),
      sorted_fmap, Hdh.
  - apply sort_by_Permutation.
  - apply sorted_fmap, Hoh.
Qed.

Lemma bulletin_result_order_witness :
  exists s r,
    scan_bulletin_state (H := Fixture.no_dates) Fixture.three_kinds
    = Ok (Some (Fixture.bulletin_info,
                total_blocks_of Fixture.three_kinds Fixture.bulletin_info, s))
    /\ scan_database_bulletin (H := Fixture.no_dates) Fixture.three_kinds = Ok (Some r)
    /\ StronglySorted
         (fun x y => date_key (H := Fixture.no_dates) (d_date x)
                     < date_key (H := Fixture.no_dates) (d_date y)
                     \/ (date_key (H := Fixture.no_dates) (d_date x)
                         = date_key (H := Fixture.no_dates) (d_date y)
                         /\ d_block x < d_block y))
         (b_deleted_messages r)
    /\ b_deleted_messages r ≡ₚ (st_deleted s).*1
    /\ StronglySorted (fun x y => o_block x < o_block y) (b_orphaned_messages r).
Proof.
  apply (bulletin_result_order (H := Fixture.no_dates) Fixture.three_kinds
           Fixture.bulletin_info).
  - apply bytes_check_sound. vm_compute. reflexivity.
  - vm_compute. reflexivity.
Defined.

(** The head blocks of the result of the bulletin scan. *)
Lemma bulletin_heads `{DateLibrary} (data : list Z) (info : msginfo) :
  is_bytes data -> read_msginfo data = Ok (Some info) ->
  exists r,
    scan_database_bulletin data = Ok (Some r)
    /\ NoDup (d_block <$> b_deleted_messages r)
    /\ NoDup (o_block <$> b_orphaned_messages r)
    /\ size (deleted_blocks r) = length (b_deleted_messages r)
    /\ size (orphaned_blocks r) = length (b_orphaned_messages r)
    /\ allocated_blocks r ## deleted_blocks r
    /\ allocated_blocks r ## orphaned_blocks r
    /\ deleted_blocks r ## orphaned_blocks r
    /\ deleted_blocks r ⊆ b_deleted_all_blocks r
    /\ b_deleted_all_blocks r ## orphaned_blocks r.
Proof.
  intros Hbytes Hinfo.
  destruct (scan_bulletin_classes data info Hbytes Hinfo)
    as (s & Hscan & Hinv & _ & _ & _ & Hdh & Hoh).
  eexists. split; [apply scan_database_bulletin_eq, Hscan |].
  unfold allocated_blocks, deleted_blocks, orphaned_blocks.
  cbn [b_deleted_messages b_orphaned_messages b_active_messages b_deleted_all_blocks].
  assert (NoDup (d_block <$> sort_by (fun x => date_key (d_date x)) (st_deleted s).*1))
    as Hnd.
  { rewrite sort_by_Permutation. apply strictly_sorted_NoDup, Hdh. }
  assert (NoDup (o_block <$> (st_orphaned s).*1)) as Hno
    by apply strictly_sorted_NoDup, Hoh.
  destruct Hinv as (HU & HD & HAD & HAO & HDO & HWA & HWD & HWO & HR & HA & HHD & HHO).
  assert (forall b, b ∈ d_block <$> sort_by (fun x => date_key (d_date x)) (st_deleted s).*1 ->
                    b ∈ deleted_chain_blocks s) as Hdin.
  { intros b Hb. apply list_elem_of_fmap in Hb. destruct Hb as (m & -> & Hm).
    apply sort_by_elem, list_elem_of_fmap in Hm. destruct Hm as (x & -> & Hx).
    unfold deleted_chain_blocks. apply elem_of_union_list. exists x.2.
    split; [apply list_elem_of_fmap; exists x; auto | apply HHD, Hx]. }
  assert (forall b, b ∈ o_block <$> (st_orphaned s).*1 -> b ∈ orphaned_chain_blocks s) as Hoin.
  { intros b Hb. apply list_elem_of_fmap in Hb. destruct Hb as (m & -> & Hm).
    apply list_elem_of_fmap in Hm. destruct Hm as (x & -> & Hx).
    unfold orphaned_chain_blocks. apply elem_of_union_list. exists x.2.
    split; [apply list_elem_of_fmap; exists x; auto | apply HHO, Hx]. }
  assert (forall b, b ∈ a_block <$> (st_active s).*1 -> b ∈ active_blocks s) as Hain.
  { intros b Hb. apply list_elem_of_fmap in Hb. destruct Hb as (m & -> & Hm).
    apply list_elem_of_fmap in Hm. destruct Hm as (x & -> & Hx). apply HA, Hx. }
  split; [exact Hnd |]. split; [exact Hno |].
  split; [rewrite size_list_to_set by exact Hnd; apply length_fmap |].
  split; [rewrite size_list_to_set by exact Hno; apply length_fmap |].
  split_and!.
  - intros b Ha Hd. apply elem_of_list_to_set in Ha, Hd.
    apply (HAD b); [apply Hain, Ha | apply Hdin, Hd].
  - intros b Ha Ho. apply elem_of_list_to_set in Ha, Ho.
    apply (HAO b); [apply Hain, Ha | apply Hoin, Ho].
  - intros b Hd Ho. apply elem_of_list_to_set in Hd, Ho.
    apply (HDO b); [apply Hdin, Hd | apply Hoin, Ho].
  - intros b Hd. apply elem_of_list_to_set in Hd. rewrite HD. apply Hdin, Hd.
  - intros b Hd Ho. apply elem_of_list_to_set in Ho. rewrite HD in Hd.
    apply (HDO b); [exact Hd | apply Hoin, Ho].
Qed.


(** X10: the head blocks of the result.  No two Deleted messages and no
    two Orphaned messages have the same head block, so the sets
    ['deleted_blocks'] and ['orphaned_blocks'] have as many elements as
    the lists have messages; the sets ['allocated_blocks'],
    ['deleted_blocks'] and ['orphaned_blocks'] are pairwise disjoint; the
    Deleted heads are in ['deleted_all_blocks'], and no Orphaned head
    is. *)
Theorem head_blocks_distinct `{DateLibrary} (data : list Z) (info : msginfo) :
  is_bytes data -> read_msginfo data = Ok (Some info) ->
  exists r,
    scan_database_bulletin data = Ok (Some r)
    /\ NoDup (d_block <$> b_deleted_messages r)
    /\ NoDup (o_block <$> b_orphaned_messages r)
    /\ size (deleted_blocks r) = length (b_deleted_messages r)
    /\ size (orphaned_blocks r) = length (b_orphaned_messages r)
    /\ allocated_blocks r ## deleted_blocks r
    /\ allocated_blocks r ## orphaned_blocks r
    /\ deleted_blocks r ## orphaned_blocks r
    /\ deleted_blocks r ⊆ b_deleted_all_blocks r
    /\ b_deleted_all_blocks r ## orphaned_blocks r.
Proof. apply bulletin_heads. Qed.

Lemma head_blocks_distinct_witness :
  exists r,
    scan_database_bulletin (H := Fixture.no_dates) Fixture.three_kinds = Ok (Some r)
    /\ NoDup (d_block <$> b_deleted_messages r)
    /\ NoDup (o_block <$> b_orphaned_messages r)
    /\ size (deleted_blocks r) = length (b_deleted_messages r)
    /\ size (orphaned_blocks r) = length (b_orphaned_messages r)
    /\ allocated_blocks r ## deleted_blocks r
    /\ allocated_blocks r ## orphaned_blocks r
    /\ deleted_blocks r ## orphaned_blocks r
    /\ deleted_blocks r ⊆ b_deleted_all_blocks r
    /\ b_deleted_all_blocks r ## orphaned_blocks r.
Proof.
  apply (head_blocks_distinct (H := Fixture.no_dates) Fixture.three_kinds
           Fixture.bulletin_info).
  - apply bytes_check_sound. vm_compute. reflexivity.
  - vm_compute. reflexivity.
Defined.

(** ** The email scanner, the dispatch and the layout of a store *)

(** The rule for a [for] loop whose body may leave the loop; the
    invariant may speak of the elements still to come. *)
Lemma for_each_rest_leave {A S : Type} (body : A -> S -> outcome (flow S))
    (I : list A -> S -> Prop) (Q : S -> Prop) :
  (forall x l s, I (x :: l) s ->
     exists r, body x s = Ok r
               /\ match r with Next s' => I l s' | Leave s' => Q s' end) ->
  (forall s, I [] s -> Q s) ->
  forall l s, I l s -> exists s', for_each body l s = Ok s' /\ Q s'.
Proof.
  intros Hbody Hend. induction l as [| x l IH]; intros s Hs.
  - exists s. split; [reflexivity | apply Hend, Hs].
  - destruct (Hbody x l s Hs) as (r & Hrun & Hr). cbn [for_each]. rewrite Hrun.
    cbn [mbind outcome_bind bind]. destruct r as [s' | s'].
    + apply IH, Hr.
    + exists s'. split; [reflexivity | exact Hr].
Qed.

Lemma split_on_no_sep (sep : Z) (t : text) (seg : text) :
  seg ∈ split_on sep t -> sep ∉ seg.
Proof.
  revert seg. induction t as [| c t IH]; intros seg Hseg; cbn [split_on] in Hseg.
  - apply list_elem_of_singleton in Hseg. subst seg. apply not_elem_of_nil.
  - destruct (Z.eqb_spec c sep) as [-> | Hc].
    + apply elem_of_cons in Hseg. destruct Hseg as [-> | Hseg];
        [apply not_elem_of_nil | apply IH, Hseg].
    + destruct (split_on sep t) as [| l ls].
      * apply list_elem_of_singleton in Hseg. subst seg.
        rewrite elem_of_cons. intros [Heq | Hin]; [congruence |].
        apply elem_of_nil in Hin. exact Hin.
      * apply elem_of_cons in Hseg. destruct Hseg as [-> | Hseg].
        -- rewrite elem_of_cons. intros [Heq | Hin]; [congruence |].
           apply (IH l); [apply list_elem_of_here | exact Hin].
        -- apply IH, list_elem_of_further, Hseg.
Qed.

Lemma seqZ_sorted (k : nat) : forall a, StronglySorted Z.lt (seqZ a (Z.of_nat k)).
Proof.
  induction k as [| k IH]; intros a.
  - change (seqZ a (Z.of_nat 0)) with (@nil Z). constructor.
  - rewrite Nat2Z.inj_succ, seqZ_cons, Z.pred_succ by lia.
    constructor; [apply IH |]. apply Forall_forall. intros y Hy.
    apply elem_of_seqZ in Hy. lia.
Qed.

Lemma range_sorted (n : Z) : StronglySorted Z.lt (range n).
Proof.
  unfold range. destruct (Z.le_gt_cases 0 n) as [Hn | Hn].
  - rewrite <- (Z2Nat.id n) by lia. apply seqZ_sorted.
  - unfold seqZ. replace (Z.to_nat n) with 0%nat by lia. constructor.
Qed.

Lemma same_key_sorted {A} (f : A -> Z) (u : Z) (l : list A) :
  Forall (fun x => f x = u) l -> StronglySorted (fun x y => f x <= f y) l.
Proof.
  induction 1 as [| x l Hx Hl IH]; [constructor |].
  constructor; [exact IH |]. eapply Forall_impl; [exact Hl |].
  intros y Hy. cbn beta in *. lia.
Qed.

Section EmailRecords.
Context `{DateLibrary}.
Variables (data : list Z) (users : option (gmap Z user_info)) (info : msginfo)
          (total_blocks : Z).
Hypothesis data_bytes : is_bytes data.
Hypothesis dir_nonneg : 0 <= dir_offset info.
Hypothesis data_nonneg : 0 <= data_offset info.

(** The loop of the email scanner: what holds of its records. *)
Lemma email_loop :
  exists all_messages used,
    for_each (email_body data users info total_blocks) (range (max_dir_entries info)) ([], ∅)
    = Ok (all_messages, used)
    /\ Forall (fun m => 0 <= e_user_id m < max_dir_entries info
                        /\ (exists block, slot_block data info (e_user_id m) = Ok block
                                          /\ block <> 0)
                        /\ e_user_info m = lookup_user users (e_user_id m)
                        /\ e_date m = parse_date (e_message m)
                        /\ (4 ∉ e_message m)) all_messages
    /\ StronglySorted (fun x y => e_user_id x <= e_user_id y) all_messages.
Proof.
  set (good := fun m : email_record =>
         0 <= e_user_id m < max_dir_entries info
         /\ (exists block, slot_block data info (e_user_id m) = Ok block /\ block <> 0)
         /\ e_user_info m = lookup_user users (e_user_id m)
         /\ e_date m = parse_date (e_message m)
         /\ (4 ∉ e_message m)).
  set (Q := fun s : list email_record * gset Z =>
         Forall good s.1 /\ StronglySorted (fun x y => e_user_id x <= e_user_id y) s.1).
  set (Inv := fun (rest : list Z) (s : list email_record * gset Z) =>
         StronglySorted Z.lt rest
         /\ Forall (fun u => 0 <= u < max_dir_entries info) rest
         /\ Q s
         /\ (forall m u, m ∈ s.1 -> u ∈ rest -> e_user_id m < u)).
  destruct (for_each_rest_leave (email_body data users info total_blocks) Inv Q)
    with (l := range (max_dir_entries info)) (s := (@nil email_record, (∅ : gset Z)))
    as ([all_messages used] & Hrun & Hgood & Hsorted).
  - intros u rest [all_messages used] (Hs & Hr & [Hgood Hsorted] & Hbelow).
    cbn [fst] in *.
    apply StronglySorted_inv in Hs. destruct Hs as [Hs Hu_lt].
    apply Forall_cons in Hr. destruct Hr as [Hu Hr].
    unfold email_body. rewrite Z.gtb_ltb.
    destruct (Z.ltb_spec (len data) (dir_offset info + u * 4 + 4)) as [Hout | Hin].
    { eexists. split; [reflexivity |]. split; assumption. }
    destruct (slot_block_ok data info data_bytes dir_nonneg u ltac:(lia) Hin)
      as (Hentry & b & Hb & Hrange).
    rewrite Hentry. cbn [Z.ltb Z.compare Pos.compare Pos.compare_cont].
    change (unpack_H (slice (slice data (dir_offset info + u * 4)
                               (dir_offset info + u * 4 + 4)) 2 4))
      with (slot_block data info u).
    rewrite Hb. cbn [mbind outcome_bind bind].
    destruct (Z.eqb_spec b 0) as [Hz | Hnz].
    { eexists. split; [reflexivity |]. unfold Inv, Q. cbn [fst].
      split_and!; try assumption.
      intros m u' Hm Hu'. apply Hbelow; [exact Hm | apply list_elem_of_further, Hu']. }
    destruct (follow_chain_spec data total_blocks ∅ (data_offset info) data_bytes data_nonneg
                b ltac:(lia)) as (chain_text & cb & Hfollow & _).
    rewrite Hfollow. cbn [mbind outcome_bind bind mret outcome_ret].
    eexists. split; [reflexivity |]. unfold Inv, Q. cbn [fst].
    rewrite email_segments_filter.
    assert (Forall (fun m => good m /\ e_user_id m = u)
              ((fun msg => EmailRecord u (lookup_user users u) msg (parse_date msg))
                 <$> filter (fun msg => 20 <= len msg)
                       ((fun segment => strip (remove_char 0 segment))
                          <$> split_on 4 chain_text))) as Hnew.
    { apply Forall_fmap, Forall_forall. intros msg Hmsg.
      apply list_elem_of_filter in Hmsg. destruct Hmsg as [_ Hmsg].
      apply list_elem_of_fmap in Hmsg. destruct Hmsg as (segment & -> & Hseg).
      unfold good. cbn [e_user_id e_user_info e_date e_message compose].
      split; [| reflexivity]. split; [exact Hu |].
      split; [exists b; split; assumption |].
      split; [reflexivity |]. split; [reflexivity |].
      intros Hin4. apply strip_elem in Hin4. unfold remove_char in Hin4.
      apply list_elem_of_filter in Hin4. destruct Hin4 as [_ Hin4].
      exact (split_on_no_sep 4 chain_text segment Hseg Hin4). }
    split_and!; try assumption.
    + apply Forall_app. split; [exact Hgood |].
      eapply Forall_impl; [exact Hnew |]. intros m Hm. apply Hm.
    + apply StronglySorted_app_2; [| exact Hsorted |].
      * intros x1 x2 Hx1 Hx2. rewrite Forall_forall in Hnew.
        destruct (Hnew x2 Hx2) as [_ ->].
        specialize (Hbelow x1 u Hx1 (list_elem_of_here _ _)). lia.
      * apply (same_key_sorted e_user_id u).
        eapply Forall_impl; [exact Hnew |]. intros m Hm. apply Hm.
    + intros m u' Hm Hu'. apply elem_of_app in Hm. destruct Hm as [Hm | Hm].
      * apply Hbelow; [exact Hm | apply list_elem_of_further, Hu'].
      * rewrite Forall_forall in Hnew. destruct (Hnew m Hm) as [_ ->].
        rewrite Forall_forall in Hu_lt. apply Hu_lt, Hu'.
  - intros s (_ & _ & HQ & _). exact HQ.
  - unfold Inv, Q. cbn [fst]. split_and!.
    + apply range_sorted.
    + apply Forall_forall. intros u Hu. apply elem_of_seqZ in Hu. lia.
    + apply Forall_nil. exact I.
    + constructor.
    + intros m u Hm. apply elem_of_nil in Hm. contradiction.
  - exists all_messages, used. split; [exact Hrun |]. split; assumption.
Qed.
End EmailRecords.

(** The email scan of a store with a header returns. *)
Lemma scan_database_email_spec `{DateLibrary} (data : list Z)
    (users : option (gmap Z user_info)) (info : msginfo) :
  is_bytes data -> read_msginfo data = Ok (Some info) ->
  exists res,
    scan_database_email data users = Ok (Some res)
    /\ m_msginfo res = info /\ m_total_blocks res = total_blocks_of data info
    /\ (forall m, m ∈ m_active_messages res ->
          0 <= e_user_id m < max_dir_entries info
          /\ (exists block, slot_block data info (e_user_id m) = Ok block /\ block <> 0)
          /\ e_user_info m = lookup_user users (e_user_id m)
          /\ e_date m = parse_date (e_message m)
          /\ (4 ∉ e_message m))
    /\ StronglySorted
         (fun x y => date_key (e_date x) < date_key (e_date y)
                     \/ (date_key (e_date x) = date_key (e_date y)
                         /\ e_user_id x <= e_user_id y))
         (m_active_messages res).
Proof.
  intros Hbytes Hinfo.
  assert (8 <= len data) as Hlen.
  { destruct (Z.lt_ge_cases (len data) 8) as [Hshort | Hlong]; [| exact Hlong].
    rewrite read_msginfo_short in Hinfo by exact Hshort. discriminate. }
  destruct (read_msginfo_long data Hbytes Hlen) as (info' & Hinfo' & Hoff & _).
  rewrite Hinfo in Hinfo'. injection Hinfo' as <-.
  destruct (email_loop data users info (total_blocks_of data info) Hbytes
              ltac:(lia) ltac:(lia)) as (all_messages & used & Hrun & Hgood & Hsorted).
  unfold scan_database_email. rewrite Hinfo. cbn [mbind outcome_bind bind].
  rewrite Hrun. cbn [mbind outcome_bind bind mret outcome_ret].
  eexists. split; [reflexivity |]. cbn [m_msginfo m_total_blocks m_active_messages].
  split; [reflexivity |]. split; [reflexivity |]. split.
  - intros m Hm. apply sort_by_elem in Hm. rewrite Forall_forall in Hgood.
    apply Hgood, Hm.
  - apply (sort_by_lex (fun x => date_key (e_date x))
             (fun x y => e_user_id x <= e_user_id y)), Hsorted.
Qed.

(** X11: the records of the email scan.  Each belongs to a slot of the
    directory that names a block, carries the entry of the users
    dictionary for the number of its slot and the date that [parse_date]
    finds in its text, and holds no EOT character; the records come in
    ascending order of date, an undated one counting as [datetime.min],
    and those of equal date in the order of their slots. *)
Theorem email_records_by_user `{DateLibrary} (data : list Z)
    (users : option (gmap Z user_info)) (info : msginfo) :
  is_bytes data -> read_msginfo data = Ok (Some info) ->
  exists res,
    scan_database_email data users = Ok (Some res)
    /\ (forall m, m ∈ m_active_messages res ->
          0 <= e_user_id m < max_dir_entries info
          /\ (exists block, slot_block data info (e_user_id m) = Ok block /\ block <> 0)
          /\ e_user_info m = lookup_user users (e_user_id m)
          /\ e_date m = parse_date (e_message m)
          /\ (4 ∉ e_message m))
    /\ StronglySorted
         (fun x y => date_key (e_date x) < date_key (e_date y)
                     \/ (date_key (e_date x) = date_key (e_date y)
                         /\ e_user_id x <= e_user_id y))
         (m_active_messages res).
Proof.
  intros Hbytes Hinfo.
  destruct (scan_database_email_spec data users info Hbytes Hinfo)
    as (res & Hscan & _ & _ & Hgood & Hsorted).
  exists res. split_and!; assumption.
Qed.

Lemma email_records_by_user_witness :
  exists res,
    scan_database_email (H := Fixture.no_dates) Samples.mailbox_two None = Ok (Some res)
    /\ (forall m, m ∈ m_active_messages res ->
          0 <= e_user_id m < max_dir_entries Fixture.mailbox_info
          /\ (exists block, slot_block Samples.mailbox_two Fixture.mailbox_info (e_user_id m)
                            = Ok block /\ block <> 0)
          /\ e_user_info m = lookup_user None (e_user_id m)
          /\ e_date m = parse_date (H := Fixture.no_dates) (e_message m)
          /\ (4 ∉ e_message m))
    /\ StronglySorted
         (fun x y => date_key (H := Fixture.no_dates) (e_date x)
                     < date_key (H := Fixture.no_dates) (e_date y)
                     \/ (date_key (H := Fixture.no_dates) (e_date x)
                         = date_key (H := Fixture.no_dates) (e_date y)
                         /\ e_user_id x <= e_user_id y))
         (m_active_messages res).
Proof.
  apply (email_records_by_user (H := Fixture.no_dates) Samples.mailbox_two None
           Fixture.mailbox_info).
  - apply bytes_check_sound. vm_compute. reflexivity.
  - vm_compute. reflexivity.
Defined.

(** The two messages of user 1 in [Samples.mailbox_two]. *)
Example mailbox_two_scan :
  exists res,
    scan_database_email (H := Fixture.no_dates) Samples.mailbox_two None = Ok (Some res)
    /\ (fun m => (e_user_id m, e_message m)) <$> m_active_messages res
       = [(1, str "First message, long enough."); (1, str "Second message, long enough.")]
    /\ m_allocated_blocks res = {[1]}.
Proof. eexists. vm_compute. split_and!; reflexivity. Qed.

(** ** Dispatch: [detect_format] and [scan_database] *)

Lemma detect_format_cons (d0 : Z) (data : list Z) :
  detect_format (d0 :: data) = Ok (if d0 =? 4 then Email else Bulletin).
Proof. reflexivity. Qed.

(** X12: what [scan_database] does with every file.  On an empty file
    it raises [IndexError], from the subscript of [detect_format]; on a
    file of one to seven bytes it returns [None]; on a longer file it
    returns a result, that of the email scanner when the first byte is 4
    and that of the bulletin scanner otherwise. *)
Theorem scan_database_dispatch `{DateLibrary} (data : list Z)
    (users : option (gmap Z user_info)) :
  is_bytes data ->
  (data = [] -> scan_database data users = Raise IndexError)
  /\ (1 <= len data < 8 -> scan_database data users = Ok None)
  /\ (8 <= len data ->
      exists r, scan_database data users = Ok (Some r)
                /\ match r with
                   | EmailScan e =>
                       data !! 0%nat = Some 4
                       /\ scan_database_email data users = Ok (Some e)
                   | BulletinScan b =>
                       data !! 0%nat <> Some 4
                       /\ scan_database_bulletin data = Ok (Some b)
                   end).
Proof.
  intros Hbytes. split; [| split].
  - intros ->. reflexivity.
  - intros Hlen. destruct data as [| d0 data]; [unfold len in Hlen; simpl in Hlen; lia |].
    unfold scan_database. rewrite detect_format_cons. cbn [mbind outcome_bind bind].
    destruct (d0 =? 4).
    + unfold scan_database_email. rewrite read_msginfo_short by lia. reflexivity.
    + rewrite scan_short_file by lia. reflexivity.
  - intros Hlen. destruct (read_msginfo_long data Hbytes Hlen) as (info & Hinfo & _).
    destruct data as [| d0 data]; [unfold len in Hlen; simpl in Hlen; lia |].
    unfold scan_database. rewrite detect_format_cons. cbn [mbind outcome_bind bind].
    destruct (Z.eqb_spec d0 4) as [-> | Hd0].
    + destruct (scan_database_email_spec (4 :: data) users info Hbytes Hinfo)
        as (res & Hscan & _).
      rewrite Hscan. exists (EmailScan res). split; [reflexivity |].
      split; [reflexivity | exact eq_refl].
    + destruct (scan_bulletin_state_spec (d0 :: data) info Hbytes Hinfo)
        as (_ & s & Hscan & _).
      rewrite (scan_database_bulletin_eq _ _ _ _ Hscan).
      eexists (BulletinScan _). split; [reflexivity |].
      split; [cbn; congruence | reflexivity].
Qed.

Lemma scan_database_dispatch_witness :
  (Fixture.mailbox = [] ->
   scan_database (H := Fixture.no_dates) Fixture.mailbox None = Raise IndexError)
  /\ (1 <= len Fixture.mailbox < 8 ->
      scan_database (H := Fixture.no_dates) Fixture.mailbox None = Ok None)
  /\ (8 <= len Fixture.mailbox ->
      exists r, scan_database (H := Fixture.no_dates) Fixture.mailbox None = Ok (Some r)
                /\ match r with
                   | EmailScan e =>
                       Fixture.mailbox !! 0%nat = Some 4
                       /\ scan_database_email (H := Fixture.no_dates) Fixture.mailbox None
                          = Ok (Some e)
                   | BulletinScan b =>
                       Fixture.mailbox !! 0%nat <> Some 4
                       /\ scan_database_bulletin (H := Fixture.no_dates) Fixture.mailbox
                          = Ok (Some b)
                   end).
Proof.
  apply (scan_database_dispatch (H := Fixture.no_dates) Fixture.mailbox None).
  apply bytes_check_sound. vm_compute. reflexivity.
Defined.

(** ** The layout of a store *)

(** X13: the areas that the header announces.  For a store of eight
    bytes or more [read_msginfo] returns a header; the slots of the
    directory fill the bytes from [dir_offset] to [data_offset], where
    block 1 begins, so no slot overlaps a block; and a block with a
    positive number lies wholly in the file exactly when its number is at
    most the [total_blocks] of the scanners: the test of the offset in
    PHASE 2 and PHASE 3 never skips a block, and the two tests of the
    chain follower agree on such a block. *)
Theorem store_layout (data : list Z) :
  is_bytes data -> 8 <= len data ->
  exists info,
    read_msginfo data = Ok (Some info)
    /\ 8 <= dir_offset info <= data_offset info
    /\ data_offset info <= 65288
    /\ max_dir_entries info = 32 * dir_blocks info
    /\ (forall e, 0 <= e < max_dir_entries info ->
          dir_offset info <= dir_offset info + e * 4
          /\ dir_offset info + e * 4 + 4 <= data_offset info)
    /\ offset_of (data_offset info) 1 = data_offset info
    /\ (forall b, 1 <= b ->
          (offset_of (data_offset info) b + 128 <= len data
           <-> b <= total_blocks_of data info)
          /\ in_range data (total_blocks_of data info) (data_offset info) b
             = (b <=? total_blocks_of data info)).
Proof.
  intros Hbytes Hlen. unfold read_msginfo.
  destruct (Z.ltb_spec (len data) 8); [lia |].
  destruct data as [| d0 [| d1 data']]; try (unfold len in Hlen; simpl in Hlen; lia).
  assert (byte_ok d0 /\ byte_ok d1) as [Hd0 Hd1].
  { apply Forall_cons in Hbytes. destruct Hbytes as [? Hbytes].
    apply Forall_cons in Hbytes. destruct Hbytes as [? _]. split; assumption. }
  cbn [getitem lookup list_lookup mbind outcome_bind bind].
  destruct (unpack_H_two (slice (d0 :: d1 :: data') 2 4)) as [used Hused].
  { pose proof (length_slice_inside (d0 :: d1 :: data') 2 4). unfold len in *. lia. }
  destruct (unpack_H_two (slice (d0 :: d1 :: data') 4 6)) as [count Hcount].
  { pose proof (length_slice_inside (d0 :: d1 :: data') 4 6). unfold len in *. lia. }
  destruct (unpack_H_two (slice (d0 :: d1 :: data') 6 8)) as [new Hnew].
  { pose proof (length_slice_inside (d0 :: d1 :: data') 6 8). unfold len in *. lia. }
  rewrite Hused, Hcount, Hnew. cbn [bind].
  eexists. split; [reflexivity |].
  cbn [dir_offset data_offset max_dir_entries dir_blocks]. unfold byte_ok in *.
  assert (d1 * 128 / 4 = 32 * d1) as Hmax.
  { replace (d1 * 128) with (32 * d1 * 4) by lia. apply Z.div_mul. lia. }
  rewrite Hmax. split; [lia |]. split; [lia |]. split; [reflexivity |].
  split; [intros e He; lia |]. split; [unfold offset_of; lia |].
  intros b Hb.
  assert (offset_of (8 + d0 * 128 + d1 * 128) b + 128 <= len (d0 :: d1 :: data')
          <-> b <= (len (d0 :: d1 :: data') - (8 + d0 * 128 + d1 * 128)) / 128) as Hiff.
  { unfold offset_of.
    set (area := len (d0 :: d1 :: data') - (8 + d0 * 128 + d1 * 128)).
    pose proof (Z.mul_div_le area 128 ltac:(lia)).
    pose proof (Z.mul_succ_div_gt area 128 ltac:(lia)).
    split; intros Hle; [| nia].
    assert (b * 128 <= area) as Hba by lia.
    apply Z.div_le_lower_bound; lia. }
  unfold total_blocks_of. cbn [data_offset]. split; [exact Hiff |].
  unfold in_range. rewrite Z.gtb_ltb.
  destruct (Z.leb_spec b ((len (d0 :: d1 :: data') - (8 + d0 * 128 + d1 * 128)) / 128))
    as [Hle | Hgt].
  - apply Hiff in Hle.
    destruct (Z.ltb_spec (len (d0 :: d1 :: data'))
                (offset_of (8 + d0 * 128 + d1 * 128) b + 128)); [lia |].
    rewrite Z.gtb_ltb.
    destruct (Z.ltb_spec ((len (d0 :: d1 :: data') - (8 + d0 * 128 + d1 * 128)) / 128) b);
      [| reflexivity].
    apply Hiff in Hle. lia.
  - rewrite Z.gtb_ltb.
    destruct (Z.ltb_spec ((len (d0 :: d1 :: data') - (8 + d0 * 128 + d1 * 128)) / 128) b);
      [| lia].
    rewrite orb_true_r. reflexivity.
Qed.

Lemma store_layout_witness :
  exists info,
    read_msginfo Fixture.three_kinds = Ok (Some info)
    /\ 8 <= dir_offset info <= data_offset info
    /\ data_offset info <= 65288
    /\ max_dir_entries info = 32 * dir_blocks info
    /\ (forall e, 0 <= e < max_dir_entries info ->
          dir_offset info <= dir_offset info + e * 4
          /\ dir_offset info + e * 4 + 4 <= data_offset info)
    /\ offset_of (data_offset info) 1 = data_offset info
    /\ (forall b, 1 <= b ->
          (offset_of (data_offset info) b + 128 <= len Fixture.three_kinds
           <-> b <= total_blocks_of Fixture.three_kinds info)
          /\ in_range Fixture.three_kinds (total_blocks_of Fixture.three_kinds info)
               (data_offset info) b
             = (b <=? total_blocks_of Fixture.three_kinds info)).
Proof.
  apply (store_layout Fixture.three_kinds).
  - apply bytes_check_sound. vm_compute. reflexivity.
  - vm_compute. discriminate.
Defined.

(** ** The users file *)

Lemma find_char_range (c : Z) (t : text) : -1 <= find_char c t < len t \/ (t = [] /\ find_char c t = -1).
Proof.
  induction t as [| x t IH]; [right; split; reflexivity |]. left.
  cbn [find_char]. unfold len in *. cbn [length].
  destruct (x =? c); [lia |].
  destruct (Z.ltb_spec (find_char c t) 0); [lia |].
  destruct IH as [IH | [-> IH]]; [lia | simpl in *; lia].
Qed.

Lemma find_char_bounds (c : Z) (t : text) : -1 <= find_char c t /\ find_char c t <= len t - 1.
Proof.
  destruct (find_char_range c t) as [Hr | [-> Hr]]; [lia |].
  unfold len. simpl. lia.
Qed.

(** No [c] before the position that [find] returns. *)
Lemma find_char_take (c : Z) (t : text) :
  0 <= find_char c t -> c ∉ take (Z.to_nat (find_char c t)) t.
Proof.
  induction t as [| x t IH]; cbn [find_char]; [lia |].
  destruct (Z.eqb_spec x c) as [-> | Hx].
  - intros _. cbn. apply not_elem_of_nil.
  - destruct (Z.ltb_spec (find_char c t) 0) as [Hneg | Hpos]; [lia |].
    intros _. replace (Z.to_nat (find_char c t + 1)) with (S (Z.to_nat (find_char c t))) by lia.
    cbn [take]. rewrite elem_of_cons. intros [Heq | Hin]; [congruence |].
    exact (IH Hpos Hin).
Qed.

Lemma find_from_slice (c s : Z) (l : list Z) :
  0 <= s <= len l -> 0 <= find_from c s l ->
  s <= find_from c s l < len l /\ c ∉ slice l s (find_from c s l).
Proof.
  intros Hs. unfold find_from. rewrite norm_index_in by lia.
  pose proof (find_char_bounds c (slice l s (len l))) as Hb.
  pose proof (length_slice_inside l s (len l) ltac:(lia) ltac:(lia)) as Hlen.
  destruct (Z.ltb_spec (find_char c (slice l s (len l))) 0) as [Hneg | Hpos]; [lia |].
  intros _. split; [lia |].
  pose proof (find_char_take c (slice l s (len l)) Hpos) as Hout.
  set (r := find_char c (slice l s (len l))) in *.
  rewrite (slice_inside l s (len l)) in Hout by lia.
  rewrite take_take in Hout.
  rewrite slice_inside by lia.
  replace (Z.to_nat (s + r - s)) with (Z.to_nat r `min` Z.to_nat (len l - s))%nat by lia.
  exact Hout.
Qed.

Lemma decode_ascii_replace_elem (c : Z) (b : list Z) :
  c < 128 -> c ∈ decode_ascii_replace b -> c ∈ b.
Proof.
  intros Hc Hin. unfold decode_ascii_replace in Hin.
  apply list_elem_of_In, in_map_iff in Hin. destruct Hin as (x & Hx & Hin).
  destruct (Z.ltb_spec x 128); [subst x; apply list_elem_of_In, Hin | lia].
Qed.

(** The ends of a stripped text are not white space. *)
Lemma lstrip_head (t : text) (c : Z) : head (lstrip t) = Some c -> isspace c = false.
Proof.
  induction t as [| x t IH]; cbn [lstrip]; [discriminate |].
  destruct (isspace x) eqn:Hx; [exact IH |].
  cbn. intros [= <-]. exact Hx.
Qed.

Lemma lstrip_suffix (t : text) : exists pre, t = pre ++ lstrip t.
Proof.
  induction t as [| x t (pre & IH)]; cbn [lstrip].
  - exists []. reflexivity.
  - destruct (isspace x).
    + exists (x :: pre). cbn. congruence.
    + exists []. reflexivity.
Qed.

Lemma strip_ends (t : text) (c : Z) :
  head (strip t) = Some c \/ last (strip t) = Some c -> isspace c = false.
Proof.
  unfold strip, rstrip. rewrite head_reverse, last_reverse. intros [Hc | Hc].
  - destruct (lstrip_suffix (reverse (lstrip t))) as (pre & Heq).
    assert (last (reverse (lstrip t)) = Some c) as Hlast.
    { rewrite Heq, last_app, Hc. reflexivity. }
    rewrite last_reverse in Hlast. apply (lstrip_head t c Hlast).
  - apply (lstrip_head _ c Hc).
Qed.

(** What the entry of a record holds. *)
Lemma users_record_spec (record : list Z) (info : user_info) :
  users_record record = Some info ->
  full_name info <> []
  /\ (13 ∉ full_name info) /\ (13 ∉ city_state info)
  /\ (forall c, head (full_name info) = Some c \/ last (full_name info) = Some c ->
                isspace c = false)
  /\ (forall c, head (city_state info) = Some c \/ last (city_state info) = Some c ->
                isspace c = false)
  /\ exists first_line_end second_line_end,
       0 < first_line_end < second_line_end /\ second_line_end < len record
       /\ record !! Z.to_nat first_line_end = Some 13
       /\ record !! Z.to_nat second_line_end = Some 13
       /\ (13 ∉ slice record 0 first_line_end)
       /\ full_name info
          = strip (decode_ascii_replace (slice record (first_line_end + 1) second_line_end)).
Proof.
  unfold users_record.
  pose proof (find_char_bounds 13 record) as Hfirst.
  destruct (Z.leb_spec (find_char 13 record) 0) as [| Hpos1]; [discriminate |].
  set (first := find_char 13 record) in *.
  destruct (Z.leb_spec (find_from 13 (first + 1) record) 0) as [| Hpos2]; [discriminate |].
  destruct (find_from_slice 13 (first + 1) record ltac:(lia) ltac:(lia)) as (Hsecond & Hclean2).
  set (second := find_from 13 (first + 1) record) in *.
  destruct (bool_decide_reflect
              (strip (decode_ascii_replace (slice record (first + 1) second)) = []))
    as [| Hname]; [discriminate |].
  intros [= <-]. cbn [full_name city_state].
  split; [exact Hname |]. split.
  { intros Hin. apply strip_elem, decode_ascii_replace_elem in Hin; [| lia].
    exact (Hclean2 Hin). }
  split.
  { destruct (Z.gtb_spec (find_from 13 (second + 1) record) 0) as [Hpos3 | _];
      [| apply not_elem_of_nil].
    destruct (find_from_slice 13 (second + 1) record ltac:(lia) ltac:(lia)) as (_ & Hclean3).
    intros Hin. apply strip_elem, decode_ascii_replace_elem in Hin; [| lia].
    exact (Hclean3 Hin). }
  split; [intros c; apply strip_ends |].
  split.
  { intros c. destruct (find_from 13 (second + 1) record >? 0); [apply strip_ends |].
    cbn. intros [? | ?]; discriminate. }
  exists first, second. split; [lia |]. split; [lia |].
  assert (forall c t, 0 <= find_char c t -> t !! Z.to_nat (find_char c t) = Some c) as Hat.
  { clear. intros c t. induction t as [| x t IH]; cbn [find_char]; [lia |].
    destruct (Z.eqb_spec x c) as [-> | Hx]; [reflexivity |].
    destruct (Z.ltb_spec (find_char c t) 0) as [Hneg | Hpos]; [lia |].
    intros _. replace (Z.to_nat (find_char c t + 1)) with (S (Z.to_nat (find_char c t))) by lia.
    cbn. apply IH, Hpos. }
  split; [apply Hat; lia |]. split.
  { subst second. unfold find_from in *. rewrite norm_index_in in * by lia.
    destruct (Z.ltb_spec (find_char 13 (slice record (first + 1) (len record))) 0)
      as [Hneg | Hpos]; [lia |].
    pose proof (Hat 13 (slice record (first + 1) (len record)) Hpos) as Hslice.
    set (r := find_char 13 (slice record (first + 1) (len record))) in *.
    rewrite slice_inside in Hslice by lia.
    apply lookup_take_Some in Hslice. destruct Hslice as [Hslice _].
    rewrite lookup_drop in Hslice. rewrite <- Hslice. f_equal. lia. }
  split; [| reflexivity].
  pose proof (find_char_take 13 record ltac:(lia)) as Hout.
  rewrite slice_inside by lia. rewrite Z.sub_0_r. cbn [Z.to_nat drop]. exact Hout.
Qed.

(** The dictionary holds, for each record of the file, the entry of the
    record. *)
Lemma users_fold (data : list Z) (l : list Z) :
  forall (users : gmap Z user_info) (uid : Z),
    fold_left (users_step data) l users !! uid
    = match (if bool_decide (uid ∈ l)
             then users_record (slice data (uid * 128) (uid * 128 + 128)) else None) with
      | Some info => Some info
      | None => users !! uid
      end.
Proof.
  induction l as [| x l IH]; intros users uid; cbn [fold_left].
  - rewrite bool_decide_eq_false_2 by apply not_elem_of_nil. reflexivity.
  - rewrite IH. unfold users_step.
    destruct (decide (uid ∈ l)) as [Hin | Hout].
    + rewrite !bool_decide_eq_true_2; [| apply list_elem_of_further, Hin | exact Hin].
      destruct (users_record (slice data (uid * 128) (uid * 128 + 128))) eqn:Hrec;
        [reflexivity |].
      destruct (decide (x = uid)) as [-> | Hne]; [rewrite Hrec; reflexivity |].
      destruct (users_record (slice data (x * 128) (x * 128 + 128)));
        [apply lookup_insert_ne, Hne | reflexivity].
    + rewrite (bool_decide_eq_false_2 (uid ∈ l)) by exact Hout.
      destruct (decide (x = uid)) as [-> | Hne].
      * rewrite bool_decide_eq_true_2 by apply list_elem_of_here.
        destruct (users_record (slice data (uid * 128) (uid * 128 + 128)));
          [apply lookup_insert_eq | reflexivity].
      * rewrite bool_decide_eq_false_2.
        2: { rewrite elem_of_cons. intros [Heq | Hin]; [congruence | exact (Hout Hin)]. }
        destruct (users_record (slice data (x * 128) (x * 128 + 128)));
          [apply lookup_insert_ne, Hne | reflexivity].
Qed.

Lemma parse_users_lookup (data : list Z) (uid : Z) :
  parse_users data !! uid
  = if bool_decide (0 <= uid < len data / 128)
    then users_record (slice data (uid * 128) (uid * 128 + 128)) else None.
Proof.
  unfold parse_users. rewrite users_fold, lookup_empty.
  assert (bool_decide (uid ∈ range (len data / 128))
          = bool_decide (0 <= uid < len data / 128)) as ->.
  { apply bool_decide_ext. unfold range. rewrite elem_of_seqZ. lia. }
  destruct (bool_decide (0 <= uid < len data / 128)); [| reflexivity].
  destruct (users_record _); reflexivity.
Qed.

(** X14: the dictionary of [read_users_file].  A file that cannot be
    read gives the empty dictionary.  Otherwise user [uid] has an entry
    only when record [uid] is one of the whole records of 128 bytes of
    the file and the body of the loop gives it one: the record holds a
    carriage return after a first line that is not empty, and a second
    one after it, and the text between them is not empty once stripped.
    That text is the name: it holds no carriage return and neither
    begins nor ends with white space, and the same holds of the city. *)
Theorem users_file_entries (content : option (list Z)) (uid : Z) (info : user_info) :
  read_users_file content !! uid = Some info ->
  exists data,
    content = Some data
    /\ 0 <= uid < len data / 128
    /\ users_record (slice data (uid * 128) (uid * 128 + 128)) = Some info
    /\ full_name info <> []
    /\ (13 ∉ full_name info) /\ (13 ∉ city_state info)
    /\ (forall c, head (full_name info) = Some c \/ last (full_name info) = Some c ->
                  isspace c = false)
    /\ (forall c, head (city_state info) = Some c \/ last (city_state info) = Some c ->
                  isspace c = false)
    /\ exists first_line_end second_line_end,
         0 < first_line_end < second_line_end
         /\ second_line_end < len (slice data (uid * 128) (uid * 128 + 128))
         /\ slice data (uid * 128) (uid * 128 + 128) !! Z.to_nat first_line_end = Some 13
         /\ slice data (uid * 128) (uid * 128 + 128) !! Z.to_nat second_line_end = Some 13
         /\ (13 ∉ slice (slice data (uid * 128) (uid * 128 + 128)) 0 first_line_end)
         /\ full_name info
            = strip (decode_ascii_replace
                       (slice (slice data (uid * 128) (uid * 128 + 128))
                          (first_line_end + 1) second_line_end)).
Proof.
  destruct content as [data |]; cbn [read_users_file];
    [| rewrite lookup_empty; discriminate].
  rewrite parse_users_lookup.
  destruct (bool_decide_reflect (0 <= uid < len data / 128)) as [Huid |]; [| discriminate].
  intros Hrec. exists data. split; [reflexivity |]. split; [exact Huid |].
  split; [exact Hrec |].
  destruct (users_record_spec _ _ Hrec) as (Hname & Hcr1 & Hcr2 & Hends1 & Hends2 & Hlines).
  split_and!; assumption.
Qed.

Lemma users_file_entries_witness :
  let info := UserInfo (str "Alice Smith") (str "Springfield, IL") in
  exists data,
    Some Samples.users_file = Some data
    /\ 0 <= 1 < len data / 128
    /\ users_record (slice data (1 * 128) (1 * 128 + 128)) = Some info
    /\ full_name info <> []
    /\ (13 ∉ full_name info) /\ (13 ∉ city_state info)
    /\ (forall c, head (full_name info) = Some c \/ last (full_name info) = Some c ->
                  isspace c = false)
    /\ (forall c, head (city_state info) = Some c \/ last (city_state info) = Some c ->
                  isspace c = false)
    /\ exists first_line_end second_line_end,
         0 < first_line_end < second_line_end
         /\ second_line_end < len (slice data (1 * 128) (1 * 128 + 128))
         /\ slice data (1 * 128) (1 * 128 + 128) !! Z.to_nat first_line_end = Some 13
         /\ slice data (1 * 128) (1 * 128 + 128) !! Z.to_nat second_line_end = Some 13
         /\ (13 ∉ slice (slice data (1 * 128) (1 * 128 + 128)) 0 first_line_end)
         /\ full_name info
            = strip (decode_ascii_replace
                       (slice (slice data (1 * 128) (1 * 128 + 128))
                          (first_line_end + 1) second_line_end)).
Proof.
  intros info.
  apply (users_file_entries (Some Samples.users_file) 1 info).
  vm_compute. reflexivity.
Defined.

(** X15: the lookup of a user.  For the records of the file the
    dictionary holds what the body of the loop computes from record
    [uid] alone, and it holds nothing for other numbers; and the test
    [if users] of the email scanner changes nothing: the scanner finds
    for a user the entry of the dictionary, if there is one. *)
Theorem users_lookup_by_record (data : list Z) (uid : Z) :
  read_users_file (Some data) !! uid
  = (if bool_decide (0 <= uid < len data / 128)
     then users_record (slice data (uid * 128) (uid * 128 + 128)) else None)
  /\ lookup_user (Some (read_users_file (Some data))) uid
     = read_users_file (Some data) !! uid
  /\ lookup_user (Some (read_users_file None)) uid = None.
Proof.
  split; [apply parse_users_lookup |]. split.
  - unfold lookup_user.
    destruct (bool_decide_reflect (read_users_file (Some data) = ∅)) as [-> |];
      [rewrite lookup_empty |]; reflexivity.
  - reflexivity.
Qed.

(** The users file of the examples. *)
Example users_file_parsed :
  read_users_file (Some Samples.users_file)
  = {[ 1 := UserInfo (str "Alice Smith") (str "Springfield, IL") ]}.
Proof. vm_compute. reflexivity. Qed.

(** ** The traversal for ['active_all_blocks'] *)

Section Trail.
Variables (data : list Z) (data_offset : Z) (total_blocks : Z).
Hypothesis data_bytes : is_bytes data.
Hypothesis offset_nonneg : 0 <= data_offset.
Hypothesis in_file_bound :
  forall b, 1 <= b -> offset_of data_offset b + 128 <= len data -> b <= total_blocks.

Abbreviation step := (pointer_step data data_offset).
Abbreviation trail_loop := (trail_loop data data_offset).
Abbreviation trail_message := (trail_message data data_offset).

(** A set that holds [h], is reached from [h] and is closed under the
    steps holds exactly the blocks that the steps reach from [h]. *)
Lemma closed_reach (h : Z) (X : gset Z) :
  h ∈ X -> (forall b, b ∈ X -> rtc step h b) ->
  (forall b n, b ∈ X -> step b n -> n ∈ X) ->
  forall b, b ∈ X <-> rtc step h b.
Proof.
  intros Hh Hreach Hclosed b. split; [apply Hreach |].
  intros Hrtc.
  assert (forall x y, rtc step x y -> x ∈ X -> y ∈ X) as Hgen.
  { clear -Hclosed. intros x y Hxy. induction Hxy as [| x y z Hxy _ IH]; [auto |].
    intros Hx. apply IH, (Hclosed x y Hx Hxy). }
  exact (Hgen h b Hrtc Hh).
Qed.

(** The [while] loop of the traversal from head [h]: it returns, and
    [visited] is then closed under the steps. *)
Lemma trail_loop_spec (h : Z) (A0 : gset Z) (fuel : nat) :
  forall t : trail,
    (forall b, b ∈ tr_visited t ->
       1 <= b <= total_blocks /\ offset_of data_offset b + 128 <= len data
       /\ rtc step h b) ->
    h ∈ tr_visited t ->
    tr_all_blocks t = A0 ∪ tr_visited t ->
    0 <= tr_next_block t ->
    (tr_next_block t <> 0 -> exists cur, cur ∈ tr_visited t /\ step cur (tr_next_block t)) ->
    (forall b n, b ∈ tr_visited t -> step b n -> n ∈ tr_visited t \/ n = tr_next_block t) ->
    (Z.to_nat total_blocks + 1 <= fuel + size (tr_visited t))%nat ->
    exists t',
      trail_loop fuel t = Ok t'
      /\ tr_all_blocks t' = A0 ∪ tr_visited t'
      /\ h ∈ tr_visited t'
      /\ (forall b, b ∈ tr_visited t' -> rtc step h b)
      /\ (forall b n, b ∈ tr_visited t' -> step b n -> n ∈ tr_visited t').
Proof.
  induction fuel as [| fuel IH]; intros t Hvis Hh Hall Hnext Hpend Hclosed Hfuel.
  - assert (size (tr_visited t) <= Z.to_nat total_blocks)%nat as Hsize.
    { apply size_blocks_bound. intros b Hb. apply Hvis, Hb. }
    lia.
  - cbn [Gbbs.trail_loop].
    destruct (negb (tr_next_block t =? 0)
              && negb (bool_decide (tr_next_block t ∈ tr_visited t))) eqn:Hcond.
    2: { exists t. split; [reflexivity |]. split; [exact Hall |]. split; [exact Hh |].
         split; [intros b Hb; apply Hvis, Hb |].
         intros b n Hb Hbn. destruct (Hclosed b n Hb Hbn) as [Hin | ->]; [exact Hin |].
         apply andb_false_iff in Hcond. destruct Hcond as [Hz | Hv].
         - apply negb_false_iff, Z.eqb_eq in Hz. destruct Hbn as (_ & _ & Hnz). lia.
         - apply negb_false_iff, bool_decide_eq_true in Hv. exact Hv. }
    apply andb_true_iff in Hcond. destruct Hcond as [Hnz Hfresh].
    apply negb_true_iff, Z.eqb_neq in Hnz.
    apply negb_true_iff, bool_decide_eq_false in Hfresh.
    destruct (Hpend Hnz) as (cur & Hcur & Hstep).
    assert (rtc step h (tr_next_block t)) as Hreach.
    { eapply rtc_r; [apply Hvis, Hcur | exact Hstep]. }
    change (data_offset + (tr_next_block t - 1) * 128)
      with (offset_of data_offset (tr_next_block t)).
    rewrite Z.gtb_ltb.
    destruct (Z.ltb_spec (len data) (offset_of data_offset (tr_next_block t) + 128))
      as [Hout | Hin].
    + eexists. split; [reflexivity |]. cbn [tr_all_blocks tr_visited tr_next_block].
      split; [rewrite Hall; set_solver |]. split; [set_solver |]. split.
      * intros b Hb. apply elem_of_union in Hb. destruct Hb as [Hb | Hb].
        -- apply elem_of_singleton in Hb. subst b. exact Hreach.
        -- apply Hvis, Hb.
      * intros b n Hb Hbn. apply elem_of_union in Hb. destruct Hb as [Hb | Hb].
        -- apply elem_of_singleton in Hb. subst b. destruct Hbn as (Hfile & _). lia.
        -- destruct (Hclosed b n Hb Hbn) as [Hn | ->]; set_solver.
    + destruct (next_pointer_ok data data_offset offset_nonneg (tr_next_block t)
                  ltac:(lia) Hin) as [next' Hnext'].
      change (unpack_H _) with (next_pointer data data_offset (tr_next_block t)).
      rewrite Hnext'. cbn [mbind outcome_bind bind].
      pose proof (next_pointer_range data data_offset _ _ data_bytes Hnext') as Hrange.
      apply IH; cbn [tr_all_blocks tr_visited tr_next_block].
      * intros b Hb. apply elem_of_union in Hb. destruct Hb as [Hb | Hb].
        -- apply elem_of_singleton in Hb. subst b.
           split; [split; [lia | apply in_file_bound; lia] |]. split; [exact Hin | exact Hreach].
        -- apply Hvis, Hb.
      * set_solver.
      * rewrite Hall. set_solver.
      * lia.
      * intros Hnz'. exists (tr_next_block t). split; [set_solver |].
        split; [exact Hin |]. split; [exact Hnext' | exact Hnz'].
      * intros b n Hb Hbn. apply elem_of_union in Hb. destruct Hb as [Hb | Hb].
        -- apply elem_of_singleton in Hb. subst b. right.
           destruct Hbn as (_ & Hn & _). rewrite Hnext' in Hn. congruence.
        -- destruct (Hclosed b n Hb Hbn) as [Hn | ->]; [left | left]; set_solver.
      * rewrite size_union by set_solver. rewrite size_singleton. lia.
Qed.

(** The body of the loop over the Active messages: it adds to the set
    the blocks that the next-pointers reach from the head block. *)
Lemma trail_message_spec (h : Z) (A : gset Z) :
  1 <= h ->
  exists A',
    trail_message (walk_fuel total_blocks) h A = Ok (Next A')
    /\ forall b, b ∈ A' <-> b ∈ A \/ rtc step h b.
Proof.
  intros Hh. unfold Gbbs.trail_message.
  change (data_offset + (h - 1) * 128) with (offset_of data_offset h).
  destruct (Z.leb_spec (offset_of data_offset h + 128) (len data)) as [Hin | Hout].
  - destruct (next_pointer_ok data data_offset offset_nonneg h ltac:(lia) Hin)
      as [next Hnext].
    change (unpack_H _) with (next_pointer data data_offset h).
    rewrite Hnext. cbn [mbind outcome_bind bind].
    pose proof (next_pointer_range data data_offset _ _ data_bytes Hnext) as Hrange.
    destruct (trail_loop_spec h A (walk_fuel total_blocks)
                (Trail ({[h]} ∪ A) {[h]} next))
      as (t' & Hrun & Hall & Hhead & Hreach & Hclosed);
      cbn [tr_all_blocks tr_visited tr_next_block].
    + intros b Hb. apply elem_of_singleton in Hb. subst b.
      split; [split; [lia | apply in_file_bound; lia] |]. split; [exact Hin | apply rtc_refl].
    + set_solver.
    + set_solver.
    + lia.
    + intros Hnz. exists h. split; [set_solver |].
      split; [exact Hin |]. split; [exact Hnext | exact Hnz].
    + intros b n Hb Hbn. apply elem_of_singleton in Hb. subst b. right.
      destruct Hbn as (_ & Hn & _). rewrite Hnext in Hn. congruence.
    + rewrite size_singleton. unfold walk_fuel. lia.
    + rewrite Hrun. cbn [mbind outcome_bind bind mret outcome_ret].
      eexists. split; [reflexivity |]. intros b. rewrite Hall, elem_of_union.
      rewrite (closed_reach h (tr_visited t') Hhead Hreach Hclosed b). reflexivity.
  - eexists. split; [reflexivity |]. intros b. rewrite elem_of_union, elem_of_singleton.
    split; intros [Hb | Hb]; auto.
    + subst b. right. apply rtc_refl.
    + left. inversion Hb as [| x y z Hxy _]; subst; [reflexivity |].
      destruct Hxy as (Hfile & _). lia.
Qed.

(** The loop over the head blocks [heads]. *)
Lemma trail_messages_spec (heads : list Z) :
  forall A : gset Z,
    Forall (fun h => 1 <= h) heads ->
    exists A',
      for_each (trail_message (walk_fuel total_blocks)) heads A = Ok A'
      /\ forall b, b ∈ A' <-> b ∈ A \/ exists h, h ∈ heads /\ rtc step h b.
Proof.
  induction heads as [| h heads IH]; intros A Hheads.
  - exists A. split; [reflexivity |]. intros b. split; [auto |].
    intros [Hb | (h & Hh & _)]; [exact Hb |]. apply elem_of_nil in Hh. contradiction.
  - apply Forall_cons in Hheads. destruct Hheads as [Hh Hheads].
    destruct (trail_message_spec h A Hh) as (A1 & Hrun1 & HA1).
    destruct (IH A1 Hheads) as (A' & Hrun & HA').
    exists A'. cbn [for_each]. rewrite Hrun1. cbn [mbind outcome_bind bind].
    split; [exact Hrun |]. intros b. rewrite HA', HA1. split.
    + intros [[Hb | Hb] | (h' & Hh' & Hb)]; [left; exact Hb | right | right].
      * exists h. split; [apply list_elem_of_here | exact Hb].
      * exists h'. split; [apply list_elem_of_further, Hh' | exact Hb].
    + intros [Hb | (h' & Hh' & Hb)]; [left; left; exact Hb |].
      apply elem_of_cons in Hh'. destruct Hh' as [-> | Hh'].
      * left. right. exact Hb.
      * right. exists h'. split; assumption.
Qed.
End Trail.

Lemma in_file_total_blocks (data : list Z) (info : msginfo) (b : Z) :
  1 <= b -> offset_of (data_offset info) b + 128 <= len data ->
  b <= total_blocks_of data info.
Proof.
  unfold total_blocks_of, offset_of. intros Hb Hfile.
  apply Z.div_le_lower_bound; lia.
Qed.

(** The traversal over the Active messages of the scan. *)
Lemma active_all_blocks_spec `{DateLibrary} (data : list Z) (info : msginfo) :
  is_bytes data -> read_msginfo data = Ok (Some info) ->
  exists r blocks,
    scan_database_bulletin data = Ok (Some r)
    /\ active_all_blocks data info (b_active_messages r) = Ok blocks
    /\ (forall b, b ∈ blocks <->
          exists m, m ∈ b_active_messages r
                    /\ rtc (pointer_step data (data_offset info)) (a_block m) b)
    /\ allocated_blocks r ⊆ blocks.
Proof.
  intros Hbytes Hinfo.
  destruct (scan_bulletin_state_spec data info Hbytes Hinfo)
    as (Hoff & s & Hscan & _ & Hrec & _).
  eexists. 
  assert (Forall (fun h => 1 <= h) (a_block <$> (st_active s).*1)) as Hheads.
  { apply Forall_forall. intros h Hh.
    apply list_elem_of_fmap in Hh. destruct Hh as (m & -> & Hm).
    apply list_elem_of_fmap in Hm. destruct Hm as (x & -> & Hx).
    apply list_elem_of_lookup in Hx. destruct Hx as [i Hi].
    destruct (Hrec i x Hi) as (Hpop & Hslot & _).
    unfold populated in Hpop. rewrite Hslot in Hpop.
    apply andb_true_iff in Hpop. destruct Hpop as [_ Hpop].
    apply andb_true_iff in Hpop. destruct Hpop as [Hnz _].
    apply negb_true_iff, Z.eqb_neq in Hnz.
    unfold slot_block in Hslot. apply unpack_H_bytes in Hslot;
      [lia | apply is_bytes_slice, is_bytes_slice, Hbytes]. }
  destruct (trail_messages_spec data (data_offset info) (total_blocks_of data info)
              Hbytes ltac:(lia) (in_file_total_blocks data info)
              (a_block <$> (st_active s).*1) ∅ Hheads) as (blocks & Hrun & Hblocks).
  exists blocks. split; [apply scan_database_bulletin_eq, Hscan |].
  cbn [b_active_messages]. split; [exact Hrun |].
  assert (forall b, b ∈ blocks <->
            exists m, m ∈ (st_active s).*1
                      /\ rtc (pointer_step data (data_offset info)) (a_block m) b) as Hiff.
  { intros b. rewrite Hblocks. split.
    - intros [Hb | (h & Hh & Hb)]; [set_solver |].
      apply list_elem_of_fmap in Hh. destruct Hh as (m & -> & Hm). exists m. auto.
    - intros (m & Hm & Hb). right. exists (a_block m).
      split; [apply list_elem_of_fmap; exists m; auto | exact Hb]. }
  split; [exact Hiff |].
  intros b Hb. unfold allocated_blocks in Hb. cbn [b_active_messages] in Hb.
  apply elem_of_list_to_set, list_elem_of_fmap in Hb. destruct Hb as (m & -> & Hm).
  apply Hiff. exists m. split; [exact Hm | apply rtc_refl].
Qed.


(** X16: the set ['active_all_blocks'] of the bulletin result.  For the
    Active messages of the scan the traversal returns, and the set holds
    exactly the blocks that are reached from the head block of an Active
    message by steps along the next-pointers of blocks that lie in the
    file, a null pointer ending the steps; so it holds every head block
    of ['allocated_blocks']. *)
Theorem active_all_blocks_reachable `{DateLibrary} (data : list Z) (info : msginfo) :
  is_bytes data -> read_msginfo data = Ok (Some info) ->
  exists r blocks,
    scan_database_bulletin data = Ok (Some r)
    /\ active_all_blocks data info (b_active_messages r) = Ok blocks
    /\ (forall b, b ∈ blocks <->
          exists m, m ∈ b_active_messages r
                    /\ rtc (pointer_step data (data_offset info)) (a_block m) b)
    /\ allocated_blocks r ⊆ blocks.
Proof. apply active_all_blocks_spec. Qed.

Lemma active_all_blocks_reachable_witness :
  exists r blocks,
    scan_database_bulletin (H := Fixture.no_dates) Fixture.false_continuation = Ok (Some r)
    /\ active_all_blocks (H := Fixture.no_dates) Fixture.false_continuation
         Fixture.bulletin_info (b_active_messages r) = Ok blocks
    /\ (forall b, b ∈ blocks <->
          exists m, m ∈ b_active_messages r
                    /\ rtc (pointer_step Fixture.false_continuation
                              (data_offset Fixture.bulletin_info)) (a_block m) b)
    /\ allocated_blocks r ⊆ blocks.
Proof.
  apply (active_all_blocks_reachable (H := Fixture.no_dates) Fixture.false_continuation
           Fixture.bulletin_info).
  - apply bytes_check_sound. vm_compute. reflexivity.
  - vm_compute. reflexivity.
Defined.

(** In [Fixture.false_continuation] the walk from block 1 stops on block
    2, which looks like a message start, and no phase consumes block 3;
    the traversal follows the pointers through all three blocks, so
    block 3 is in ['active_all_blocks'] and in the claim set of no
    message. *)
Example false_continuation_all_blocks :
  exists s,
    scan_bulletin_state (H := Fixture.no_dates) Fixture.false_continuation
    = Ok (Some (Fixture.bulletin_info, 3, s))
    /\ st_used_blocks s = {[1; 2]}
    /\ active_all_blocks (H := Fixture.no_dates) Fixture.false_continuation
         Fixture.bulletin_info (st_active s).*1 = Ok {[1; 2; 3]}.
Proof. eexists. split; [vm_compute; reflexivity |]. split; vm_compute; reflexivity. Qed.

(** ** The block breakdown of [cmd_analyze] *)

Lemma size_union_le (X Y : gset Z) : (size (X ∪ Y) <= size X + size Y)%nat.
Proof.
  rewrite size_union_alt.
  assert (size (Y ∖ X) <= size Y)%nat by (apply subseteq_size; set_solver). lia.
Qed.

Lemma size_difference_subset (X Y : gset Z) :
  Y ⊆ X -> Z.of_nat (size Y) + Z.of_nat (size (X ∖ Y)) = Z.of_nat (size X).
Proof. intros Hsub. rewrite (size_difference X Y Hsub). apply subseteq_size in Hsub. lia. Qed.

(** X17: the numbers of the block breakdown for a bulletin store.  The
    header and chain counts of the Active messages add up to the size of
    ['active_all_blocks'], and those of the Deleted messages to the size
    of ['deleted_all_blocks']; there are as many Deleted header blocks
    as Deleted messages and as many Orphaned blocks as Orphaned
    messages; the six numbers add up to at least the total, and to the
    total when ['active_all_blocks'] shares no block with
    ['deleted_all_blocks'] nor with ['orphaned_blocks']. *)
Theorem breakdown_adds_up `{DateLibrary} (data : list Z) (info : msginfo) :
  is_bytes data -> read_msginfo data = Ok (Some info) ->
  exists r blocks,
    scan_database_bulletin data = Ok (Some r)
    /\ active_all_blocks data info (b_active_messages r) = Ok blocks
    /\ active_header_count (block_breakdown r blocks)
       + active_chain_count (block_breakdown r blocks) = Z.of_nat (size blocks)
    /\ deleted_header_count (block_breakdown r blocks)
       + deleted_chain_count (block_breakdown r blocks)
       = Z.of_nat (size (b_deleted_all_blocks r))
    /\ deleted_header_count (block_breakdown r blocks) = len (b_deleted_messages r)
    /\ orphaned_count (block_breakdown r blocks) = len (b_orphaned_messages r)
    /\ total_count (block_breakdown r blocks)
       <= active_header_count (block_breakdown r blocks)
          + active_chain_count (block_breakdown r blocks)
          + deleted_header_count (block_breakdown r blocks)
          + deleted_chain_count (block_breakdown r blocks)
          + orphaned_count (block_breakdown r blocks)
          + unused_count (block_breakdown r blocks)
    /\ (blocks ## b_deleted_all_blocks r -> blocks ## orphaned_blocks r ->
        active_header_count (block_breakdown r blocks)
        + active_chain_count (block_breakdown r blocks)
        + deleted_header_count (block_breakdown r blocks)
        + deleted_chain_count (block_breakdown r blocks)
        + orphaned_count (block_breakdown r blocks)
        + unused_count (block_breakdown r blocks)
        = total_count (block_breakdown r blocks)).
Proof.
  intros Hbytes Hinfo.
  destruct (active_all_blocks_spec data info Hbytes Hinfo)
    as (r & blocks & Hscan & Hrun & _ & Hheads).
  destruct (bulletin_heads data info Hbytes Hinfo)
    as (r' & Hscan' & _ & _ & Hnd & Hno & _ & _ & _ & Hdsub & Hdo).
  rewrite Hscan in Hscan'. injection Hscan' as <-.
  exists r, blocks. split; [exact Hscan |]. split; [exact Hrun |].
  cbn [block_breakdown active_header_count active_chain_count deleted_header_count
         deleted_chain_count orphaned_count unused_count total_count].
  unfold active_chain_blocks, deleted_chain_blocks_shown, unused_blocks, all_used.
  change (active_header_blocks r) with (allocated_blocks r).
  change (deleted_header_blocks r) with (deleted_blocks r).
  pose proof (size_difference_subset blocks (allocated_blocks r) Hheads) as HA.
  pose proof (size_difference_subset (b_deleted_all_blocks r) (deleted_blocks r) Hdsub) as HD.
  split; [exact HA |]. split; [exact HD |].
  split; [unfold len; rewrite Hnd; reflexivity |].
  split; [unfold len; rewrite Hno; reflexivity |].
  split.
  - pose proof (size_union_le (blocks ∪ b_deleted_all_blocks r) (orphaned_blocks r)).
    pose proof (size_union_le blocks (b_deleted_all_blocks r)). lia.
  - intros Hbd Hbo.
    rewrite (size_union (blocks ∪ b_deleted_all_blocks r) (orphaned_blocks r))
      by set_solver.
    rewrite (size_union blocks (b_deleted_all_blocks r)) by exact Hbd. lia.
Qed.

Lemma breakdown_adds_up_witness :
  exists r blocks,
    scan_database_bulletin (H := Fixture.no_dates) Fixture.three_kinds = Ok (Some r)
    /\ active_all_blocks (H := Fixture.no_dates) Fixture.three_kinds Fixture.bulletin_info
         (b_active_messages r) = Ok blocks
    /\ active_header_count (block_breakdown r blocks)
       + active_chain_count (block_breakdown r blocks) = Z.of_nat (size blocks)
    /\ deleted_header_count (block_breakdown r blocks)
       + deleted_chain_count (block_breakdown r blocks)
       = Z.of_nat (size (b_deleted_all_blocks r))
    /\ deleted_header_count (block_breakdown r blocks) = len (b_deleted_messages r)
    /\ orphaned_count (block_breakdown r blocks) = len (b_orphaned_messages r)
    /\ total_count (block_breakdown r blocks)
       <= active_header_count (block_breakdown r blocks)
          + active_chain_count (block_breakdown r blocks)
          + deleted_header_count (block_breakdown r blocks)
          + deleted_chain_count (block_breakdown r blocks)
          + orphaned_count (block_breakdown r blocks)
          + unused_count (block_breakdown r blocks)
    /\ (blocks ## b_deleted_all_blocks r -> blocks ## orphaned_blocks r ->
        active_header_count (block_breakdown r blocks)
        + active_chain_count (block_breakdown r blocks)
        + deleted_header_count (block_breakdown r blocks)
        + deleted_chain_count (block_breakdown r blocks)
        + orphaned_count (block_breakdown r blocks)
        + unused_count (block_breakdown r blocks)
        = total_count (block_breakdown r blocks)).
Proof.
  apply (breakdown_adds_up (H := Fixture.no_dates) Fixture.three_kinds Fixture.bulletin_info).
  - apply bytes_check_sound. vm_compute. reflexivity.
  - vm_compute. reflexivity.
Defined.

(** In [Samples.false_continuation_dense] block 3 is an Orphaned block
    and also an Active chain block of the traversal: the six numbers add
    up to 4 for 3 blocks, and the block map shows block 3 as [C]. *)
Example breakdown_counts_twice :
  exists r,
    scan_database_bulletin (H := Fixture.no_dates) Samples.false_continuation_dense
    = Ok (Some r)
    /\ block_breakdown r {[1; 2; 3]} = Breakdown 1 2 0 0 1 0 3
    /\ orphaned_blocks r = {[3]}
    /\ block_marker r {[1; 2; 3]} <$> [1; 2; 3] = [72; 67; 67].
Proof. eexists. split; [vm_compute; reflexivity |]. split_and!; vm_compute; reflexivity. Qed.

(** In [Fixture.self_reference_dense] the walk resumes at block 2 after
    the self-reference of block 1, so block 2 belongs to the Active
    message; the traversal stops at the self-reference, and the block
    map shows block 2 as unused. *)
Example resumed_block_shown_unused :
  exists s r,
    scan_bulletin_state (H := Fixture.no_dates) Fixture.self_reference_dense
    = Ok (Some (Fixture.bulletin_info, 2, s))
    /\ scan_database_bulletin (H := Fixture.no_dates) Fixture.self_reference_dense
       = Ok (Some r)
    /\ active_blocks s = {[1; 2]}
    /\ active_all_blocks (H := Fixture.no_dates) Fixture.self_reference_dense
         Fixture.bulletin_info (b_active_messages r) = Ok {[1]}
    /\ block_marker r {[1]} <$> [1; 2] = [72; 32].
Proof.
  eexists. eexists. split; [vm_compute; reflexivity |]. split; [vm_compute; reflexivity |].
  split_and!; vm_compute; reflexivity.
Qed.
